(** * System Monitor: change gate, alert engine, risk score, retention sweep

    A shallow embedding of
      - [client/src/monitor.js]            (SystemMonitor: the change gate),
      - [client/src/utils/system-checks]   (SystemChecks: the probe),
      - [Server/src/services/AlterService.js] (AlertService: the alert engine),
      - the [Database] class that accompanies [Server/src/models/Machine.js],
      - [Server/src/routes/api.js]         (how the AlertService is wired),
    followed by the properties the specification states about them, and of
      - [client/src/utils/config.js]       (ConfigManager.validateConfig),
      - [Server/src/routes/dashboard.js]   (the health views),
      - [Server/src/middleware/auth.js]    (the API key middleware),
      - [Server/src/routes/auth.js]        (the login),
      - [Server/src/middleware/errorHandler.js],
    followed by further properties of the code.

    Conventions.  JavaScript strings are [string]s (code units below 256).
    [undefined] is [None] of an [option]; a JSON value is a [json].  Instants
    are integers (milliseconds since the epoch); where an instant reaches a
    statement of the store as a text, the text is that of [Timestamps].  An
    [async] function is a
    function from the alert table to a completion and the alert table after
    it; every [await] is a bind, so calls run one after the other. *)

From Stdlib Require Import String Ascii List ZArith Bool Lia Permutation.
From Stdlib Require Import Sorted.
From Stdlib Require Import QArith Qround Qminmax.
From Stdlib Require Import DecimalString DecimalZ DecimalPos.
Import ListNotations.
Close Scope Q_scope.
Open Scope list_scope.
Open Scope string_scope.

Set Implicit Arguments.

(* ================================================================== *)
(** * JavaScript values *)
(* ================================================================== *)

Module JS.

(** Numbers.  JavaScript numbers are IEEE doubles; the code only prints
    them, tests them for zero and compares them with integer literals, so
    those operations form an interface.  [number] is the type of the finite
    numbers a parsed JSON text holds; [jsnum] is the type of all Number
    values (with NaN and the infinities) the probe computes with before its
    result goes through JSON. *)
Class Numbers : Type := {
  number : Type;
  Number_toString : number -> string;           (* Number::toString, radix 10 *)
  number_nonzero : number -> bool;              (* ToBoolean *)
  number_gtb : number -> Z -> bool;             (* n > k *)
  string_gtb : string -> Z -> bool;             (* ToNumber(s) > k *)
  jsnum : Type;
  jsnum_of_Z : Z -> jsnum;
  Infinity : jsnum;
  parseInt : string -> jsnum;                   (* parseInt(s) *)
  parseInt10 : string -> jsnum;                 (* parseInt(s, 10) *)
  jsnum_truthy : jsnum -> bool;                 (* neither 0 nor NaN *)
  jsnum_gtb : jsnum -> jsnum -> bool;           (* a > b *)
  jsnum_leb : jsnum -> jsnum -> bool;           (* a <= b *)
  jsnum_eqb : jsnum -> jsnum -> bool;           (* a === b *)
  jsnum_min : jsnum -> jsnum -> jsnum;          (* Math.min *)
  jsnum_div : jsnum -> jsnum -> jsnum;          (* a / b *)
  jsnum_land : jsnum -> jsnum -> jsnum;         (* a & b *)
  jsnum_toString : jsnum -> string;             (* String(a) *)
  jsnum_toString16 : jsnum -> string;           (* a.toString(16) *)
  jsnum_to_json : jsnum -> option number        (* None: NaN or an infinity, which JSON prints as null *)
}.

(** Regular expressions of the probe, by their source text:
    [RegExp_match re s] is [s.match(re)], the array of the whole match and
    its groups. *)
Class RegExps : Type := {
  RegExp_match : string -> string -> option (list string)
}.

(** ** Strings *)

Definition quote_char : ascii := ascii_of_nat 34.
Definition backslash : ascii := ascii_of_nat 92.

Definition str (c : ascii) : string := String c EmptyString.

(** [s.includes(needle)]. *)
Definition includes (s needle : string) : bool :=
  match String.index 0 needle s with
  | Some _ => true
  | None => false
  end.

(** [s.substring(0, n)]. *)
Definition substring0 (n : nat) (s : string) : string := String.substring 0 n s.

Definition is_space (c : ascii) : bool :=
  let n := nat_of_ascii c in
  ((9 <=? n) && (n <=? 13))%nat || (n =? 32)%nat || (n =? 160)%nat.

Fixpoint trimStart (s : string) : string :=
  match s with
  | String c rest => if is_space c then trimStart rest else s
  | EmptyString => EmptyString
  end.

(** [trimEnd], by the fold that keeps a character when something is kept
    after it or it is no white space. *)
Fixpoint trimEnd (s : string) : string :=
  match s with
  | EmptyString => EmptyString
  | String c rest =>
      match trimEnd rest with
      | EmptyString => if is_space c then EmptyString else str c
      | kept => String c kept
      end
  end.

(** [s.trim()]. *)
Definition trim (s : string) : string := trimEnd (trimStart s).

(** [s.split(sep)] for a separator of one character. *)
Fixpoint split (sep : ascii) (s : string) : list string :=
  match s with
  | EmptyString => [EmptyString]
  | String c rest =>
      if Ascii.eqb c sep then EmptyString :: split sep rest
      else match split sep rest with
           | piece :: pieces => String c piece :: pieces
           | [] => [str c]
           end
  end.

Definition newline : ascii := ascii_of_nat 10.

(** QuoteJSONString: the escapes of [JSON.stringify]. *)
Definition hex_digit (d : nat) : ascii :=
  match String.get d "0123456789abcdef" with
  | Some c => c
  | None => "0"%char
  end.

Definition escape_char (c : ascii) : string :=
  let n := nat_of_ascii c in
  if (n =? 8)%nat then String backslash "b"
  else if (n =? 9)%nat then String backslash "t"
  else if (n =? 10)%nat then String backslash "n"
  else if (n =? 12)%nat then String backslash "f"
  else if (n =? 13)%nat then String backslash "r"
  else if (n =? 34)%nat then String backslash (str quote_char)
  else if (n =? 92)%nat then String backslash (str backslash)
  else if (n <? 32)%nat then
    String backslash ("u00" ++ String (hex_digit (n / 16)) (str (hex_digit (n mod 16))))
  else str c.

Fixpoint escape (s : string) : string :=
  match s with
  | EmptyString => EmptyString
  | String c rest => escape_char c ++ escape rest
  end.

Definition quote (s : string) : string :=
  String quote_char (escape s ++ str quote_char).

(** The reader of one character of an escaped string: the inverse of
    [escape_char], and nothing at the closing quote. *)
Definition hex_value (c : ascii) : nat :=
  let n := nat_of_ascii c in
  if (n <=? 57)%nat then (n - 48)%nat else (n - 87)%nat.

Definition read_escaped (s : string) : option (ascii * string) :=
  match s with
  | EmptyString => None
  | String a rest =>
      if Ascii.eqb a quote_char then None
      else if Ascii.eqb a backslash then
        match rest with
        | String b rest' =>
            if Ascii.eqb b "b" then Some (ascii_of_nat 8, rest')
            else if Ascii.eqb b "t" then Some (ascii_of_nat 9, rest')
            else if Ascii.eqb b "n" then Some (ascii_of_nat 10, rest')
            else if Ascii.eqb b "f" then Some (ascii_of_nat 12, rest')
            else if Ascii.eqb b "r" then Some (ascii_of_nat 13, rest')
            else if Ascii.eqb b quote_char then Some (quote_char, rest')
            else if Ascii.eqb b backslash then Some (backslash, rest')
            else if Ascii.eqb b "u" then
              match rest' with
              | String _ (String _ (String h (String l rest''))) =>
                  Some (ascii_of_nat (16 * hex_value h + hex_value l), rest'')
              | _ => None
              end
            else None
        | EmptyString => None
        end
      else Some (a, rest)
  end.

(** The elements of an array or the members of an object, separated by
    commas and followed by the closing bracket. *)
Definition comma_separated {A} (f : A -> string) (close : string) (l : list A) : string :=
  match l with
  | [] => close
  | x :: rest => f x ++ fold_right (fun y acc => "," ++ f y ++ acc) close rest
  end.

Section Values.
Context {NUM : Numbers}.

#[warnings="-register-all"] Inductive json : Type :=
| JNull
| JBool (b : bool)
| JNum (n : number)
| JStr (s : string)
| JArr (items : list json)
| JObj (members : list (string * json)).

(** A possibly undefined value. *)
Definition value := option json.

(** ToBoolean. *)
Definition truthy (v : value) : bool :=
  match v with
  | None => false
  | Some JNull => false
  | Some (JBool b) => b
  | Some (JNum n) => number_nonzero n
  | Some (JStr s) => negb (s =? "")
  | Some (JArr _) => true
  | Some (JObj _) => true
  end.

Fixpoint lookup (k : string) (members : list (string * json)) : value :=
  match members with
  | [] => None
  | (k', v) :: rest => if k' =? k then Some v else lookup k rest
  end.

(** [o.k] for one of the keys the engine reads (none of them is a property
    of a prototype), on an [o] that is not null or undefined. *)
Definition get (o : json) (k : string) : value :=
  match o with
  | JObj members => lookup k members
  | _ => None
  end.

(** [o?.k]. *)
Definition get_opt (o : value) (k : string) : value :=
  match o with
  | None | Some JNull => None
  | Some o' => get o' k
  end.

Definition join (sep : string) (parts : list string) : string :=
  String.concat sep parts.

(** ToString of a value, as a template literal applies it. *)
Fixpoint json_toString (v : json) : string :=
  match v with
  | JNull => "null"
  | JBool true => "true"
  | JBool false => "false"
  | JNum n => Number_toString n
  | JStr s => s
  | JArr items =>
      join "," (map (fun x => match x with JNull => "" | _ => json_toString x end) items)
  | JObj _ => "[object Object]"
  end.

Definition toString (v : value) : string :=
  match v with
  | None => "undefined"
  | Some j => json_toString j
  end.

(** [v > k] for an integer literal [k]: ToPrimitive, then ToNumber. *)
Definition gt (v : value) (k : Z) : bool :=
  match v with
  | None => false
  | Some JNull => (0 >? k)%Z
  | Some (JBool b) => ((if b then 1 else 0) >? k)%Z
  | Some (JNum n) => number_gtb n k
  | Some (JStr s) => string_gtb s k
  | Some (JArr items) => string_gtb (json_toString (JArr items)) k
  | Some (JObj m) => string_gtb (json_toString (JObj m)) k
  end.

(** [JSON.stringify(v)]. *)
Fixpoint stringify (v : json) : string :=
  match v with
  | JNull => "null"
  | JBool true => "true"
  | JBool false => "false"
  | JNum n => Number_toString n
  | JStr s => quote s
  | JArr items => "[" ++ comma_separated stringify "]" items
  | JObj members =>
      "{" ++ comma_separated (fun m => quote (fst m) ++ ":" ++ stringify (snd m)) "}" members
  end.

(** A value the probe puts in a property before its result goes through
    JSON. *)
Inductive raw :=
| RNull
| RBool (b : bool)
| RNum (x : jsnum)
| RStr (s : string).

(** [JSON.parse(JSON.stringify(result))] on an object of such values: a
    number that is not finite comes back as null. *)
Definition JSON_roundtrip (result : list (string * raw)) : json :=
  JObj (map (fun m =>
               (fst m,
                match snd m with
                | RNull => JNull
                | RBool b => JBool b
                | RNum x => match jsnum_to_json x with
                            | Some n => JNum n
                            | None => JNull
                            end
                | RStr s => JStr s
                end)) result).

End Values.

End JS.

(* ================================================================== *)
(** * Timestamps as texts *)
(* ================================================================== *)

(** The two texts of an instant that meet in the statement of the
    retention sweep: [new Date(instant).toISOString()] of JavaScript and
    the [CURRENT_TIMESTAMP] of SQLite, both in UTC, for the years 0000 to
    9999. *)
Module Timestamps.
Local Open Scope Z_scope.

Definition digit_char (d : Z) : ascii := ascii_of_nat (48 + Z.to_nat d).

(** [n] in [width] decimal digits, padded with zeros. *)
Fixpoint digits (width : nat) (n : Z) : string :=
  match width with
  | O => EmptyString
  | S w => digits w (n / 10) ++ String (digit_char (n mod 10)) EmptyString
  end.

(** The civil date of a day counted from 1970-01-01, in the proleptic
    Gregorian calendar: year, month, day. *)
Definition civil_from_days (day : Z) : Z * Z * Z :=
  let z := day + 719468 in
  let era := z / 146097 in
  let doe := z - era * 146097 in
  let yoe := (doe - doe / 1460 + doe / 36524 - doe / 146096) / 365 in
  let doy := doe - (365 * yoe + yoe / 4 - yoe / 100) in
  let mp := (5 * doy + 2) / 153 in
  let d := doy - (153 * mp + 2) / 5 + 1 in
  let m := if mp <? 10 then mp + 3 else mp - 9 in
  let y := yoe + era * 400 in
  (if m <=? 2 then y + 1 else y, m, d).

Definition msPerDay : Z := 24 * 60 * 60 * 1000.

(** [YYYY-MM-DD] of an instant. *)
Definition date_text (instant : Z) : string :=
  let '(y, m, d) := civil_from_days (instant / msPerDay) in
  digits 4 y ++ "-" ++ digits 2 m ++ "-" ++ digits 2 d.

(** [HH:MM:SS] of an instant. *)
Definition time_text (instant : Z) : string :=
  let ms := instant mod msPerDay in
  digits 2 (ms / 3600000) ++ ":" ++ digits 2 (ms / 60000 mod 60) ++ ":"
  ++ digits 2 (ms / 1000 mod 60).

(** [new Date(instant).toISOString()]: [YYYY-MM-DDTHH:MM:SS.sssZ]. *)
Definition toISOString (instant : Z) : string :=
  date_text instant ++ "T" ++ time_text instant ++ "." ++ digits 3 (instant mod 1000) ++ "Z".

(** What [CURRENT_TIMESTAMP] stores at an instant: [YYYY-MM-DD HH:MM:SS]. *)
Definition CURRENT_TIMESTAMP (instant : Z) : string :=
  date_text instant ++ " " ++ time_text instant.

(** The instants of the years 0000 to 9999, whose texts have these
    formats: from 0000-01-01 00:00:00.000 to 9999-12-31 23:59:59.999. *)
Definition four_digit_year (instant : Z) : Prop :=
  -62167219200000 <= instant < 253402300800000.

End Timestamps.

(* ================================================================== *)
(** * The alert table and the objects that reach it *)
(* ================================================================== *)

Inductive AlertType :=
| disk_encryption
| os_updates
| antivirus_missing
| antivirus_disabled
| antivirus_outdated
| sleep_timeout.

Inductive Severity := critical | high | medium | low.

Definition AlertType_eqb (a b : AlertType) : bool :=
  match a, b with
  | disk_encryption, disk_encryption
  | os_updates, os_updates
  | antivirus_missing, antivirus_missing
  | antivirus_disabled, antivirus_disabled
  | antivirus_outdated, antivirus_outdated
  | sleep_timeout, sleep_timeout => true
  | _, _ => false
  end.

(** A row of the table [alerts]. *)
Record AlertRecord := {
  machine_id : string;
  alert_type : AlertType;
  severity : Severity;
  title : string;
  message : string;
  is_resolved : bool;
  created_at : Z;
  resolved_at : option Z
}.

Definition Alerts := list AlertRecord.

(** The argument of [createAlert]. *)
Record AlertData := {
  data_machineId : string;
  data_alertType : AlertType;
  data_severity : Severity;
  data_title : string;
  data_message : string
}.

Inductive JsError :=
| TypeError (what : string)
| DbError (what : string).

Inductive Completion (A : Type) :=
| Normal (a : A)
| Throw (e : JsError).
Arguments Normal {A} a.
Arguments Throw {A} e.

(** An awaited call: how it completes, and the table after it. *)
Definition Async (A : Type) := Alerts -> Completion A * Alerts.

Definition ret {A} (a : A) : Async A := fun t => (Normal a, t).
Definition throw {A} (e : JsError) : Async A := fun t => (Throw e, t).
Definition bind {A B} (c : Async A) (k : A -> Async B) : Async B :=
  fun t => match c t with
           | (Normal a, t') => k a t'
           | (Throw e, t') => (Throw e, t')
           end.
Definition try_catch {A} (body : Async A) (handler : JsError -> Async A) : Async A :=
  fun t => match body t with
           | (Normal a, t') => (Normal a, t')
           | (Throw e, t') => handler e t'
           end.

Declare Scope async_scope.
Delimit Scope async_scope with async.
Notation "x <- c ;; k" := (bind c (fun x => k))
  (at level 61, c at next level, right associativity) : async_scope.
Notation "c ;; k" := (bind c (fun _ => k))
  (at level 61, right associativity) : async_scope.

(** The table after a call. *)
Definition after {A} (c : Async A) (t : Alerts) : Alerts := snd (c t).
Definition completion {A} (c : Async A) (t : Alerts) : Completion A := fst (c t).

(** The statements the service sends through [db.get] and [db.run]. *)
Inductive Query :=
| SelectOpenAlert (machineId : string) (alertType : AlertType).
    (* SELECT id FROM alerts WHERE machine_id = ? AND alert_type = ? AND is_resolved = 0 *)

Inductive Statement :=
| ResolveOpenAlerts (machineId : string) (alertType : AlertType)
    (* UPDATE alerts SET is_resolved = 1, resolved_at = CURRENT_TIMESTAMP
       WHERE machine_id = ? AND alert_type = ? AND is_resolved = 0 *)
| DeleteResolvedBefore (cutoffDate : string).
    (* DELETE FROM alerts WHERE is_resolved = 1 AND resolved_at < ? *)

(** The handle [db.db]: [get] yields the first row of a query, [run] the
    number of rows a statement changed ([this.changes]). *)
Record Handle := {
  handle_get : Query -> Async (option AlertRecord);
  handle_run : Statement -> Async nat
}.

(** What a property of the object given to the AlertService may be. *)
Inductive Member :=
| Model (name : string)                                   (* a mongoose model *)
| HandleMember (h : Handle)
| CreateAlert (f : AlertData -> Async unit)
| GetAlerts (f : string -> bool -> Async Alerts).

(** A JavaScript object: its own properties. *)
Definition Object := list (string * Member).

Fixpoint property (o : Object) (k : string) : option Member :=
  match o with
  | [] => None
  | (k', m) :: rest => if k' =? k then Some m else property rest k
  end.

(** ** The table behind the statements *)

Definition same_alert (machineId : string) (alertType : AlertType) (r : AlertRecord) : bool :=
  (machine_id r =? machineId) && AlertType_eqb (alert_type r) alertType.

Definition is_open (machineId : string) (alertType : AlertType) (r : AlertRecord) : bool :=
  same_alert machineId alertType r && negb (is_resolved r).

Definition open_alerts (machineId : string) (alertType : AlertType) (t : Alerts) : Alerts :=
  filter (is_open machineId alertType) t.

Definition resolve_row (now : Z) (r : AlertRecord) : AlertRecord :=
  {| machine_id := machine_id r; alert_type := alert_type r; severity := severity r;
     title := title r; message := message r;
     is_resolved := true; created_at := created_at r; resolved_at := Some now |}.

Definition resolve_rows (now : Z) (machineId : string) (alertType : AlertType) (t : Alerts) : Alerts :=
  map (fun r => if is_open machineId alertType r then resolve_row now r else r) t.

(** [is_resolved = 1 AND resolved_at < ?] for a text bound to [?].  The
    column holds the text [CURRENT_TIMESTAMP] stored at the instant of the
    resolution, and SQLite compares two texts byte by byte; a NULL
    [resolved_at] compares as NULL and the row stays. *)
Definition expired (cutoffDate : string) (r : AlertRecord) : bool :=
  is_resolved r &&
  match resolved_at r with
  | Some at_ => String.ltb (Timestamps.CURRENT_TIMESTAMP at_) cutoffDate
  | None => false
  end.

(** Modelled from the spec: the handle [db.db] on the table [alerts] that the
    service addresses is not among the sources (section 6, the alert store
    capability: [findOpenAlert], [resolveOpenAlerts], [deleteResolvedBefore]);
    the statements are those of AlterService.js, read at the instant [now]. *)
Definition table_handle (now : Z) : Handle :=
  {| handle_get := fun q t =>
       match q with
       | SelectOpenAlert machineId alertType =>
           (Normal (hd_error (open_alerts machineId alertType t)), t)
       end;
     handle_run := fun s t =>
       match s with
       | ResolveOpenAlerts machineId alertType =>
           (Normal (length (open_alerts machineId alertType t)),
            resolve_rows now machineId alertType t)
       | DeleteResolvedBefore cutoffDate =>
           (Normal (length (filter (expired cutoffDate) t)),
            filter (fun r => negb (expired cutoffDate r)) t)
       end |}.

(** Modelled from the spec: the [createAlert] of the store the service
    addresses is not among the sources (section 6, [insertAlert]): it appends
    a row for its argument, with the defaults of the schema of [alerts]
    in the Database class ([is_resolved] false, [created_at] now, no
    [resolved_at]). *)
Definition Database_createAlert (now : Z) (alertData : AlertData) : Async unit :=
  fun t =>
    (Normal tt,
     (t ++ [{| machine_id := data_machineId alertData;
              alert_type := data_alertType alertData;
              severity := data_severity alertData;
              title := data_title alertData;
              message := data_message alertData;
              is_resolved := false;
              created_at := now;
              resolved_at := None |}])%list).

(** [sort({ created_at: -1 })]: newest first. *)
Fixpoint insert_by_created_at (r : AlertRecord) (sorted : Alerts) : Alerts :=
  match sorted with
  | [] => [r]
  | r' :: rest =>
      if (created_at r' <=? created_at r)%Z then r :: sorted
      else r' :: insert_by_created_at r rest
  end.

Definition sort_newest_first (t : Alerts) : Alerts :=
  fold_right insert_by_created_at [] t.

(** [Database.getAlerts(machineId = null, resolved = false, limit = 100)]. *)
Definition Database_getAlerts (machineId : string) (resolved : bool) : Async Alerts :=
  fun t =>
    let filter_ r :=
      Bool.eqb (is_resolved r) resolved &&
      (if machineId =? "" then true else machine_id r =? machineId) in
    (Normal (firstn 100 (sort_newest_first (filter filter_ t))), t).

(** The database object the service is written for, at the instant [now]. *)
Definition database (now : Z) : Object :=
  [("db", HandleMember (table_handle now));
   ("createAlert", CreateAlert (Database_createAlert now));
   ("getAlerts", GetAlerts Database_getAlerts)].

(** The object server.js builds and api.js hands to [new AlertService(models)]. *)
Definition models : Object :=
  [("User", Model "User");
   ("ApiKey", Model "ApiKey");
   ("Machine", Model "Machine");
   ("SystemReport", Model "SystemReport");
   ("Alert", Model "Alert")].

(* ================================================================== *)
(** * AlertService (Server/src/services/AlterService.js) *)
(* ================================================================== *)

Module AlertService.
Import JS.
Local Open Scope async_scope.

Section Service.
Context {NUM : Numbers}.

(** The body of a submitted snapshot, as [analyzeSystemData] destructures it. *)
Record SystemData := {
  machineId : string;
  diskEncryption : value;
  osUpdates : value;
  antivirus : value;
  sleepSettings : value
}.

(** [this.db], the constructor's argument. *)
Variable db : Object.

(** [this.db.db.get(...)]: a TypeError when [this.db.db] is undefined or has
    no such method. *)
Definition db_get (q : Query) : Async (option AlertRecord) :=
  match property db "db" with
  | Some (HandleMember h) => handle_get h q
  | Some _ => throw (TypeError "this.db.db.get is not a function")
  | None => throw (TypeError "Cannot read properties of undefined (reading 'get')")
  end.

Definition db_run (s : Statement) : Async nat :=
  match property db "db" with
  | Some (HandleMember h) => handle_run h s
  | Some _ => throw (TypeError "this.db.db.run is not a function")
  | None => throw (TypeError "Cannot read properties of undefined (reading 'run')")
  end.

Definition db_createAlert (alertData : AlertData) : Async unit :=
  match property db "createAlert" with
  | Some (CreateAlert f) => f alertData
  | _ => throw (TypeError "this.db.createAlert is not a function")
  end.

Definition db_getAlerts (machineId : string) (resolved : bool) : Async Alerts :=
  match property db "getAlerts" with
  | Some (GetAlerts f) => f machineId resolved
  | _ => throw (TypeError "this.db.getAlerts is not a function")
  end.

Definition createAlertIfNotExists (machineId : string) (alertType : AlertType)
    (severity : Severity) (title message : string) : Async unit :=
  existingAlert <- db_get (SelectOpenAlert machineId alertType) ;;
  match existingAlert with
  | None =>
      db_createAlert {| data_machineId := machineId; data_alertType := alertType;
                        data_severity := severity; data_title := title;
                        data_message := message |}
  | Some _ => ret tt
  end.

Definition resolveAlertByType (machineId : string) (alertType : AlertType) : Async nat :=
  db_run (ResolveOpenAlerts machineId alertType).

(** The tests of the four rules.  [o.k] is read only where [o] is truthy,
    so it is [get_opt]. *)
Definition disk_not_encrypted (diskEncryption : value) : bool :=
  negb (truthy diskEncryption) || negb (truthy (get_opt diskEncryption "encrypted")).

Definition updates_pending (osUpdates : value) : bool :=
  negb (truthy osUpdates) || negb (truthy (get_opt osUpdates "upToDate")).

Definition antivirus_not_installed (antivirus : value) : bool :=
  negb (truthy antivirus) || negb (truthy (get_opt antivirus "installed")).

Definition antivirus_not_enabled (antivirus : value) : bool :=
  negb (truthy (get_opt antivirus "enabled")).

Definition definitions_outdated (antivirus : value) : bool :=
  truthy (get_opt antivirus "definitionsOutdated").

Definition sleep_too_long (sleepSettings : value) : bool :=
  negb (truthy sleepSettings) || gt (get_opt sleepSettings "sleepTimeout") 10.

Definition checkDiskEncryptionAlert (machineId : string) (diskEncryption : value) : Async unit :=
  if disk_not_encrypted diskEncryption then
    createAlertIfNotExists machineId disk_encryption high
      "Disk Encryption Disabled"
      ("Machine " ++ machineId ++
       " does not have disk encryption enabled. This poses a significant security risk.")
  else
    resolveAlertByType machineId disk_encryption ;; ret tt.

Definition checkOSUpdatesAlert (machineId : string) (osUpdates : value) : Async unit :=
  if updates_pending osUpdates then
    let severity := if gt (get_opt osUpdates "daysBehind") 30 then high else medium in
    let message :=
      if truthy (get_opt osUpdates "daysBehind")
      then "Machine " ++ machineId ++ " is " ++ toString (get_opt osUpdates "daysBehind")
           ++ " days behind on OS updates."
      else "Machine " ++ machineId ++ " has pending OS updates." in
    createAlertIfNotExists machineId os_updates severity "OS Updates Required" message
  else
    resolveAlertByType machineId os_updates ;; ret tt.

Definition checkAntivirusAlert (machineId : string) (antivirus : value) : Async unit :=
  if antivirus_not_installed antivirus then
    createAlertIfNotExists machineId antivirus_missing high
      "Antivirus Not Installed"
      ("Machine " ++ machineId ++ " does not have antivirus software installed.")
  else if antivirus_not_enabled antivirus then
    createAlertIfNotExists machineId antivirus_disabled medium
      "Antivirus Disabled"
      ("Machine " ++ machineId ++ " has antivirus software installed but it is not enabled.") ;;
    resolveAlertByType machineId antivirus_missing ;; ret tt
  else
    resolveAlertByType machineId antivirus_missing ;;
    resolveAlertByType machineId antivirus_disabled ;;
    if definitions_outdated antivirus then
      createAlertIfNotExists machineId antivirus_outdated medium
        "Antivirus Definitions Outdated"
        ("Machine " ++ machineId ++ " has outdated antivirus definitions.")
    else
      resolveAlertByType machineId antivirus_outdated ;; ret tt.

Definition checkSleepSettingsAlert (machineId : string) (sleepSettings : value) : Async unit :=
  if sleep_too_long sleepSettings then
    let timeout :=
      if truthy (get_opt sleepSettings "sleepTimeout")
      then toString (get_opt sleepSettings "sleepTimeout")
      else "unknown" in
    createAlertIfNotExists machineId sleep_timeout low
      "Sleep Timeout Too Long"
      ("Machine " ++ machineId ++ " has sleep timeout set to " ++ timeout
       ++ " minutes. Recommended: ≤10 minutes.")
  else
    resolveAlertByType machineId sleep_timeout ;; ret tt.

(** The four rules in one [try]; the [catch] logs the error and returns. *)
Definition analyzeSystemData (systemData : SystemData) : Async unit :=
  try_catch
    (checkDiskEncryptionAlert (machineId systemData) (diskEncryption systemData) ;;
     checkOSUpdatesAlert (machineId systemData) (osUpdates systemData) ;;
     checkAntivirusAlert (machineId systemData) (antivirus systemData) ;;
     checkSleepSettingsAlert (machineId systemData) (sleepSettings systemData))
    (fun _error => ret tt).

(** ** Risk score *)

Record RiskScore := {
  score : Z;
  level : Severity;
  alertCount : nat;
  rawScore : Z
}.

Definition severityWeights (s : Severity) : Z :=
  match s with
  | critical => 10
  | high => 7
  | medium => 4
  | low => 1
  end.

(** [alerts.forEach(alert => riskScore += severityWeights[alert.severity] || 0)]. *)
Definition sum_weights (alerts : Alerts) : Z :=
  fold_left (fun riskScore alert => (riskScore + severityWeights (severity alert))%Z) alerts 0%Z.

Definition maxPossibleScore : Q := 50%Q.

(** [Math.min(100, (riskScore / maxPossibleScore) * 100)], in exact
    arithmetic. *)
Definition normalize (riskScore : Z) : Q :=
  (Qmin 100 ((inject_Z riskScore / maxPossibleScore) * 100))%Q.

(** [Math.round]: the nearest integer, halves upwards. *)
Definition Math_round (q : Q) : Z := Qfloor (q + (1 # 2))%Q.

Definition risk_of (alerts : Alerts) : RiskScore :=
  let riskScore := sum_weights alerts in
  let normalizedScore := normalize riskScore in
  {| score := Math_round normalizedScore;
     level := if Qle_bool 80%Q normalizedScore then critical
              else if Qle_bool 60%Q normalizedScore then high
              else if Qle_bool 30%Q normalizedScore then medium
              else low;
     alertCount := length alerts;
     rawScore := riskScore |}.

Definition getMachineRiskScore (machineId : string) : Async RiskScore :=
  alerts <- db_getAlerts machineId false ;;
  ret (risk_of alerts).

(** ** Retention sweep *)

(** [now] is [Date.now()]. *)
Definition cleanupOldResolvedAlerts (now : Z) (daysToKeep : Z) : Async nat :=
  let cutoffDate :=
    Timestamps.toISOString (now - daysToKeep * 24 * 60 * 60 * 1000)%Z in
  db_run (DeleteResolvedBefore cutoffDate).

Definition default_daysToKeep : Z := 30.

End Service.
End AlertService.

(* ================================================================== *)
(** * SystemChecks (client/src/utils/system-checks.js) *)
(* ================================================================== *)

Module SystemChecks.
Import JS.

(** What a check returns before [safeRun]: an object, or the message of
    the error thrown. *)
Inductive Result (A : Type) :=
| Ok (a : A)
| Error (message : string).
Arguments Ok {A} a.
Arguments Error {A} message.

(** The machine the client runs on: [os.platform()], what a command prints
    or the message it fails with, and [new Date().toISOString()]. *)
Record Host := {
  os_platform : string;
  exec : string -> Result string;
  isoNow : string
}.

Section Checks.
Context {NUM : Numbers} {RE : RegExps}.
Variable host : Host.

Definition runCommand (command : string) : Result string := exec host command.

Definition andThen {A B} (r : Result A) (k : A -> Result B) : Result B :=
  match r with
  | Ok a => k a
  | Error m => Error m
  end.

(** [try { ... } catch { ... }]. *)
Definition orElse {A} (r : Result A) (handler : Result A) : Result A :=
  match r with
  | Ok a => Ok a
  | Error _ => handler
  end.

Definition safeRun (fn : Result (list (string * raw))) : json :=
  match fn with
  | Ok result => JSON_roundtrip result
  | Error message =>
      JObj [("error", JBool true);
            ("message", JStr (if message =? "" then "Error" else message))]
  end.

(** ** Disk encryption *)

Definition checkMacOSEncryption : Result (list (string * raw)) :=
  andThen (runCommand "fdesetup status") (fun stdout =>
  let enabled := includes stdout "FileVault is On" in
  Ok [("enabled", RBool enabled);
      ("status", RStr (trim stdout));
      ("method", RStr "FileVault")]).

Definition checkWindowsEncryption : Result (list (string * raw)) :=
  andThen (runCommand "manage-bde -status C:") (fun stdout =>
  let enabled := includes stdout "Protection On" || includes stdout "Fully Encrypted" in
  Ok [("enabled", RBool enabled);
      ("status", RStr (if enabled then "BitLocker enabled" else "BitLocker not enabled"));
      ("method", RStr "BitLocker");
      ("details", RStr (substring0 200 stdout))]).

Definition checkLinuxEncryption : Result (list (string * raw)) :=
  andThen (runCommand "lsblk -f") (fun stdout =>
  let enabled := includes stdout "crypto_LUKS" in
  Ok [("enabled", RBool enabled);
      ("status", RStr (if enabled then "LUKS encryption detected" else "No LUKS encryption found"));
      ("method", RStr "LUKS");
      ("details", RStr (substring0 200 stdout))]).

Definition checkDiskEncryption : json :=
  safeRun
    (let platform := os_platform host in
     if platform =? "darwin" then checkMacOSEncryption
     else if platform =? "win32" then checkWindowsEncryption
     else if platform =? "linux" then checkLinuxEncryption
     else Ok [("enabled", RBool false); ("status", RStr "Platform not supported")]).

(** ** Operating system updates *)

Definition checkMacOSUpdates : Result (list (string * raw)) :=
  andThen (runCommand "softwareupdate -l") (fun stdout =>
  let updatesAvailable := negb (includes stdout "No new software available") in
  Ok [("updatesAvailable", RBool updatesAvailable);
      ("lastCheck", RStr (isoNow host));
      ("status", RStr (if updatesAvailable then "Updates available" else "System up to date"));
      ("details", RStr (substring0 500 stdout))]).

Definition checkWindowsUpdates : Result (list (string * raw)) :=
  let command :=
    "powershell " ++ str quote_char ++ "Get-WindowsUpdate -AcceptAll -Hide" ++ str quote_char in
  andThen (runCommand command) (fun stdout =>
  Ok [("updatesAvailable", RBool (0 <? String.length (trim stdout))%nat);
      ("lastCheck", RStr (isoNow host));
      ("status", RStr "Windows Update check completed");
      ("details", RStr (substring0 500 stdout))]).

Definition checkLinuxUpdates : Result (list (string * raw)) :=
  let found (packageManager : string) (stdout : string) := Ok (stdout, packageManager) in
  andThen
    (orElse (andThen (runCommand "apt list --upgradable 2>/dev/null | wc -l") (found "apt"))
    (orElse (andThen (runCommand ("yum check-update | grep -c " ++ str quote_char ++ "^[^L]"
                                  ++ str quote_char ++ " || true")) (found "yum"))
    (orElse (andThen (runCommand "zypper list-updates | wc -l") (found "zypper"))
            (Error "No supported package manager found"))))
    (fun '(stdout, packageManager) =>
  let updateCount := parseInt10 (trim stdout) in
  Ok [("updatesAvailable",
       RBool (jsnum_gtb updateCount (jsnum_of_Z (if packageManager =? "apt" then 1 else 0))));
      ("lastCheck", RStr (isoNow host));
      ("status", RStr (jsnum_toString updateCount ++ " package"
                       ++ (if negb (jsnum_eqb updateCount (jsnum_of_Z 1)) then "s" else "")
                       ++ " can be upgraded"));
      ("packageManager", RStr packageManager);
      ("details", RStr ("Using " ++ packageManager))]).

Definition checkOSUpdates : json :=
  safeRun
    (let platform := os_platform host in
     if platform =? "darwin" then checkMacOSUpdates
     else if platform =? "win32" then checkWindowsUpdates
     else if platform =? "linux" then checkLinuxUpdates
     else Ok [("updatesAvailable", RBool false); ("status", RStr "Platform not supported")]).

(** ** Antivirus *)

Definition checkMacOSAntivirus : Result (list (string * raw)) :=
  Ok [("installed", RBool true);
      ("running", RBool true);
      ("name", RStr "XProtect (Built-in)");
      ("status", RStr "macOS built-in malware protection active");
      ("lastUpdate", RStr "Automatic updates")].

(** [parts[i] || fallback]. *)
Definition part_or (parts : list string) (i : nat) (fallback : string) : string :=
  match nth_error parts i with
  | Some part => if part =? "" then fallback else part
  | None => fallback
  end.

Definition checkWindowsAntivirus : Result (list (string * raw)) :=
  andThen
    (runCommand ("wmic /namespace:" ++ str backslash ++ str backslash ++ "root" ++ str backslash
                 ++ "SecurityCenter2 path AntivirusProduct get displayName,productState /format:csv"))
    (fun stdout =>
  let lines := filter (fun line => negb (line =? "")) (split newline (trim stdout)) in
  match lines with
  | _ :: line1 :: _ =>
      let parts := split ","%char line1 in
      let displayName := part_or parts 1 "Windows Defender" in
      let productState := parseInt (part_or parts 2 "0") in
      let running := negb (jsnum_eqb (jsnum_land productState (jsnum_of_Z 4096)) (jsnum_of_Z 0)) in
      Ok [("installed", RBool true);
          ("running", RBool running);
          ("name", RStr displayName);
          ("status", RStr (if running then "Antivirus active" else "Antivirus installed but not active"));
          ("productState", RStr (jsnum_toString16 productState))]
  | _ =>
      Ok [("installed", RBool false); ("running", RBool false);
          ("status", RStr "No antivirus product detected")]
  end).

Definition antivirusChecks : list (string * string) :=
  [("which clamav", "ClamAV");
   ("which freshclam", "ClamAV");
   ("systemctl is-active clamav-daemon", "ClamAV Daemon");
   ("which rkhunter", "RKHunter");
   ("which chkrootkit", "chkrootkit")].

Fixpoint firstDetected (checks : list (string * string)) : Result (list (string * raw)) :=
  match checks with
  | [] =>
      Ok [("installed", RBool false); ("running", RBool false);
          ("status", RStr "No common antivirus solutions detected")]
  | (command, name) :: rest =>
      match runCommand command with
      | Ok _ =>
          Ok [("installed", RBool true);
              ("running", RBool true);
              ("name", RStr name);
              ("status", RStr (name ++ " detected"));
              ("method", RStr "Command line detection")]
      | Error _ => firstDetected rest
      end
  end.

Definition checkLinuxAntivirus : Result (list (string * raw)) :=
  firstDetected antivirusChecks.

Definition checkAntivirus : json :=
  safeRun
    (let platform := os_platform host in
     if platform =? "darwin" then checkMacOSAntivirus
     else if platform =? "win32" then checkWindowsAntivirus
     else if platform =? "linux" then checkLinuxAntivirus
     else Ok [("installed", RBool false); ("running", RBool false);
              ("status", RStr "Platform not supported")]).

(** ** Sleep settings *)

(** [x || Infinity] and [x || 'Never'] for an [x] that is null or a number. *)
Definition or_Infinity (x : option jsnum) : jsnum :=
  match x with
  | Some n => if jsnum_truthy n then n else Infinity
  | None => Infinity
  end.

Definition or_Never (x : option jsnum) : string :=
  match x with
  | Some n => if jsnum_truthy n then jsnum_toString n else "Never"
  | None => "Never"
  end.

Definition raw_of (x : option jsnum) : raw :=
  match x with
  | Some n => RNum n
  | None => RNull
  end.

(** [match[1]] of a match array; [parseInt(undefined, 10)] reads the text
    of undefined. *)
Definition group1 (m : list string) : string := nth 1 m "undefined".

(** The [forEach] over the lines of [pmset]: the last line that matches
    sets the variable. *)
Definition scan_pmset (lines : list string) : option jsnum * option jsnum :=
  fold_left
    (fun '(sleepTime, displaySleep) line =>
       let sleepTime' :=
         match RegExp_match "sleep\s+(\d+)" line with
         | Some m => Some (parseInt10 (group1 m))
         | None => sleepTime
         end in
       let displaySleep' :=
         match RegExp_match "displaysleep\s+(\d+)" line with
         | Some m => Some (parseInt10 (group1 m))
         | None => displaySleep
         end in
       (sleepTime', displaySleep'))
    lines (None, None).

Definition checkMacOSSleep : Result (list (string * raw)) :=
  andThen
    (runCommand ("pmset -g | grep -E " ++ str quote_char ++ "(sleep|displaysleep)" ++ str quote_char))
    (fun stdout =>
  let lines := split newline stdout in
  let '(sleepTime, displaySleep) := scan_pmset lines in
  let effectiveSleep := jsnum_min (or_Infinity sleepTime) (or_Infinity displaySleep) in
  Ok [("sleepTime", if jsnum_eqb effectiveSleep Infinity then RNull else RNum effectiveSleep);
      ("displaySleep", raw_of displaySleep);
      ("compliant", RBool (jsnum_leb effectiveSleep (jsnum_of_Z 10)));
      ("status", RStr ("Sleep: " ++ or_Never sleepTime ++ " min, Display: "
                       ++ or_Never displaySleep ++ " min"));
      ("settings", RStr (trim stdout))]).

Definition checkWindowsSleep : Result (list (string * raw)) :=
  orElse
    (andThen (runCommand "powercfg /query SCHEME_CURRENT SUB_SLEEP") (fun stdout =>
     Ok [("sleepTime", RNull);
         ("compliant", RBool false);
         ("status", RStr "Windows power settings check - manual verification recommended");
         ("settings", RStr (substring0 300 stdout))]))
    (Ok [("sleepTime", RNull);
         ("compliant", RBool false);
         ("status", RStr "Unable to check Windows sleep settings")]).

Definition checkLinuxSleep : Result (list (string * raw)) :=
  orElse
    (andThen (runCommand "gsettings get org.gnome.desktop.session idle-delay") (fun stdout =>
     let digits :=
       match RegExp_match "\d+" stdout with
       | Some m => match nth_error m 0 with
                   | Some whole => if whole =? "" then "0" else whole
                   | None => "0"
                   end
       | None => "0"
       end in
     let delay := parseInt digits in
     Ok [("sleepTime", RNum (jsnum_div delay (jsnum_of_Z 60)));
         ("compliant", RBool (jsnum_leb delay (jsnum_of_Z 600)));
         ("status", RStr ("GNOME idle delay: " ++ jsnum_toString delay ++ " seconds"));
         ("settings", RStr (trim stdout))]))
    (Ok [("sleepTime", RNull);
         ("compliant", RBool false);
         ("status", RStr "Manual check recommended for your desktop environment")]).

Definition checkSleepSettings : json :=
  safeRun
    (let platform := os_platform host in
     if platform =? "darwin" then checkMacOSSleep
     else if platform =? "win32" then checkWindowsSleep
     else if platform =? "linux" then checkLinuxSleep
     else Ok [("sleepTime", RNull); ("compliant", RBool false);
              ("status", RStr "Platform not supported")]).

End Checks.
End SystemChecks.

(* ================================================================== *)
(** * SystemMonitor (client/src/monitor.js) *)
(* ================================================================== *)

Module SystemMonitor.
Import JS.

Section Monitor.
Context {NUM : Numbers} {RE : RegExps}.

(** The object [getSystemState] builds.  [timestamp] stands for the ISO
    text of an instant, which [new Date(text).getTime()] reads back. *)
Record SystemState := {
  machineId : string;
  platform : string;
  hostname : string;
  timestamp : Z;
  osInfo : json;
  diskEncryption : json;
  osUpdates : json;
  antivirus : json;
  sleepSettings : json;
  systemInfo : json
}.

(** What [os] and the clock answer besides the probe's host. *)
Record Os := {
  os_hostname : string;
  os_info : json;
  os_systemInfo : json
}.

Definition getSystemState (machineId : string) (host : SystemChecks.Host) (os : Os) (now : Z)
  : SystemState :=
  {| machineId := machineId;
     platform := SystemChecks.os_platform host;
     hostname := os_hostname os;
     timestamp := now;
     osInfo := os_info os;
     diskEncryption := SystemChecks.checkDiskEncryption host;
     osUpdates := SystemChecks.checkOSUpdates host;
     antivirus := SystemChecks.checkAntivirus host;
     sleepSettings := SystemChecks.checkSleepSettings host;
     systemInfo := os_systemInfo os |}.

(** The four keys of [hasStateChanged], as the projections they select. *)
Definition keys : list (SystemState -> json) :=
  [diskEncryption; osUpdates; antivirus; sleepSettings].

Definition hasStateChanged (lastState : option SystemState) (newState : SystemState) : bool :=
  match lastState with
  | None => true
  | Some last =>
      existsb (fun key => negb (stringify (key last) =? stringify (key newState))) keys
  end.

(** [now] is [Date.now()]. *)
Definition shouldSendHeartbeat (lastState : option SystemState) (now : Z) : bool :=
  match lastState with
  | None => true
  | Some last =>
      let lastSent := timestamp last in
      let hoursSinceLastSent := (inject_Z (now - lastSent) / inject_Z (1000 * 60 * 60))%Q in
      Qle_bool 24%Q hoursSinceLastSent
  end.

Definition shouldSend (lastState : option SystemState) (currentState : SystemState) (now : Z) : bool :=
  match lastState with None => true | Some _ => false end
  || hasStateChanged lastState currentState
  || shouldSendHeartbeat lastState now.

(** One cycle of [runCheck] once the state is built: [sent] tells whether
    [sendSystemData] resolved; when it rejects, the [catch] leaves
    [lastState] as it was.  The result is the new [lastState] and whether
    the state was transmitted. *)
Definition runCheck (lastState : option SystemState) (currentState : SystemState) (now : Z)
    (sent : bool) : option SystemState * bool :=
  if shouldSend lastState currentState now then
    if sent then (Some currentState, true) else (lastState, true)
  else (lastState, false).

(** The body the server receives for a transmitted state. *)
Definition received (state : SystemState) : AlertService.SystemData :=
  {| AlertService.machineId := machineId state;
     AlertService.diskEncryption := Some (diskEncryption state);
     AlertService.osUpdates := Some (osUpdates state);
     AlertService.antivirus := Some (antivirus state);
     AlertService.sleepSettings := Some (sleepSettings state) |}.

End Monitor.
End SystemMonitor.

(* ================================================================== *)
(** * An implementation of the number and regular expression interfaces *)
(* ================================================================== *)

(** Integers as the numbers, printed in decimal: enough to run every
    definition above on concrete inputs. *)
Module Integers.
Import JS.

Inductive intnum :=
| Finite (z : Z)
| PlusInfinity
| NotANumber.

Definition is_digit (c : ascii) : bool :=
  let n := nat_of_ascii c in ((48 <=? n) && (n <=? 57))%nat.

Definition digit_value (c : ascii) : Z := Z.of_nat (nat_of_ascii c - 48).

(** The longest prefix of characters that satisfy [p], and the rest. *)
Fixpoint span (p : ascii -> bool) (s : string) : string * string :=
  match s with
  | String c rest =>
      if p c then let '(taken, remaining) := span p rest in (String c taken, remaining)
      else (EmptyString, s)
  | EmptyString => (EmptyString, EmptyString)
  end.

Fixpoint value_of_digits (acc : Z) (digits : string) : Z :=
  match digits with
  | String c rest => value_of_digits (10 * acc + digit_value c) rest
  | EmptyString => acc
  end.

Definition parse_digits (s : string) : intnum :=
  match fst (span is_digit s) with
  | EmptyString => NotANumber
  | digits => Finite (value_of_digits 0 digits)
  end.

(** An optional sign, then [digits] reads the number. *)
Definition signed (digits : string -> intnum) (s : string) : intnum :=
  match trimStart s with
  | String c rest =>
      if Ascii.eqb c "-" then
        match digits rest with
        | Finite z => Finite (- z)
        | other => other
        end
      else if Ascii.eqb c "+" then digits rest
      else digits (String c rest)
  | EmptyString => NotANumber
  end.

Definition int_parseInt10 (s : string) : intnum := signed parse_digits s.

Definition is_hex_digit (c : ascii) : bool :=
  let n := nat_of_ascii c in
  is_digit c || ((65 <=? n) && (n <=? 70))%nat || ((97 <=? n) && (n <=? 102))%nat.

Definition hex_digit_value (c : ascii) : Z :=
  let n := nat_of_ascii c in
  if is_digit c then Z.of_nat (n - 48)
  else if (n <=? 70)%nat then Z.of_nat (n - 55)
  else Z.of_nat (n - 87).

Fixpoint value_of_hex_digits (acc : Z) (digits : string) : Z :=
  match digits with
  | String c rest => value_of_hex_digits (16 * acc + hex_digit_value c) rest
  | EmptyString => acc
  end.

(** Without a radix a prefix [0x] announces hexadecimal digits. *)
Definition parse_digits_or_hex (s : string) : intnum :=
  match s with
  | String z (String x rest) =>
      if Ascii.eqb z "0" && (Ascii.eqb x "x" || Ascii.eqb x "X") then
        match fst (span is_hex_digit rest) with
        | EmptyString => NotANumber
        | digits => Finite (value_of_hex_digits 0 digits)
        end
      else parse_digits s
  | _ => parse_digits s
  end.

Definition int_parseInt (s : string) : intnum := signed parse_digits_or_hex s.

Definition int_toString (z : Z) : string := NilZero.string_of_int (Z.to_int z).

Definition int_string_gtb (s : string) (k : Z) : bool :=
  match trim s with
  | EmptyString => (0 >? k)%Z
  | text => match NilZero.int_of_string text with
            | Some d => (Z.of_int d >? k)%Z
            | None => false
            end
  end.

Definition intnum_leb (a b : intnum) : bool :=
  match a, b with
  | NotANumber, _ | _, NotANumber => false
  | _, PlusInfinity => true
  | PlusInfinity, Finite _ => false
  | Finite x, Finite y => (x <=? y)%Z
  end.

Definition intnum_eqb (a b : intnum) : bool :=
  match a, b with
  | Finite x, Finite y => (x =? y)%Z
  | PlusInfinity, PlusInfinity => true
  | _, _ => false
  end.

Definition intnum_min (a b : intnum) : intnum :=
  match a, b with
  | NotANumber, _ | _, NotANumber => NotANumber
  | PlusInfinity, other | other, PlusInfinity => other
  | Finite x, Finite y => Finite (Z.min x y)
  end.

(** Division keeps the integer quotients only; the others are left out of
    this implementation as NaN. *)
Definition intnum_div (a b : intnum) : intnum :=
  match a, b with
  | Finite x, Finite y =>
      if (y =? 0)%Z then (if (0 <? x)%Z then PlusInfinity else NotANumber)
      else if (x mod y =? 0)%Z then Finite (x / y) else NotANumber
  | PlusInfinity, Finite y => if (0 <? y)%Z then PlusInfinity else NotANumber
  | Finite _, PlusInfinity => Finite 0
  | _, _ => NotANumber
  end.

Definition intnum_land (a b : intnum) : intnum :=
  match a, b with
  | Finite x, Finite y => Finite (Z.land x y)
  | Finite x, _ | _, Finite x => Finite 0
  | _, _ => Finite 0
  end.

Definition intnum_toString (a : intnum) : string :=
  match a with
  | Finite z => int_toString z
  | PlusInfinity => "Infinity"
  | NotANumber => "NaN"
  end.

Fixpoint hex_of_pos (fuel : nat) (n : Z) (acc : string) : string :=
  match fuel with
  | O => acc
  | S fuel' =>
      let acc' := String (hex_digit (Z.to_nat (n mod 16))) acc in
      if (n / 16 =? 0)%Z then acc' else hex_of_pos fuel' (n / 16) acc'
  end.

Definition intnum_toString16 (a : intnum) : string :=
  match a with
  | Finite z =>
      if (z <? 0)%Z then "-" ++ hex_of_pos (S (Z.to_nat (Z.log2 (- z)))) (- z) ""
      else hex_of_pos (S (Z.to_nat (Z.log2 z))) z ""
  | PlusInfinity => "Infinity"
  | NotANumber => "NaN"
  end.

Definition numbers : Numbers :=
  {| number := Z;
     Number_toString := int_toString;
     number_nonzero := fun z => negb (z =? 0)%Z;
     number_gtb := Z.gtb;
     string_gtb := int_string_gtb;
     jsnum := intnum;
     jsnum_of_Z := Finite;
     Infinity := PlusInfinity;
     parseInt := int_parseInt;
     parseInt10 := int_parseInt10;
     jsnum_truthy := fun a => match a with Finite z => negb (z =? 0)%Z | PlusInfinity => true | NotANumber => false end;
     jsnum_gtb := fun a b => intnum_leb b a && negb (intnum_eqb a b);
     jsnum_leb := intnum_leb;
     jsnum_eqb := intnum_eqb;
     jsnum_min := intnum_min;
     jsnum_div := intnum_div;
     jsnum_land := intnum_land;
     jsnum_toString := intnum_toString;
     jsnum_toString16 := intnum_toString16;
     jsnum_to_json := fun a => match a with Finite z => Some z | _ => None end |}.

(** [word\s+(\d+)]: the first place where [word], white space and digits
    follow one another. *)
Fixpoint match_word_space_digits (word : string) (s : string) : option (list string) :=
  let here :=
    if String.prefix word s then
      let rest := String.substring (String.length word) (String.length s - String.length word) s in
      let '(spaces, rest') := span is_space rest in
      let '(digits, _) := span is_digit rest' in
      match spaces, digits with
      | String _ _, String _ _ => Some [word ++ spaces ++ digits; digits]
      | _, _ => None
      end
    else None in
  match here with
  | Some m => Some m
  | None =>
      match s with
      | String _ rest => match_word_space_digits word rest
      | EmptyString => None
      end
  end.

(** [\d+]: the first run of digits. *)
Fixpoint match_digits (s : string) : option (list string) :=
  match s with
  | String c rest =>
      if is_digit c then Some [fst (span is_digit s)] else match_digits rest
  | EmptyString => None
  end.

Definition regexps : RegExps :=
  {| RegExp_match := fun re s =>
       if re =? String.concat (str backslash) ["sleep"; "s+("; "d+)"]
       then match_word_space_digits "sleep" s
       else if re =? String.concat (str backslash) ["displaysleep"; "s+("; "d+)"]
       then match_word_space_digits "displaysleep" s
       else if re =? String.concat (str backslash) [""; "d+"]
       then match_digits s
       else None |}.

End Integers.

(* ================================================================== *)
(** * Vocabulary of the properties *)
(* ================================================================== *)

Module Vocabulary.
Import JS AlertService.

(** At most one open alert for every machine and alert type. *)
Definition at_most_one_open (t : Alerts) : Prop :=
  forall machineId alertType, (length (open_alerts machineId alertType t) <= 1)%nat.

(** The row [createAlert] appends. *)
Definition new_row (now : Z) (machineId : string) (alertType : AlertType) (sev : Severity)
    (title_ message_ : string) : AlertRecord :=
  {| machine_id := machineId; alert_type := alertType; severity := sev;
     title := title_; message := message_;
     is_resolved := false; created_at := now; resolved_at := None |}.

(** The effect of [createAlertIfNotExists] on the table. *)
Definition create_if_absent (now : Z) (machineId : string) (alertType : AlertType)
    (sev : Severity) (title_ message_ : string) (t : Alerts) : Alerts :=
  match open_alerts machineId alertType t with
  | [] => (t ++ [new_row now machineId alertType sev title_ message_])%list
  | _ :: _ => t
  end.

(** An operation of the engine on the alerts of one machine. *)
Inductive Op :=
| Create (alertType : AlertType) (sev : Severity) (title_ message_ : string)
| Resolve (alertType : AlertType).

Definition op_type (op : Op) : AlertType :=
  match op with
  | Create alertType _ _ _ => alertType
  | Resolve alertType => alertType
  end.

Definition apply_op (now : Z) (machineId : string) (t : Alerts) (op : Op) : Alerts :=
  match op with
  | Create alertType sev title_ message_ =>
      create_if_absent now machineId alertType sev title_ message_ t
  | Resolve alertType => resolve_rows now machineId alertType t
  end.

Definition apply_ops (now : Z) (machineId : string) (ops : list Op) (t : Alerts) : Alerts :=
  fold_left (apply_op now machineId) ops t.

(** An operation that would change nothing. *)
Definition settled (machineId : string) (t : Alerts) (op : Op) : Prop :=
  match op with
  | Create alertType _ _ _ => open_alerts machineId alertType t <> []
  | Resolve alertType => open_alerts machineId alertType t = []
  end.

(** The rows of one machine that are open, whatever their type. *)
Definition machine_open (machineId : string) (t : Alerts) : Alerts :=
  filter (fun r => (machine_id r =? machineId) && negb (is_resolved r)) t.

(** The sum of the weights of a list of alerts. *)
Definition weight_sum (alerts : Alerts) : Z :=
  fold_right (fun alert acc => (severityWeights (severity alert) + acc)%Z) 0%Z alerts.

Section Conditions.
Context {NUM : Numbers}.

(** The condition under which [analyzeSystemData] reaches
    [createAlertIfNotExists] for an alert type. *)
Definition condition_present (data : SystemData) (alertType : AlertType) : bool :=
  match alertType with
  | disk_encryption => disk_not_encrypted (diskEncryption data)
  | os_updates => updates_pending (osUpdates data)
  | antivirus_missing => antivirus_not_installed (antivirus data)
  | antivirus_disabled =>
      negb (antivirus_not_installed (antivirus data)) && antivirus_not_enabled (antivirus data)
  | antivirus_outdated =>
      negb (antivirus_not_installed (antivirus data))
      && negb (antivirus_not_enabled (antivirus data))
      && definitions_outdated (antivirus data)
  | sleep_timeout => sleep_too_long (sleepSettings data)
  end.

(** The condition under which it reaches [resolveAlertByType] for it. *)
Definition resolve_reached (data : SystemData) (alertType : AlertType) : bool :=
  match alertType with
  | disk_encryption => negb (disk_not_encrypted (diskEncryption data))
  | os_updates => negb (updates_pending (osUpdates data))
  | antivirus_missing => negb (antivirus_not_installed (antivirus data))
  | antivirus_disabled =>
      negb (antivirus_not_installed (antivirus data))
      && negb (antivirus_not_enabled (antivirus data))
  | antivirus_outdated =>
      negb (antivirus_not_installed (antivirus data))
      && negb (antivirus_not_enabled (antivirus data))
      && negb (definitions_outdated (antivirus data))
  | sleep_timeout => negb (sleep_too_long (sleepSettings data))
  end.

(** The operations of the four rules, in the order of the calls. *)
Definition disk_ops (m : string) (d : value) : list Op :=
  if disk_not_encrypted d then
    [Create disk_encryption high "Disk Encryption Disabled"
       ("Machine " ++ m ++
        " does not have disk encryption enabled. This poses a significant security risk.")]
  else [Resolve disk_encryption].

Definition updates_ops (m : string) (u : value) : list Op :=
  if updates_pending u then
    [Create os_updates (if gt (get_opt u "daysBehind") 30 then high else medium)
       "OS Updates Required"
       (if truthy (get_opt u "daysBehind")
        then "Machine " ++ m ++ " is " ++ toString (get_opt u "daysBehind")
             ++ " days behind on OS updates."
        else "Machine " ++ m ++ " has pending OS updates.")]
  else [Resolve os_updates].

Definition antivirus_ops (m : string) (a : value) : list Op :=
  if antivirus_not_installed a then
    [Create antivirus_missing high "Antivirus Not Installed"
       ("Machine " ++ m ++ " does not have antivirus software installed.")]
  else if antivirus_not_enabled a then
    [Create antivirus_disabled medium "Antivirus Disabled"
       ("Machine " ++ m ++ " has antivirus software installed but it is not enabled.");
     Resolve antivirus_missing]
  else
    [Resolve antivirus_missing; Resolve antivirus_disabled;
     if definitions_outdated a then
       Create antivirus_outdated medium "Antivirus Definitions Outdated"
         ("Machine " ++ m ++ " has outdated antivirus definitions.")
     else Resolve antivirus_outdated].

Definition sleep_ops (m : string) (s : value) : list Op :=
  if sleep_too_long s then
    [Create sleep_timeout low "Sleep Timeout Too Long"
       ("Machine " ++ m ++ " has sleep timeout set to "
        ++ (if truthy (get_opt s "sleepTimeout") then toString (get_opt s "sleepTimeout")
            else "unknown")
        ++ " minutes. Recommended: ≤10 minutes.")]
  else [Resolve sleep_timeout].

Definition ops_of (data : SystemData) : list Op :=
  (disk_ops (machineId data) (diskEncryption data)
   ++ updates_ops (machineId data) (osUpdates data)
   ++ antivirus_ops (machineId data) (antivirus data)
   ++ sleep_ops (machineId data) (sleepSettings data))%list.

(** The rules after the first, as [analyzeSystemData] would run them on
    their own. *)
Definition later_rules (db : Object) (data : SystemData) : Async unit :=
  try_catch
    (bind (checkOSUpdatesAlert db (machineId data) (osUpdates data)) (fun _ =>
     bind (checkAntivirusAlert db (machineId data) (antivirus data)) (fun _ =>
     checkSleepSettingsAlert db (machineId data) (sleepSettings data))))
    (fun _ => ret tt).

(** The reading of "a failure of the first rule does not keep the later
    rules from running". *)
Definition failure_isolated : Prop :=
  forall (db : Object) (data : SystemData) (t : Alerts) (e : JsError),
    completion (checkDiskEncryptionAlert db (machineId data) (diskEncryption data)) t = Throw e ->
    after (analyzeSystemData db data) t
    = after (later_rules db data)
        (after (checkDiskEncryptionAlert db (machineId data) (diskEncryption data)) t).

(** The alert types of the category an alert type belongs to: the three
    of the antivirus rule, or the type alone. *)
Definition category (alertType : AlertType) : list AlertType :=
  match alertType with
  | antivirus_missing | antivirus_disabled | antivirus_outdated =>
      [antivirus_missing; antivirus_disabled; antivirus_outdated]
  | disk_encryption => [disk_encryption]
  | os_updates => [os_updates]
  | sleep_timeout => [sleep_timeout]
  end.

(** A snapshot is compliant in the category of an alert type when it
    presents none of the conditions of that category. *)
Definition category_compliant (data : SystemData) (alertType : AlertType) : bool :=
  forallb (fun ty => negb (condition_present data ty)) (category alertType).

End Conditions.

(** ** Calls of the service *)


Section Calls.
Context {NUM : Numbers}.




End Calls.

(** ** Calls under way *)







(** A database whose handle fails on the look-up of disk encryption alerts
    and otherwise is the table. *)
Definition busy_handle (now : Z) : Handle :=
  {| handle_get := fun q =>
       match q with
       | SelectOpenAlert _ disk_encryption => throw (DbError "SQLITE_BUSY: database is locked")
       | _ => handle_get (table_handle now) q
       end;
     handle_run := handle_run (table_handle now) |}.

Definition busy_database (now : Z) : Object :=
  [("db", HandleMember (busy_handle now));
   ("createAlert", CreateAlert (Database_createAlert now));
   ("getAlerts", GetAlerts Database_getAlerts)].

(** A row after the resolution of its machine and type. *)
Definition resolve_if_open (now : Z) (r : AlertRecord) : AlertRecord :=
  if is_resolved r then r else resolve_row now r.

(** What may follow a value inside a JSON text: nothing, a comma or a
    closing bracket. *)
Definition closer (r : string) : bool :=
  match r with
  | EmptyString => true
  | String c _ => Ascii.eqb c "," || Ascii.eqb c "]" || Ascii.eqb c "}"
  end.

(** The characters of a printed number, and what the comparison of
    [JSON.stringify] texts needs of [Number::toString]: it prints different
    numbers differently, prints something, and prints only such characters. *)
Definition number_char (c : ascii) : bool :=
  Integers.is_digit c
  || Ascii.eqb c "-" || Ascii.eqb c "+" || Ascii.eqb c "." || Ascii.eqb c "e".

(** The first character of a printed value. *)
Definition starter (c : ascii) : bool :=
  number_char c || Ascii.eqb c "n" || Ascii.eqb c "t" || Ascii.eqb c "f"
  || Ascii.eqb c quote_char || Ascii.eqb c "[" || Ascii.eqb c "{".

Fixpoint all_chars (p : ascii -> bool) (s : string) : bool :=
  match s with
  | EmptyString => true
  | String c rest => p c && all_chars p rest
  end.

Class NumberPrinting (NUM : Numbers) : Prop := {
  toString_injective : forall a b : number, Number_toString a = Number_toString b -> a = b;
  toString_nonempty : forall a : number, Number_toString a <> "";
  toString_chars : forall a : number, all_chars number_char (Number_toString a) = true
}.

End Vocabulary.

(* ================================================================== *)
(** * Concrete inputs *)
(* ================================================================== *)

Module Examples.
Import JS AlertService Vocabulary.

(** The snapshot of the scenario of section 8: disk not encrypted, updates
    current, antivirus installed, enabled and current, sleep after 5 minutes. *)
Definition scenario : @SystemData Integers.numbers :=
  {| machineId := "m1";
     diskEncryption := Some (@JObj Integers.numbers [("encrypted", JBool false)]);
     osUpdates := Some (@JObj Integers.numbers [("upToDate", JBool true)]);
     antivirus := Some (@JObj Integers.numbers
                          [("installed", JBool true); ("enabled", JBool true);
                           ("definitionsOutdated", JBool false)]);
     sleepSettings := Some (@JObj Integers.numbers [("sleepTimeout", @JNum Integers.numbers 5%Z)]) |}.

(** A snapshot with an unencrypted disk and pending updates. *)
Definition unpatched : @SystemData Integers.numbers :=
  {| machineId := "m1";
     diskEncryption := Some (@JObj Integers.numbers [("encrypted", JBool false)]);
     osUpdates := Some (@JObj Integers.numbers [("upToDate", JBool false)]);
     antivirus := Some (@JObj Integers.numbers
                          [("installed", JBool true); ("enabled", JBool true);
                           ("definitionsOutdated", JBool false)]);
     sleepSettings := Some (@JObj Integers.numbers [("sleepTimeout", @JNum Integers.numbers 5%Z)]) |}.

(** A snapshot whose antivirus is not installed, and the open
    [antivirus_disabled] alert an earlier analysis of that machine left. *)
Definition uninstalled : @SystemData Integers.numbers :=
  {| machineId := "m1";
     diskEncryption := Some (@JObj Integers.numbers [("encrypted", JBool true)]);
     osUpdates := Some (@JObj Integers.numbers [("upToDate", JBool true)]);
     antivirus := Some (@JObj Integers.numbers [("installed", JBool false)]);
     sleepSettings := Some (@JObj Integers.numbers [("sleepTimeout", @JNum Integers.numbers 5%Z)]) |}.

Definition disabled_alert : AlertRecord :=
  new_row 1 "m1" antivirus_disabled medium "Antivirus Disabled"
    "Machine m1 has antivirus software installed but it is not enabled.".

(** An antivirus payload that is installed and enabled with outdated
    definitions. *)
Definition outdated : @value Integers.numbers :=
  Some (JObj [("installed", JBool true); ("enabled", JBool true);
              ("definitionsOutdated", JBool true)]).

(** The table of the scenario of section 8 after its analysis: one open
    alert of high severity. *)
Definition one_high_alert : Alerts :=
  [new_row 1 "m1" disk_encryption high "Disk Encryption Disabled"
     "Machine m1 does not have disk encryption enabled. This poses a significant security risk."].

(** A state of the machine [m1] assembled at an instant, with one payload
    for the disk and fixed others. *)
Definition state_at (instant : Z) (disk : @json Integers.numbers)
  : @SystemMonitor.SystemState Integers.numbers :=
  {| SystemMonitor.machineId := "m1";
     SystemMonitor.platform := "linux";
     SystemMonitor.hostname := "host";
     SystemMonitor.timestamp := instant;
     SystemMonitor.osInfo := JNull;
     SystemMonitor.diskEncryption := disk;
     SystemMonitor.osUpdates := JObj [("updatesAvailable", JBool false)];
     SystemMonitor.antivirus := JObj [("installed", JBool true); ("running", JBool true)];
     SystemMonitor.sleepSettings := JObj [("sleepTime", @JNum Integers.numbers 5%Z)];
     SystemMonitor.systemInfo := JNull |}.

(** A Mac whose disk is encrypted and whose sleep timer is 5 minutes. *)
Definition compliant_mac : SystemChecks.Host :=
  {| SystemChecks.os_platform := "darwin";
     SystemChecks.exec := fun command =>
       if command =? "fdesetup status" then SystemChecks.Ok "FileVault is On."
       else if command =? "softwareupdate -l" then SystemChecks.Ok "No new software available."
       else if String.prefix "pmset" command then SystemChecks.Ok " sleep 5"
       else SystemChecks.Error "command not found";
     SystemChecks.isoNow := "2026-01-01T00:00:00.000Z" |}.


(** A sweep on 2026-01-31 at 12:00:00 UTC, whose cutoff with 30 days is
    2026-01-01 at 12:00:00, and an alert resolved on 2026-01-01 at
    12:01:00, one minute after the cutoff. *)
Definition sweep_instant : Z := 1769860800000.

Definition resolved_after_cutoff : AlertRecord :=
  {| machine_id := "m1"; alert_type := disk_encryption; severity := high;
     title := "Disk Encryption Disabled"; message := "text";
     is_resolved := true; created_at := 1767182400000;
     resolved_at := Some 1767268860000%Z |}.

Definition mac_os : @SystemMonitor.Os Integers.numbers :=
  {| SystemMonitor.os_hostname := "mac";
     SystemMonitor.os_info := JNull;
     SystemMonitor.os_systemInfo := JNull |}.

End Examples.

(** Splits a goal along the platform tests and the results of the commands
    a check of the probe runs. *)
Ltac probe_cases :=
  repeat match goal with
         | |- context [match SystemChecks.exec ?h ?c with _ => _ end] =>
             destruct (SystemChecks.exec h c)
         | |- context [if ?b then _ else _] => destruct b
         | |- context [match ?l with nil => _ | cons _ _ => _ end] => destruct l
         | |- context [let (_, _) := ?p in _] => destruct p
         end.
(* ================================================================== *)
(** * Further functions of the sources *)
(* ================================================================== *)

(** ** AlertService.getAlertSummary *)

Module AlertSummary.
Import AlertService.

(** The row of the summary statement.  [SUM] over no row is NULL, which is
    [None]. *)
Record Summary := {
  total_alerts : nat;
  with_critical : option nat;
  with_high : option nat;
  with_medium : option nat;
  with_low : option nat;
  last_24h : option nat
}.

Definition Severity_eqb (a b : Severity) : bool :=
  match a, b with
  | critical, critical | high, high | medium, medium | low, low => true
  | _, _ => false
  end.

(** [SUM(CASE WHEN condition THEN 1 ELSE 0 END)] over the selected rows. *)
Definition sum_case (condition : AlertRecord -> bool) (rows : Alerts) : option nat :=
  match rows with
  | [] => None
  | _ :: _ => Some (length (filter condition rows))
  end.

(** The row the handle [db.db] answers to the statement of
    [getAlertSummary], read on the table at the instant [now];
    [datetime('now', '-24 hours')] is the instant 24 hours earlier. *)
Definition summary_row (now : Z) (t : Alerts) : Summary :=
  let selected := filter (fun r => negb (is_resolved r)) t in
  {| total_alerts := length selected;
     with_critical := sum_case (fun r => Severity_eqb (severity r) critical) selected;
     with_high := sum_case (fun r => Severity_eqb (severity r) high) selected;
     with_medium := sum_case (fun r => Severity_eqb (severity r) medium) selected;
     with_low := sum_case (fun r => Severity_eqb (severity r) low) selected;
     last_24h :=
       sum_case (fun r => (now - 24 * 60 * 60 * 1000 <? created_at r)%Z) selected |}.

(** [getAlertSummary]: [this.db.db.get(statement, callback)]. *)
Definition getAlertSummary (db : Object) (now : Z) : Async Summary :=
  match property db "db" with
  | Some (HandleMember _) => fun t => (Normal (summary_row now t), t)
  | Some _ => throw (TypeError "this.db.db.get is not a function")
  | None => throw (TypeError "Cannot read properties of undefined (reading 'get')")
  end.

End AlertSummary.

(** ** SystemMonitor.getCronPattern *)

Module Cron.

(** [getCronPattern(minutes)] for a whole number of minutes;
    [Math.floor(minutes / 60)] is the quotient. *)
Definition getCronPattern (minutes : Z) : string :=
  if (60 <=? minutes)%Z then
    let hours := (minutes / 60)%Z in
    "0 */" ++ Integers.int_toString hours ++ " * * *"
  else
    "*/" ++ Integers.int_toString minutes ++ " * * * *".

End Cron.

(** ** More comparisons of JavaScript values *)

Module JSCompare.
Import JS.

(** [n < k] and [n <= k] on numbers and on the numbers strings convert to. *)
Class Comparisons (NUM : Numbers) : Type := {
  number_ltb : number -> Z -> bool;
  number_leb : number -> Z -> bool;
  string_ltb : string -> Z -> bool;
  string_leb : string -> Z -> bool
}.

Section Compare.
Context {NUM : Numbers} {CMP : Comparisons NUM}.

(** [v < k] for an integer literal [k]. *)
Definition lt (v : value) (k : Z) : bool :=
  match v with
  | None => false
  | Some JNull => (0 <? k)%Z
  | Some (JBool b) => ((if b then 1 else 0) <? k)%Z
  | Some (JNum n) => number_ltb n k
  | Some (JStr s) => string_ltb s k
  | Some (JArr items) => string_ltb (json_toString (JArr items)) k
  | Some (JObj m) => string_ltb (json_toString (JObj m)) k
  end.

(** [v <= k]. *)
Definition le (v : value) (k : Z) : bool :=
  match v with
  | None => false
  | Some JNull => (0 <=? k)%Z
  | Some (JBool b) => ((if b then 1 else 0) <=? k)%Z
  | Some (JNum n) => number_leb n k
  | Some (JStr s) => string_leb s k
  | Some (JArr items) => string_leb (json_toString (JArr items)) k
  | Some (JObj m) => string_leb (json_toString (JObj m)) k
  end.

(** [typeof v === 'string']. *)
Definition is_string (v : value) : bool :=
  match v with
  | Some (JStr _) => true
  | _ => false
  end.

End Compare.

(** The comparisons of the integers. *)
Definition integer_comparisons : Comparisons Integers.numbers :=
  {| number_ltb := (Z.ltb : @number Integers.numbers -> Z -> bool);
     number_leb := (Z.leb : @number Integers.numbers -> Z -> bool);
     string_ltb := fun s k =>
       match trim s with
       | EmptyString => (0 <? k)%Z
       | text => match NilZero.int_of_string text with
                 | Some d => (Z.of_int d <? k)%Z
                 | None => false
                 end
       end;
     string_leb := fun s k =>
       match trim s with
       | EmptyString => (0 <=? k)%Z
       | text => match NilZero.int_of_string text with
                 | Some d => (Z.of_int d <=? k)%Z
                 | None => false
                 end
       end |}.

End JSCompare.

(** ** ConfigManager.validateConfig (client/src/utils/config.js) *)

Module ConfigManager.
Import JS JSCompare.

Section Config.
Context {NUM : Numbers} {CMP : Comparisons NUM}.

(** [validateConfig(config)] for a [config] that is an object. *)
Definition validateConfig (config : json) : list string :=
  let errors := [] in
  let errors :=
    if negb (truthy (get config "apiUrl")) || negb (is_string (get config "apiUrl"))
    then (errors ++ ["API URL is required and must be a valid URL"])%list
    else errors in
  let errors :=
    if negb (truthy (get config "apiKey")) || negb (is_string (get config "apiKey"))
    then (errors ++ ["API Key is required"])%list
    else errors in
  let errors :=
    if lt (get config "checkInterval") 5 || gt (get config "checkInterval") 1440
    then (errors ++ ["Check interval must be between 5 and 1440 minutes"])%list
    else errors in
  errors.

End Config.
End ConfigManager.

(** ** The dashboard (Server/src/routes/dashboard.js) *)

Module Dashboard.
Import JS JSCompare.

Section Health.
Context {NUM : Numbers} {CMP : Comparisons NUM}.

(** What the routes read of a stored report. *)
Record Report := {
  diskEncryption : value;
  osUpdates : value;
  antivirus : value;
  sleepSettings : value
}.

(** The default of the schema of SystemReport for a payload that is
    undefined: the empty object. *)
Definition or_default (payload : value) : value :=
  match payload with
  | None => Some (JObj [])
  | Some _ => payload
  end.

(** The report [SystemReport.create] stores for a submitted snapshot. *)
Definition stored (data : AlertService.SystemData) : Report :=
  {| diskEncryption := or_default (AlertService.diskEncryption data);
     osUpdates := or_default (AlertService.osUpdates data);
     antivirus := or_default (AlertService.antivirus data);
     sleepSettings := or_default (AlertService.sleepSettings data) |}.

(** The [issues] of GET /dashboard/machines for a machine with a report. *)
Definition issues_of (latestReport : Report) : list string :=
  let issues := [] in
  let issues :=
    if negb (truthy (get_opt (diskEncryption latestReport) "encrypted"))
    then (issues ++ ["Disk not encrypted"])%list else issues in
  let issues :=
    if negb (truthy (get_opt (osUpdates latestReport) "upToDate"))
    then (issues ++ ["OS updates pending"])%list else issues in
  let issues :=
    if negb (truthy (get_opt (antivirus latestReport) "installed"))
       || negb (truthy (get_opt (antivirus latestReport) "enabled"))
    then (issues ++ ["Antivirus inactive"])%list else issues in
  let issues :=
    if gt (get_opt (sleepSettings latestReport) "sleepTimeout") 10
    then (issues ++ ["Sleep timeout too long"])%list else issues in
  issues.

(** [healthStatus] and [issues] of a machine; [latestReport] is null when
    the machine has no report. *)
Definition health (latestReport : option Report) : string * list string :=
  match latestReport with
  | None => ("unknown", [])
  | Some report =>
      let issues := issues_of report in
      ((if (length issues =? 0)%nat then "healthy"
        else if (length issues <=? 2)%nat then "warning"
        else "critical"),
       issues)
  end.

(** The counters of GET /dashboard/overview. *)
Record HealthStats := {
  encrypted : nat;
  unencrypted : nat;
  upToDate : nat;
  outdated : nat;
  antivirusActive : nat;
  antivirusInactive : nat;
  sleepCompliant : nat;
  sleepNonCompliant : nat
}.

Definition no_stats : HealthStats :=
  {| encrypted := 0; unencrypted := 0; upToDate := 0; outdated := 0;
     antivirusActive := 0; antivirusInactive := 0;
     sleepCompliant := 0; sleepNonCompliant := 0 |}.

(** The body of the [forEach] over the latest reports. *)
Definition count_report (healthStats : HealthStats) (report : Report) : HealthStats :=
  let disk := truthy (get_opt (diskEncryption report) "encrypted") in
  let updates := truthy (get_opt (osUpdates report) "upToDate") in
  let virus := truthy (get_opt (antivirus report) "installed")
               && truthy (get_opt (antivirus report) "enabled") in
  let sleep := le (get_opt (sleepSettings report) "sleepTimeout") 10 in
  {| encrypted := if disk then S (encrypted healthStats) else encrypted healthStats;
     unencrypted := if disk then unencrypted healthStats else S (unencrypted healthStats);
     upToDate := if updates then S (upToDate healthStats) else upToDate healthStats;
     outdated := if updates then outdated healthStats else S (outdated healthStats);
     antivirusActive :=
       if virus then S (antivirusActive healthStats) else antivirusActive healthStats;
     antivirusInactive :=
       if virus then antivirusInactive healthStats else S (antivirusInactive healthStats);
     sleepCompliant :=
       if sleep then S (sleepCompliant healthStats) else sleepCompliant healthStats;
     sleepNonCompliant :=
       if sleep then sleepNonCompliant healthStats else S (sleepNonCompliant healthStats) |}.

Definition healthStats_of (healthReports : list Report) : HealthStats :=
  fold_left count_report healthReports no_stats.

End Health.
End Dashboard.

(** ** The API key middleware (Server/src/middleware/auth.js) *)

Module Auth.

(** The two headers the middleware reads. *)
Record Headers := {
  x_api_key : option string;
  authorization : option string
}.

(** [s.replace(pattern, replacement)] for a pattern that is a string: the
    first occurrence is replaced. *)
Fixpoint replace (pattern replacement s : string) : string :=
  if String.prefix pattern s then
    replacement ++ String.substring (String.length pattern)
                     (String.length s - String.length pattern) s
  else
    match s with
    | EmptyString => EmptyString
    | String c rest => String c (replace pattern replacement rest)
    end.

(** [req.headers['x-api-key'] || req.headers['authorization']?.replace('Bearer ', '')]. *)
Definition presented_key (headers : Headers) : option string :=
  match x_api_key headers with
  | Some key => if key =? "" then option_map (replace "Bearer " "") (authorization headers)
                else Some key
  | None => option_map (replace "Bearer " "") (authorization headers)
  end.

(** [req.apiKey]. *)
Record ApiKey := {
  key_id : option Z;
  key_name : string;
  permissions : list string
}.

(** A row of [api_keys]; [row_expires_at] is the instant stored, NULL when
    the key does not expire. *)
Record KeyRecord := {
  row_id : Z;
  row_name : string;
  row_permissions : option string;
  row_expires_at : option Z
}.

(** What a middleware does with a request: it answers, or it calls [next]
    with [req.apiKey] set. *)
Inductive Outcome :=
| Respond (status : nat) (error : string) (message : option string)
| Next (apiKey : ApiKey).

Section Middleware.

(** [this.db], [process.env.API_KEY], [bcrypt.hashSync(key, 10)], the answer
    of a handle to the look-up of a key hash among the active keys, and
    [JSON.parse] on the permissions of a row. *)
Variable db : Object.
Variable API_KEY : option string.
Variable hashSync : string -> string.
Variable find_active : string -> Completion (option KeyRecord).
Variable JSON_parse : string -> Completion (list string).

(** [db.db.get(...)] inside the promise: a TypeError when [db.db] is
    undefined or has no such method. *)
Definition get_key (hashedKey : string) : Completion (option KeyRecord) :=
  match property db "db" with
  | Some (HandleMember _) => find_active hashedKey
  | Some _ => Throw (TypeError "db.db.get is not a function")
  | None => Throw (TypeError "Cannot read properties of undefined (reading 'get')")
  end.

Definition authentication_failed : Outcome :=
  Respond 500 "Authentication failed" (Some "Internal server error during authentication").

(** [authenticateKey(db)] on a request at the instant [now]. *)
Definition authenticateKey (now : Z) (headers : Headers) : Outcome :=
  match presented_key headers with
  | None =>
      Respond 401 "API key required"
        (Some "Please provide an API key in X-API-Key header or Authorization header")
  | Some apiKey =>
      if apiKey =? "" then
        Respond 401 "API key required"
          (Some "Please provide an API key in X-API-Key header or Authorization header")
      else if match API_KEY with Some k => apiKey =? k | None => false end then
        Next {| key_id := None; key_name := "default"; permissions := ["read"; "write"] |}
      else
        match get_key (hashSync apiKey) with
        | Throw _ => authentication_failed
        | Normal None =>
            Respond 401 "Invalid API key"
              (Some "The provided API key is invalid or has been revoked")
        | Normal (Some keyRecord) =>
            if match row_expires_at keyRecord with
               | Some expires => (expires <? now)%Z
               | None => false
               end
            then Respond 401 "API key expired" (Some "The provided API key has expired")
            else
              match JSON_parse (match row_permissions keyRecord with
                                | Some text => if text =? "" then "[" ++ JS.quote "read" ++ "]"
                                               else text
                                | None => "[" ++ JS.quote "read" ++ "]"
                                end) with
              | Throw _ => authentication_failed
              | Normal perms =>
                  Next {| key_id := Some (row_id keyRecord);
                          key_name := row_name keyRecord;
                          permissions := perms |}
              end
        end
  end.

(** [requirePermission(permission)]; [req.apiKey] is undefined when no
    middleware has set it. *)
Definition requirePermission (permission : string) (apiKey : option ApiKey) : Outcome :=
  match apiKey with
  | None => Respond 401 "Authentication required" None
  | Some key =>
      if existsb (String.eqb permission) (permissions key) then Next key
      else Respond 403 "Insufficient permissions"
             (Some ("This operation requires '" ++ permission ++ "' permission"))
  end.

(** A route of api.js: [router.use(authenticateKey(models))], then the
    [requirePermission] of the route. *)
Definition guarded (permission : string) (now : Z) (headers : Headers) : Outcome :=
  match authenticateKey now headers with
  | Next key => requirePermission permission (Some key)
  | answered => answered
  end.

End Middleware.
End Auth.

(** ** More vocabulary *)

Module MoreVocabulary.
Import JS AlertService Vocabulary.

(** A row after an analysis of machine [m] at the instant [now]: as it
    was, or resolved if it was an open row of the machine. *)
Definition kept_or_resolved (now : Z) (m : string) (r r' : AlertRecord) : Prop :=
  r' = r \/ (machine_id r = m /\ is_resolved r = false /\ r' = resolve_row now r).

(** The rows of one machine. *)
Definition of_machine (m : string) (t : Alerts) : Alerts :=
  filter (fun r => machine_id r =? m) t.

(** Descending [created_at]. *)
Definition newer_first (a b : AlertRecord) : Prop := (created_at b <= created_at a)%Z.

(** The rows [getAlerts] selects before it sorts and cuts. *)
Definition selected (machineId : string) (resolved : bool) (t : Alerts) : Alerts :=
  filter (fun r => Bool.eqb (is_resolved r) resolved &&
                   (if machineId =? "" then true else machine_id r =? machineId)) t.

(** The highest severity the rules give an alert of a type. *)
Definition highest_severity (alertType : AlertType) : Severity :=
  match alertType with
  | disk_encryption | os_updates | antivirus_missing => high
  | antivirus_disabled | antivirus_outdated => medium
  | sleep_timeout => low
  end.

(** A row no heavier than the rules make rows of its type. *)
Definition engine_row (r : AlertRecord) : Prop :=
  (severityWeights (severity r) <= severityWeights (highest_severity (alert_type r)))%Z.

(** A table as analyses alone leave it. *)
Definition engine_table (t : Alerts) : Prop :=
  at_most_one_open t /\ Forall engine_row t.

(** What an operation makes of the rows of its machine and type. *)
Definition rows_after_op (now : Z) (m : string) (op : Op) (rows : Alerts) : Alerts :=
  match op with
  | Create alertType sev title_ message_ =>
      if existsb (fun r => negb (is_resolved r)) rows then rows
      else (rows ++ [new_row now m alertType sev title_ message_])%list
  | Resolve _ => map (resolve_if_open now) rows
  end.

(** The rows an operation may insert. *)
Definition creates (op : Op) : nat :=
  match op with
  | Create _ _ _ _ => 1
  | Resolve _ => 0
  end.

(** The commands of the probe that the properties name. *)
Definition apt_command : string := "apt list --upgradable 2>/dev/null | wc -l".

Definition yum_command : string :=
  "yum check-update | grep -c " ++ str quote_char ++ "^[^L]" ++ str quote_char ++ " || true".

Definition zypper_command : string := "zypper list-updates | wc -l".

Definition pmset_command : string :=
  "pmset -g | grep -E " ++ str quote_char ++ "(sleep|displaysleep)" ++ str quote_char.

(** The platforms the probe knows. *)
Definition supported (platform : string) : bool :=
  (platform =? "darwin") || (platform =? "win32") || (platform =? "linux").

Definition is_ok {A} (r : SystemChecks.Result A) : bool :=
  match r with
  | SystemChecks.Ok _ => true
  | SystemChecks.Error _ => false
  end.

(** The four payloads of a state, in the order of [keys]. *)
Definition payloads {NUM : Numbers} (state : SystemMonitor.SystemState) : list json :=
  [SystemMonitor.diskEncryption state; SystemMonitor.osUpdates state;
   SystemMonitor.antivirus state; SystemMonitor.sleepSettings state].

End MoreVocabulary.

(** ** The error middleware (Server/src/middleware/errorHandler.js) *)

Module ErrorHandler.

(** What [res.status(...).json(...)] sends. *)
Record Response := {
  statusCode : nat;
  error : string;
  stack : option string
}.

(** [notFound]: the status it sets, and the message of the error it hands
    to [next]. *)
Definition notFound (originalUrl : string) : nat * string :=
  (404%nat, "Not found - " ++ originalUrl).

(** [errorHandler(err, req, res, next)] for an error with a message and a
    stack; [res_statusCode] is [res.statusCode] as the handler finds it
    and [NODE_ENV] is [process.env.NODE_ENV]. *)
Definition errorHandler (NODE_ENV : option string) (message stack_ : string)
    (res_statusCode : nat) : Response :=
  let statusCode := if negb (res_statusCode =? 200)%nat then res_statusCode else 500%nat in
  {| statusCode := statusCode;
     error := message;
     stack := match NODE_ENV with
              | Some env => if env =? "development" then Some stack_ else None
              | None => None
              end |}.

End ErrorHandler.

(** ** The login of the dashboard (Server/src/routes/auth.js) *)

Module Login.

(** [process.env.ADMIN_USERNAME] and [process.env.ADMIN_PASSWORD]. *)
Record Env := {
  ADMIN_USERNAME : option string;
  ADMIN_PASSWORD : option string
}.

(** [process.env.NAME || fallback]. *)
Definition env_or (variable : option string) (fallback : string) : string :=
  match variable with
  | Some text => if text =? "" then fallback else text
  | None => fallback
  end.

(** The payload [generateToken] signs. *)
Record Payload := {
  payload_username : string;
  role : string;
  permissions : list string
}.

(** What the handler answers: 401 'Invalid credentials', or the token of a
    payload. *)
Inductive Answer :=
| InvalidCredentials
| Token (payload : Payload).

Section Route.

(** [bcrypt.compareSync(password, hash)]. *)
Variable compareSync : string -> string -> bool.

(** The handler of POST /auth/login for a body whose [username] and
    [password] are strings; [admin] is the [passwordHash] of the user
    [User.findOne({ username })] finds, if it finds one. *)
Definition login (env : Env) (admin : option string) (username password : string) : Answer :=
  let validPassword :=
    match admin with
    | Some passwordHash => passwordHash
    | None => env_or (ADMIN_PASSWORD env) "admin123"
    end in
  if match admin with None => true | Some _ => false end
     && negb (username =? env_or (ADMIN_USERNAME env) "admin")
  then InvalidCredentials
  else
    let passwordMatch :=
      match admin with
      | Some passwordHash => compareSync password passwordHash
      | None => password =? validPassword
      end in
    if negb passwordMatch then InvalidCredentials
    else Token {| payload_username := username;
                  role := "admin";
                  permissions := ["read"; "write"; "admin"] |}.

End Route.
End Login.

(** ** More concrete inputs *)

Module MoreExamples.
Import JS AlertService Vocabulary.

(** A snapshot 45 days behind on updates, and the open updates alert of
    medium severity an earlier analysis left. *)
Definition far_behind : @SystemData Integers.numbers :=
  {| machineId := "m1";
     diskEncryption := Some (@JObj Integers.numbers [("encrypted", JBool true)]);
     osUpdates := Some (@JObj Integers.numbers
                          [("upToDate", JBool false);
                           ("daysBehind", @JNum Integers.numbers 45%Z)]);
     antivirus := Some (@JObj Integers.numbers
                          [("installed", JBool true); ("enabled", JBool true);
                           ("definitionsOutdated", JBool false)]);
     sleepSettings := Some (@JObj Integers.numbers [("sleepTimeout", @JNum Integers.numbers 5%Z)]) |}.

Definition pending_alert : AlertRecord :=
  new_row 1 "m1" os_updates medium "OS Updates Required" "Machine m1 has pending OS updates.".

(** The scenario of section 8 once the disk is encrypted. *)
Definition compliant : @SystemData Integers.numbers :=
  {| machineId := "m1";
     diskEncryption := Some (@JObj Integers.numbers [("encrypted", JBool true)]);
     osUpdates := Some (@JObj Integers.numbers [("upToDate", JBool true)]);
     antivirus := Some (@JObj Integers.numbers
                          [("installed", JBool true); ("enabled", JBool true);
                           ("definitionsOutdated", JBool false)]);
     sleepSettings := Some (@JObj Integers.numbers [("sleepTimeout", @JNum Integers.numbers 5%Z)]) |}.

(** A Linux host on which only [which rkhunter] succeeds, and a host of a
    platform the probe does not know. *)
Definition rkhunter_host : SystemChecks.Host :=
  {| SystemChecks.os_platform := "linux";
     SystemChecks.exec := fun command =>
       if command =? "which rkhunter" then SystemChecks.Ok "/usr/bin/rkhunter"
       else SystemChecks.Error "command not found";
     SystemChecks.isoNow := "2026-01-01T00:00:00.000Z" |}.

Definition freebsd_host : SystemChecks.Host :=
  {| SystemChecks.os_platform := "freebsd";
     SystemChecks.exec := fun _ => SystemChecks.Error "command not found";
     SystemChecks.isoNow := "2026-01-01T00:00:00.000Z" |}.


End MoreExamples.

(* ================================================================== *)
(** * Properties of the alert table *)
(* ================================================================== *)

Module TableFacts.
Import JS AlertService Vocabulary.

Lemma AlertType_eqb_eq (a b : AlertType) : AlertType_eqb a b = true <-> a = b.
Proof. destruct a, b; simpl; split; intro H; congruence. Qed.

Lemma AlertType_eqb_refl (a : AlertType) : AlertType_eqb a a = true.
Proof. now destruct a. Qed.

Lemma AlertType_eqb_neq (a b : AlertType) : a <> b -> AlertType_eqb a b = false.
Proof.
  intro H. destruct (AlertType_eqb a b) eqn:E; [|reflexivity].
  apply AlertType_eqb_eq in E. contradiction.
Qed.

Lemma same_alert_spec m ty r :
  same_alert m ty r = true <-> machine_id r = m /\ alert_type r = ty.
Proof.
  unfold same_alert. rewrite andb_true_iff, String.eqb_eq, AlertType_eqb_eq. tauto.
Qed.

(** Two keys that are both open on one row are the same key. *)
Lemma is_open_key m ty m' ty' r :
  is_open m ty r = true -> is_open m' ty' r = true -> m = m' /\ ty = ty'.
Proof.
  unfold is_open. rewrite !andb_true_iff, !same_alert_spec.
  intros [[<- <-] _] [[<- <-] _]. auto.
Qed.

Lemma is_open_other m ty m' ty' r :
  (m', ty') <> (m, ty) -> is_open m ty r = true -> is_open m' ty' r = false.
Proof.
  intros Hne Ho. destruct (is_open m' ty' r) eqn:E; [|reflexivity].
  destruct (@is_open_key m ty m' ty' r Ho E) as [-> ->]. now elim Hne.
Qed.

Lemma is_open_resolve_row now m ty r : is_open m ty (resolve_row now r) = false.
Proof. unfold is_open. simpl. apply andb_false_r. Qed.

Lemma is_open_new_row now m ty sev ti msg m' ty' :
  is_open m' ty' (new_row now m ty sev ti msg) = (m =? m') && AlertType_eqb ty ty'.
Proof. unfold is_open, same_alert. simpl. apply andb_true_r. Qed.

Lemma key_dec (m m' : string) (ty ty' : AlertType) :
  {(m', ty') = (m, ty)} + {(m', ty') <> (m, ty)}.
Proof.
  destruct (String.string_dec m' m) as [->|Hm].
  - destruct (AlertType_eqb ty' ty) eqn:E.
    + apply AlertType_eqb_eq in E. subst. now left.
    + right. intros [= ->]. now rewrite AlertType_eqb_refl in E.
  - right. intros [= -> _]. now elim Hm.
Qed.

(** ** Open alerts after the two operations *)

Lemma open_after_resolve_same now m ty t :
  open_alerts m ty (resolve_rows now m ty t) = [].
Proof.
  unfold open_alerts, resolve_rows. induction t as [|r t IH]; simpl; [reflexivity|].
  destruct (is_open m ty r) eqn:E.
  - now rewrite is_open_resolve_row.
  - now rewrite E.
Qed.

Lemma open_after_resolve_other now m ty m' ty' t :
  (m', ty') <> (m, ty) ->
  open_alerts m' ty' (resolve_rows now m ty t) = open_alerts m' ty' t.
Proof.
  intro Hne. unfold open_alerts, resolve_rows. induction t as [|r t IH]; simpl; [reflexivity|].
  destruct (is_open m ty r) eqn:E.
  - rewrite is_open_resolve_row, (@is_open_other m ty m' ty' r Hne E). exact IH.
  - now rewrite IH.
Qed.

Lemma resolve_nothing now m ty t :
  open_alerts m ty t = [] -> resolve_rows now m ty t = t.
Proof.
  unfold open_alerts, resolve_rows. induction t as [|r t IH]; simpl; [reflexivity|].
  destruct (is_open m ty r) eqn:E; [discriminate|].
  intro H. now rewrite IH.
Qed.

Lemma open_after_create_same now m ty sev ti msg t :
  open_alerts m ty (create_if_absent now m ty sev ti msg t)
  = match open_alerts m ty t with
    | [] => [new_row now m ty sev ti msg]
    | found => found
    end.
Proof.
  unfold create_if_absent. destruct (open_alerts m ty t) eqn:E; [|exact E].
  unfold open_alerts in *. rewrite filter_app, E. simpl.
  now rewrite is_open_new_row, String.eqb_refl, AlertType_eqb_refl.
Qed.

Lemma open_after_create_other now m ty sev ti msg m' ty' t :
  (m', ty') <> (m, ty) ->
  open_alerts m' ty' (create_if_absent now m ty sev ti msg t) = open_alerts m' ty' t.
Proof.
  intro Hne. unfold create_if_absent. destruct (open_alerts m ty t); [|reflexivity].
  unfold open_alerts. rewrite filter_app. simpl. rewrite is_open_new_row.
  destruct ((m =? m') && AlertType_eqb ty ty') eqn:E.
  - apply andb_true_iff in E. destruct E as [E1 E2].
    apply String.eqb_eq in E1. apply AlertType_eqb_eq in E2. subst. now elim Hne.
  - apply app_nil_r.
Qed.

Lemma create_nothing now m ty sev ti msg t :
  open_alerts m ty t <> [] -> create_if_absent now m ty sev ti msg t = t.
Proof. unfold create_if_absent. destruct (open_alerts m ty t); congruence. Qed.

(** ** The service on the database *)

Section OnDatabase.
Context {NUM : Numbers}.
Variable now : Z.

Lemma createAlertIfNotExists_database m ty sev ti msg t :
  createAlertIfNotExists (database now) m ty sev ti msg t
  = (Normal tt, create_if_absent now m ty sev ti msg t).
Proof.
  unfold createAlertIfNotExists, create_if_absent, bind, db_get, db_createAlert. simpl.
  destruct (open_alerts m ty t); reflexivity.
Qed.

Lemma resolveAlertByType_database m ty t :
  resolveAlertByType (database now) m ty t
  = (Normal (length (open_alerts m ty t)), resolve_rows now m ty t).
Proof. reflexivity. Qed.

Lemma resolve_then_ret m ty t :
  bind (resolveAlertByType (database now) m ty) (fun _ => ret tt) t
  = (Normal tt, resolve_rows now m ty t).
Proof. reflexivity. Qed.

Lemma checkDiskEncryptionAlert_database m d t :
  checkDiskEncryptionAlert (database now) m d t = (Normal tt, apply_ops now m (disk_ops m d) t).
Proof.
  unfold checkDiskEncryptionAlert, disk_ops. destruct (disk_not_encrypted d).
  - apply createAlertIfNotExists_database.
  - reflexivity.
Qed.

Lemma checkOSUpdatesAlert_database m u t :
  checkOSUpdatesAlert (database now) m u t = (Normal tt, apply_ops now m (updates_ops m u) t).
Proof.
  unfold checkOSUpdatesAlert, updates_ops. destruct (updates_pending u).
  - apply createAlertIfNotExists_database.
  - reflexivity.
Qed.

Lemma checkAntivirusAlert_database m a t :
  checkAntivirusAlert (database now) m a t = (Normal tt, apply_ops now m (antivirus_ops m a) t).
Proof.
  unfold checkAntivirusAlert, antivirus_ops.
  destruct (antivirus_not_installed a); [apply createAlertIfNotExists_database|].
  destruct (antivirus_not_enabled a).
  - unfold bind at 1. rewrite createAlertIfNotExists_database. reflexivity.
  - unfold bind at 1. rewrite resolveAlertByType_database.
    unfold bind at 1. rewrite resolveAlertByType_database.
    destruct (definitions_outdated a).
    + rewrite createAlertIfNotExists_database. reflexivity.
    + reflexivity.
Qed.

Lemma checkSleepSettingsAlert_database m s t :
  checkSleepSettingsAlert (database now) m s t = (Normal tt, apply_ops now m (sleep_ops m s) t).
Proof.
  unfold checkSleepSettingsAlert, sleep_ops. destruct (sleep_too_long s).
  - apply createAlertIfNotExists_database.
  - reflexivity.
Qed.

Lemma analyzeSystemData_database data t :
  analyzeSystemData (database now) data t
  = (Normal tt, apply_ops now (machineId data) (ops_of data) t).
Proof.
  unfold analyzeSystemData, try_catch, ops_of, apply_ops.
  unfold bind at 1. rewrite checkDiskEncryptionAlert_database.
  unfold bind at 1. rewrite checkOSUpdatesAlert_database.
  unfold bind at 1. rewrite checkAntivirusAlert_database.
  rewrite checkSleepSettingsAlert_database.
  now rewrite !fold_left_app.
Qed.

End OnDatabase.

End TableFacts.

(* ================================================================== *)
(** * The operations of one analysis *)
(* ================================================================== *)

Module OpFacts.
Import JS AlertService Vocabulary TableFacts.

Lemma other_key (m : string) (ty ty' : AlertType) : ty' <> ty -> (m, ty') <> (m, ty).
Proof. intros H [= E]. contradiction. Qed.

Lemma settled_after_apply now m t op : settled m (apply_op now m t op) op.
Proof.
  destruct op as [ty sev ti msg|ty]; simpl.
  - rewrite open_after_create_same. destruct (open_alerts m ty t); discriminate.
  - apply open_after_resolve_same.
Qed.


Lemma open_after_other_op now m t op ty :
  op_type op <> ty -> open_alerts m ty (apply_op now m t op) = open_alerts m ty t.
Proof.
  intro Hne. destruct op as [ty' sev ti msg|ty']; simpl in *.
  - apply open_after_create_other, other_key. congruence.
  - apply open_after_resolve_other, other_key. congruence.
Qed.

Lemma open_after_other_ops now m ops ty : forall t,
  ~ In ty (map op_type ops) ->
  open_alerts m ty (apply_ops now m ops t) = open_alerts m ty t.
Proof.
  induction ops as [|op ops IH]; intros t Hnot; [reflexivity|].
  simpl in *. unfold apply_ops in *. simpl. rewrite IH by tauto.
  apply open_after_other_op. tauto.
Qed.

Lemma settled_after_others now m ops op t :
  ~ In (op_type op) (map op_type ops) ->
  settled m t op -> settled m (apply_ops now m ops t) op.
Proof.
  intros Hnot Hs. destruct op as [ty sev ti msg|ty]; simpl in *;
    now rewrite open_after_other_ops.
Qed.

Lemma all_settled now m ops : forall t,
  NoDup (map op_type ops) -> Forall (settled m (apply_ops now m ops t)) ops.
Proof.
  induction ops as [|op ops IH]; intros t Hnd; [constructor|].
  simpl in Hnd. inversion Hnd as [|ty tys Hnot Hnd']; subst.
  constructor.
  - change (apply_ops now m (op :: ops) t) with (apply_ops now m ops (apply_op now m t op)).
    apply settled_after_others; [assumption|apply settled_after_apply].
  - apply IH. assumption.
Qed.


(** ** The invariant under the operations *)

Lemma at_most_one_after_op now m t op :
  at_most_one_open t -> at_most_one_open (apply_op now m t op).
Proof.
  intros Hinv m' ty'. destruct op as [ty sev ti msg|ty]; simpl.
  - destruct (key_dec m m' ty ty') as [[= -> ->]|Hne].
    + rewrite open_after_create_same. specialize (Hinv m ty).
      destruct (open_alerts m ty t); simpl in *; lia.
    + rewrite open_after_create_other by assumption. apply Hinv.
  - destruct (key_dec m m' ty ty') as [[= -> ->]|Hne].
    + rewrite open_after_resolve_same. simpl. lia.
    + rewrite open_after_resolve_other by assumption. apply Hinv.
Qed.

Lemma at_most_one_after_ops now m ops : forall t,
  at_most_one_open t -> at_most_one_open (apply_ops now m ops t).
Proof.
  induction ops as [|op ops IH]; intros t Hinv; [assumption|].
  apply IH, at_most_one_after_op, Hinv.
Qed.

Lemma filter_length_le {A} (p : A -> bool) (l : list A) :
  (length (filter p l) <= length l)%nat.
Proof. induction l as [|x l IH]; simpl; [lia|]. destruct (p x); simpl; lia. Qed.



(** ** The operations of a snapshot *)

Section Snapshot.
Context {NUM : Numbers}.

Lemma ops_of_NoDup (data : SystemData) : NoDup (map op_type (ops_of data)).
Proof.
  unfold ops_of, disk_ops, updates_ops, antivirus_ops, sleep_ops.
  destruct (disk_not_encrypted (diskEncryption data)), (updates_pending (osUpdates data)),
    (antivirus_not_installed (antivirus data)), (antivirus_not_enabled (antivirus data)),
    (definitions_outdated (antivirus data)), (sleep_too_long (sleepSettings data));
    simpl; repeat constructor; simpl; intuition discriminate.
Qed.

Lemma condition_creates (data : SystemData) (ty : AlertType) :
  condition_present data ty = true ->
  exists sev ti msg, In (Create ty sev ti msg) (ops_of data).
Proof.
  unfold condition_present, ops_of, disk_ops, updates_ops, antivirus_ops, sleep_ops.
  destruct ty;
    destruct (disk_not_encrypted (diskEncryption data)), (updates_pending (osUpdates data)),
    (antivirus_not_installed (antivirus data)), (antivirus_not_enabled (antivirus data)),
    (definitions_outdated (antivirus data)), (sleep_too_long (sleepSettings data));
    simpl; intro H; try discriminate H; do 3 eexists; simpl; tauto.
Qed.

Lemma reached_resolves (data : SystemData) (ty : AlertType) :
  resolve_reached data ty = true -> In (Resolve ty) (ops_of data).
Proof.
  unfold resolve_reached, ops_of, disk_ops, updates_ops, antivirus_ops, sleep_ops.
  destruct ty;
    destruct (disk_not_encrypted (diskEncryption data)), (updates_pending (osUpdates data)),
    (antivirus_not_installed (antivirus data)), (antivirus_not_enabled (antivirus data)),
    (definitions_outdated (antivirus data)), (sleep_too_long (sleepSettings data));
    simpl; intro H; try discriminate H; tauto.
Qed.

End Snapshot.
End OpFacts.

(* ================================================================== *)
(** * JSON.stringify tells values apart *)
(* ================================================================== *)

Module StringifyFacts.
Import JS Vocabulary.

Lemma append_assoc (a b c : string) : (a ++ b) ++ c = a ++ (b ++ c).
Proof. induction a as [|x a IH]; simpl; [reflexivity|]. now rewrite IH. Qed.

Lemma read_escape_char (c : ascii) (r : string) :
  read_escaped (escape_char c ++ r) = Some (c, r).
Proof.
  destruct c as [[] [] [] [] [] [] [] []]; reflexivity.
Qed.

Lemma read_quote (r : string) : read_escaped (String quote_char r) = None.
Proof. reflexivity. Qed.

Lemma escape_prefix_free s1 : forall s2 r1 r2,
  escape s1 ++ String quote_char r1 = escape s2 ++ String quote_char r2 ->
  s1 = s2 /\ r1 = r2.
Proof.
  induction s1 as [|c1 s1 IH]; intros [|c2 s2] r1 r2 H; simpl in H.
  - injection H as ->. auto.
  - rewrite append_assoc in H. apply (f_equal read_escaped) in H.
    rewrite read_escape_char, read_quote in H. discriminate.
  - rewrite append_assoc in H. apply (f_equal read_escaped) in H.
    rewrite read_escape_char, read_quote in H. discriminate.
  - rewrite !append_assoc in H. apply (f_equal read_escaped) in H.
    rewrite !read_escape_char in H. injection H as -> H.
    destruct (IH _ _ _ H) as [-> ->]. auto.
Qed.

Lemma quote_prefix_free s1 s2 r1 r2 :
  quote s1 ++ r1 = quote s2 ++ r2 -> s1 = s2 /\ r1 = r2.
Proof.
  unfold quote. simpl. rewrite !append_assoc. simpl. intros [= H].
  now apply escape_prefix_free.
Qed.


Lemma closer_not_number_char c r : closer (String c r) = true -> number_char c = false.
Proof.
  simpl. rewrite !orb_true_iff, !Ascii.eqb_eq. intros [[->| ->]| ->]; reflexivity.
Qed.

Lemma token_prefix_free a : forall b r1 r2,
  all_chars number_char a = true -> all_chars number_char b = true ->
  closer r1 = true -> closer r2 = true ->
  a ++ r1 = b ++ r2 -> a = b /\ r1 = r2.
Proof.
  induction a as [|x a IH]; intros [|y b] r1 r2 Ha Hb H1 H2 H; simpl in *.
  - auto.
  - subst r1. apply andb_true_iff in Hb. destruct Hb as [Hy _].
    apply closer_not_number_char in H1. congruence.
  - subst r2. apply andb_true_iff in Ha. destruct Ha as [Hx _].
    apply closer_not_number_char in H2. congruence.
  - injection H as -> H.
    apply andb_true_iff in Ha. apply andb_true_iff in Hb.
    destruct (IH b r1 r2) as [-> ->]; tauto.
Qed.


Section Printing.
Context {NUM : Numbers} {PRINT : NumberPrinting NUM}.

Lemma json_nested_ind (P : json -> Prop) :
  P JNull -> (forall b, P (JBool b)) -> (forall n, P (JNum n)) -> (forall s, P (JStr s)) ->
  (forall items, Forall P items -> P (JArr items)) ->
  (forall members, Forall (fun m => P (snd m)) members -> P (JObj members)) ->
  forall v, P v.
Proof.
  intros Hnull Hbool Hnum Hstr Harr Hobj. fix go 1.
  intros [ |b|n|s|items|members].
  - exact Hnull.
  - apply Hbool.
  - apply Hnum.
  - apply Hstr.
  - apply Harr. induction items as [|x items IH]; constructor; [apply go|exact IH].
  - apply Hobj. induction members as [|[k x] members IH]; constructor; [apply go|exact IH].
Qed.

Lemma number_head (n : number) :
  exists c s, Number_toString n = String c s /\ number_char c = true.
Proof.
  pose proof (toString_nonempty n) as Hne. pose proof (toString_chars n) as Hch.
  destruct (Number_toString n) as [|c s]; [contradiction|].
  exists c, s. simpl in Hch. apply andb_true_iff in Hch. tauto.
Qed.

Lemma stringify_head (v : json) :
  exists c s, stringify v = String c s /\ starter c = true.
Proof.
  destruct v as [ |[]|n|s|items|members]; simpl;
    try (do 2 eexists; split; [reflexivity|reflexivity]).
  destruct (number_head n) as (c & s & -> & Hc). exists c, s. split; [reflexivity|].
  unfold starter. now rewrite Hc.
Qed.

(** The texts of two lists of elements, each followed by the closing
    bracket and anything: equal texts come from equal lists. *)
Lemma comma_separated_prefix_free {A} (f : A -> string) (close : ascii) (l1 : list A) :
  close = "]"%char \/ close = "}"%char ->
  (forall y, exists c s, f y = String c s /\ starter c = true) ->
  Forall (fun x => forall y r1 r2, closer r1 = true -> closer r2 = true ->
                                   f x ++ r1 = f y ++ r2 -> x = y /\ r1 = r2) l1 ->
  forall l2 r1 r2,
    comma_separated f (str close) l1 ++ r1 = comma_separated f (str close) l2 ++ r2 ->
    l1 = l2 /\ r1 = r2.
Proof.
  intros Hbracket Hhead Hall.
  assert (Hclose : starter close = false) by (destruct Hbracket; subst; reflexivity).
  assert (Hcloser : closer (str close) = true) by (destruct Hbracket; subst; reflexivity).
  set (tail := fold_right (fun y acc => "," ++ f y ++ acc) (str close)).
  assert (Htail_closer : forall l r, closer (tail l ++ r) = true).
  { intros [|y l] r; [exact Hcloser|reflexivity]. }
  assert (Htails : forall l1', Forall (fun x => forall y r1 r2, closer r1 = true ->
                       closer r2 = true -> f x ++ r1 = f y ++ r2 -> x = y /\ r1 = r2) l1' ->
                     forall l2 r1 r2, tail l1' ++ r1 = tail l2 ++ r2 -> l1' = l2 /\ r1 = r2).
  { induction 1 as [|x l1' Hx _ IH]; intros [|y l2] r1 r2 H; simpl in H.
    - injection H as ->. auto.
    - injection H as H _. destruct Hbracket; subst; discriminate.
    - injection H as H _. destruct Hbracket; subst; discriminate.
    - injection H as H. rewrite !append_assoc in H.
      destruct (Hx y _ _ (Htail_closer _ _) (Htail_closer _ _) H) as [-> H'].
      destruct (IH _ _ _ H') as [-> ->]. auto. }
  intros l2 r1 r2 H.
  destruct Hall as [|x l1 Hx Hall], l2 as [|y l2]; simpl in H.
  - injection H as ->. auto.
  - destruct (Hhead y) as (c & s & Hy & Hc). rewrite Hy in H. simpl in H.
    injection H as -> _. congruence.
  - destruct (Hhead x) as (c & s & Hx' & Hc). rewrite Hx' in H. simpl in H.
    injection H as <- _. congruence.
  - fold tail in H. rewrite !append_assoc in H.
    destruct (Hx y _ _ (Htail_closer _ _) (Htail_closer _ _) H) as [-> H'].
    destruct (Htails _ Hall _ _ _ H') as [-> ->]. auto.
Qed.

Lemma stringify_prefix_free (v1 : json) : forall v2 r1 r2,
  closer r1 = true -> closer r2 = true ->
  stringify v1 ++ r1 = stringify v2 ++ r2 -> v1 = v2 /\ r1 = r2.
Proof.
  induction v1 as [ |b1|n1|s1|items1 IH|members1 IH] using json_nested_ind;
    intros v2 r1 r2 H1 H2 H.
  - destruct v2 as [ |[]|n2|s2|items2|members2]; simpl in H; try discriminate H.
    + injection H as ->. auto.
    + destruct (number_head n2) as (c & s & E & Hc). rewrite E in H. simpl in H.
      injection H as <- _. discriminate Hc.
  - destruct b1, v2 as [ |[]|n2|s2|items2|members2]; simpl in H; try discriminate H;
      try (injection H as ->; auto);
      destruct (number_head n2) as (c & s & E & Hc); rewrite E in H; simpl in H;
      injection H as <- _; discriminate Hc.
  - destruct (number_head n1) as (c & s & E & Hc).
    destruct v2 as [ |[]|n2|s2|items2|members2]; simpl in H;
      try (rewrite E in H; simpl in H; injection H as -> _; discriminate Hc).
    destruct (@token_prefix_free _ _ _ _ (toString_chars n1) (toString_chars n2) H1 H2 H)
      as [Hn ->].
    apply toString_injective in Hn. subst. auto.
  - destruct v2 as [ |[]|n2|s2|items2|members2]; simpl in H;
      try (unfold quote in H; simpl in H; discriminate H).
    + destruct (number_head n2) as (c & s & E & Hc). rewrite E in H.
      unfold quote in H. simpl in H. injection H as <- _. discriminate Hc.
    + destruct (@quote_prefix_free _ _ _ _ H) as [-> ->]. auto.
  - destruct v2 as [ |[]|n2|s2|items2|members2]; simpl in H; try discriminate H.
    + destruct (number_head n2) as (c & s & E & Hc). rewrite E in H. simpl in H.
      injection H as <- _. discriminate Hc.
    + injection H as H.
      destruct (@comma_separated_prefix_free _ stringify "]" items1
                  (or_introl eq_refl) stringify_head IH _ _ _ H) as [-> ->]. auto.
  - destruct v2 as [ |[]|n2|s2|items2|members2]; simpl in H; try discriminate H.
    + destruct (number_head n2) as (c & s & E & Hc). rewrite E in H. simpl in H.
      injection H as <- _. discriminate Hc.
    + injection H as H.
      assert (Hhead : forall m : string * json,
                 exists c s, quote (fst m) ++ ":" ++ stringify (snd m) = String c s
                             /\ starter c = true).
      { intro m. do 2 eexists. split; reflexivity. }
      assert (Hall : Forall (fun x : string * json =>
                 forall y r1 r2, closer r1 = true -> closer r2 = true ->
                   (quote (fst x) ++ ":" ++ stringify (snd x)) ++ r1
                   = (quote (fst y) ++ ":" ++ stringify (snd y)) ++ r2 ->
                   x = y /\ r1 = r2) members1).
      { clear H. induction IH as [|[k x] members1 Hx _ IHm]; constructor; [|exact IHm].
        intros [k' y] q1 q2 Hq1 Hq2 Hq. cbn [fst snd] in *.
        rewrite !append_assoc in Hq.
        destruct (@quote_prefix_free _ _ _ _ Hq) as [-> Hq'].
        injection Hq' as Hq'.
        destruct (Hx _ _ _ Hq1 Hq2 Hq') as [-> ->]. auto. }
      destruct (@comma_separated_prefix_free _ _ "}" members1
                  (or_intror eq_refl) Hhead Hall _ _ _ H) as [-> ->]. auto.
Qed.

(** [JSON.stringify] prints two values alike only when they are the same
    value. *)
Lemma stringify_injective (v1 v2 : json) : stringify v1 = stringify v2 -> v1 = v2.
Proof.
  intro H.
  assert (H' : stringify v1 ++ "" = stringify v2 ++ "") by now rewrite H.
  now destruct (@stringify_prefix_free v1 v2 "" "" eq_refl eq_refl H').
Qed.

End Printing.
End StringifyFacts.

(** ** The decimal printing of integers *)

Module IntegerPrinting.
Import JS Vocabulary.

Lemma uint_chars (d : Decimal.uint) :
  all_chars number_char (NilEmpty.string_of_uint d) = true.
Proof. induction d; simpl; auto. Qed.

Lemma int_toString_chars (z : Z) : all_chars number_char (Integers.int_toString z) = true.
Proof.
  unfold Integers.int_toString.
  destruct (Z.to_int z) as [d|d]; simpl.
  - destruct d; try reflexivity; apply (uint_chars (_ d)).
  - destruct d; try reflexivity; apply (uint_chars (_ d)).
Qed.

Lemma int_toString_nonempty (z : Z) : Integers.int_toString z <> "".
Proof.
  unfold Integers.int_toString.
  destruct (Z.to_int z) as [d|d]; simpl; [|discriminate].
  destruct d; discriminate.
Qed.

Lemma to_int_proper (z : Z) :
  Z.to_int z <> Decimal.Pos Decimal.Nil /\ Z.to_int z <> Decimal.Neg Decimal.Nil.
Proof.
  destruct z as [|p|p]; simpl; split; try discriminate;
    intros [= H]; now apply (Unsigned.to_uint_nonnil p).
Qed.

Lemma int_toString_injective (a b : Z) :
  Integers.int_toString a = Integers.int_toString b -> a = b.
Proof.
  unfold Integers.int_toString. intro H.
  apply (f_equal NilZero.int_of_string) in H.
  destruct (to_int_proper a) as [Ha1 Ha2], (to_int_proper b) as [Hb1 Hb2].
  rewrite !NilZero.isi in H by assumption.
  injection H as H. now apply DecimalZ.to_int_inj.
Qed.

Lemma integers_print : NumberPrinting Integers.numbers.
Proof.
  constructor.
  - exact int_toString_injective.
  - exact int_toString_nonempty.
  - exact int_toString_chars.
Defined.

End IntegerPrinting.

(* ================================================================== *)
(** * The claims *)
(* ================================================================== *)

Module Claims.
Import JS AlertService Vocabulary Examples TableFacts OpFacts.


Lemma empty_at_most_one_open : at_most_one_open [].
Proof. intros m ty. simpl. apply Nat.le_0_l. Qed.

Section AlertEngine.
Context {NUM : Numbers}.


End AlertEngine.




(** C3, as stated, fails: when the look-up of the disk encryption rule
    fails on an empty table, the analysis of [unpatched] leaves the table
    empty, while the later rules, had they run, would have raised the
    updates alert. *)
Lemma failure_not_isolated : ~ @failure_isolated Integers.numbers.
Proof.
  intro H.
  specialize (H (busy_database 1) unpatched [] (DbError "SQLITE_BUSY: database is locked") eq_refl).
  vm_compute in H. discriminate H.
Qed.

Section Failures.
Context {NUM : Numbers}.
Variable db : Object.
Variable data : SystemData.

(** C3, amended.  [analyzeSystemData] never rejects: a failure inside a
    rule is caught.  The rules run in the order disk encryption, updates,
    antivirus, sleep, and the first rule that fails ends the analysis: the
    table is left as that rule left it and no later rule runs. *)
Theorem analysis_stops_at_first_failure (t : Alerts) :
  let disk := checkDiskEncryptionAlert db (machineId data) (diskEncryption data) in
  let updates := checkOSUpdatesAlert db (machineId data) (osUpdates data) in
  let virus := checkAntivirusAlert db (machineId data) (antivirus data) in
  let sleep := checkSleepSettingsAlert db (machineId data) (sleepSettings data) in
  let t1 := after disk t in
  let t2 := after updates t1 in
  let t3 := after virus t2 in
  completion (analyzeSystemData db data) t = Normal tt /\
  (forall e, completion disk t = Throw e -> after (analyzeSystemData db data) t = t1) /\
  (forall e, completion disk t = Normal tt -> completion updates t1 = Throw e ->
             after (analyzeSystemData db data) t = t2) /\
  (forall e, completion disk t = Normal tt -> completion updates t1 = Normal tt ->
             completion virus t2 = Throw e ->
             after (analyzeSystemData db data) t = t3) /\
  (completion disk t = Normal tt -> completion updates t1 = Normal tt ->
   completion virus t2 = Normal tt ->
   after (analyzeSystemData db data) t = after sleep t3).
Proof.
  cbv zeta. unfold analyzeSystemData, try_catch, bind, completion, after, ret.
  destruct (checkDiskEncryptionAlert db (machineId data) (diskEncryption data) t)
    as [[[]|e1] t1]; simpl.
  2:{ repeat split; intros; try reflexivity; discriminate. }
  destruct (checkOSUpdatesAlert db (machineId data) (osUpdates data) t1)
    as [[[]|e2] t2]; simpl.
  2:{ repeat split; intros; try reflexivity; discriminate. }
  destruct (checkAntivirusAlert db (machineId data) (antivirus data) t2)
    as [[[]|e3] t3]; simpl.
  2:{ repeat split; intros; try reflexivity; discriminate. }
  destruct (checkSleepSettingsAlert db (machineId data) (sleepSettings data) t3)
    as [[[]|e4] t4]; simpl; repeat split; intros; try reflexivity; discriminate.
Qed.

End Failures.

Section Wiring.
Context {NUM : Numbers}.

(** C9.  The object api.js gives to the AlertService has none of the
    members the service uses; with it every [createAlertIfNotExists] and
    [resolveAlertByType] rejects, [analyzeSystemData] returns without
    changing the alerts, and [getMachineRiskScore] rejects. *)
Theorem models_provide_no_store :
  property models "db" = None /\
  property models "createAlert" = None /\
  property models "getAlerts" = None /\
  (forall m ty sev ti msg t,
      createAlertIfNotExists models m ty sev ti msg t
      = (Throw (TypeError "Cannot read properties of undefined (reading 'get')"), t)) /\
  (forall m ty t,
      resolveAlertByType models m ty t
      = (Throw (TypeError "Cannot read properties of undefined (reading 'run')"), t)) /\
  (forall data t, analyzeSystemData models data t = (Normal tt, t)) /\
  (forall m t,
      getMachineRiskScore models m t
      = (Throw (TypeError "this.db.getAlerts is not a function"), t)).
Proof.
  repeat split.
  intros data t. unfold analyzeSystemData, try_catch, bind.
  unfold checkDiskEncryptionAlert.
  destruct (disk_not_encrypted (diskEncryption data)); reflexivity.
Qed.

(** C8.  The rule for sleep settings on a payload that is the error marker:
    the test [sleepSettings.sleepTimeout > 10] is false on the missing
    field, so the rule resolves the open sleep alerts of the machine and
    raises none.  The same happens for every truthy payload without the
    field; the alert with the text "unknown" is raised only when the whole
    payload is missing. *)
Theorem error_marker_resolves_sleep_alert (now : Z) (m text : string) (t : Alerts) :
  let marker := Some (JObj [("error", JBool true); ("message", JStr text)]) in
  sleep_too_long marker = false /\
  checkSleepSettingsAlert (database now) m marker t
  = (Normal tt, resolve_rows now m sleep_timeout t) /\
  open_alerts m sleep_timeout (after (checkSleepSettingsAlert (database now) m marker) t) = [] /\
  (forall payload,
      truthy (Some payload) = true -> get payload "sleepTimeout" = None ->
      checkSleepSettingsAlert (database now) m (Some payload) t
      = (Normal tt, resolve_rows now m sleep_timeout t)) /\
  checkSleepSettingsAlert (database now) m None t
  = (Normal tt,
     create_if_absent now m sleep_timeout low "Sleep Timeout Too Long"
       ("Machine " ++ m ++ " has sleep timeout set to unknown minutes. Recommended: ≤10 minutes.")
       t).
Proof.
  cbv zeta. split; [reflexivity|]. split; [reflexivity|]. split; [|split].
  - unfold after. change (checkSleepSettingsAlert (database now) m
                            (Some (JObj [("error", JBool true); ("message", JStr text)])) t)
      with (Normal tt, resolve_rows now m sleep_timeout t).
    apply open_after_resolve_same.
  - intros payload Htruthy Hmissing.
    rewrite checkSleepSettingsAlert_database. unfold sleep_ops, sleep_too_long.
    rewrite Htruthy.
    assert (Hget : get_opt (Some payload) "sleepTimeout" = None).
    { destruct payload; try reflexivity. exact Hmissing. }
    rewrite Hget. reflexivity.
  - rewrite checkSleepSettingsAlert_database. reflexivity.
Qed.

End Wiring.

Section Rules.
Context {NUM : Numbers}.

(** C6.  The antivirus rule.  Not installed: it raises a high
    [antivirus_missing] alert (unless one is open) and changes no row.
    Installed and not enabled: it raises a medium [antivirus_disabled]
    alert, then resolves [antivirus_missing].  Installed and enabled: it
    resolves [antivirus_missing], then [antivirus_disabled], then raises a
    medium [antivirus_outdated] alert or resolves it, as
    [definitionsOutdated] tells.  On a table with at most one open alert
    for every machine and type, a payload that is installed, enabled and
    outdated leaves exactly one open [antivirus_outdated] alert and no open
    [antivirus_missing] or [antivirus_disabled] alert. *)
Theorem antivirus_ordered_evaluation (now : Z) (m : string) (a : value) (t : Alerts) :
  let raise ty sev ti msg := create_if_absent now m ty sev ti msg in
  let run := checkAntivirusAlert (database now) m a in
  (antivirus_not_installed a = true ->
     run t = (Normal tt,
              raise antivirus_missing high "Antivirus Not Installed"
                ("Machine " ++ m ++ " does not have antivirus software installed.") t)
     /\ exists added, after run t = (t ++ added)%list) /\
  (antivirus_not_installed a = false -> antivirus_not_enabled a = true ->
     run t = (Normal tt,
              resolve_rows now m antivirus_missing
                (raise antivirus_disabled medium "Antivirus Disabled"
                   ("Machine " ++ m ++ " has antivirus software installed but it is not enabled.")
                   t))) /\
  (antivirus_not_installed a = false -> antivirus_not_enabled a = false ->
     run t = (Normal tt,
              (if definitions_outdated a
               then raise antivirus_outdated medium "Antivirus Definitions Outdated"
                      ("Machine " ++ m ++ " has outdated antivirus definitions.")
               else resolve_rows now m antivirus_outdated)
                (resolve_rows now m antivirus_disabled
                   (resolve_rows now m antivirus_missing t)))) /\
  (at_most_one_open t ->
   antivirus_not_installed a = false -> antivirus_not_enabled a = false ->
   definitions_outdated a = true ->
     length (open_alerts m antivirus_outdated (after run t)) = 1%nat /\
     open_alerts m antivirus_missing (after run t) = [] /\
     open_alerts m antivirus_disabled (after run t) = []).
Proof.
  cbv zeta. unfold after. rewrite checkAntivirusAlert_database. unfold antivirus_ops.
  split; [|split; [|split]].
  - intros ->. split; [reflexivity|]. simpl. unfold create_if_absent.
    destruct (open_alerts m antivirus_missing t).
    + eexists. reflexivity.
    + exists []. now rewrite app_nil_r.
  - intros -> ->. reflexivity.
  - intros -> ->. destruct (definitions_outdated a); reflexivity.
  - intros Hinv -> -> ->. simpl.
    set (t2 := resolve_rows now m antivirus_disabled (resolve_rows now m antivirus_missing t)).
    assert (Hinv2 : at_most_one_open t2).
    { apply (@at_most_one_after_op now m _ (Resolve antivirus_disabled)).
      apply (@at_most_one_after_op now m _ (Resolve antivirus_missing)). exact Hinv. }
    repeat split.
    + rewrite open_after_create_same. specialize (Hinv2 m antivirus_outdated).
      destruct (open_alerts m antivirus_outdated t2) as [|r [|r' rest]]; simpl in *;
        [reflexivity|reflexivity|lia].
    + rewrite open_after_create_other by (apply other_key; discriminate).
      unfold t2. rewrite open_after_resolve_other by (apply other_key; discriminate).
      apply open_after_resolve_same.
    + rewrite open_after_create_other by (apply other_key; discriminate).
      apply open_after_resolve_same.
Qed.

(** ** The rows of one machine and type under an analysis *)


Lemma same_alert_resolve_row now m ty r :
  same_alert m ty (resolve_row now r) = same_alert m ty r.
Proof. reflexivity. Qed.

Lemma rows_after_resolve now m ty t :
  filter (same_alert m ty) (resolve_rows now m ty t)
  = map (resolve_if_open now) (filter (same_alert m ty) t).
Proof.
  unfold resolve_rows, resolve_if_open, is_open.
  induction t as [|r t IH]; simpl; [reflexivity|].
  destruct (same_alert m ty r) eqn:E; simpl.
  - destruct (is_resolved r) eqn:R; simpl.
    + rewrite E. simpl. now rewrite IH.
    + rewrite same_alert_resolve_row, E. simpl. now rewrite IH.
  - rewrite E. exact IH.
Qed.

Lemma rows_after_other_resolve now m ty ty' t :
  ty' <> ty ->
  filter (same_alert m ty) (resolve_rows now m ty' t) = filter (same_alert m ty) t.
Proof.
  intro Hne. unfold resolve_rows. induction t as [|r t IH]; simpl; [reflexivity|].
  destruct (is_open m ty' r) eqn:O.
  - assert (same_alert m ty (resolve_row now r) = false) as ->.
    { unfold is_open in O. apply andb_true_iff in O. destruct O as [S _].
      apply same_alert_spec in S. destruct S as [_ S].
      unfold same_alert. simpl. rewrite S, (AlertType_eqb_neq Hne). apply andb_false_r. }
    assert (same_alert m ty r = false) as ->.
    { unfold is_open in O. apply andb_true_iff in O. destruct O as [S _].
      apply same_alert_spec in S. destruct S as [_ S].
      unfold same_alert. rewrite S, (AlertType_eqb_neq Hne). apply andb_false_r. }
    exact IH.
  - now rewrite IH.
Qed.

Lemma rows_after_other_create now m ty ty' sev ti msg t :
  ty' <> ty ->
  filter (same_alert m ty) (create_if_absent now m ty' sev ti msg t)
  = filter (same_alert m ty) t.
Proof.
  intro Hne. unfold create_if_absent. destruct (open_alerts m ty' t); [|reflexivity].
  rewrite filter_app. simpl. unfold same_alert at 2. simpl.
  rewrite (AlertType_eqb_neq Hne), andb_false_r. apply app_nil_r.
Qed.

Lemma rows_after_other_ops now m ty ops : forall t,
  ~ In ty (map op_type ops) ->
  filter (same_alert m ty) (apply_ops now m ops t) = filter (same_alert m ty) t.
Proof.
  induction ops as [|op ops IH]; intros t Hnot; [reflexivity|].
  simpl in Hnot. change (apply_ops now m (op :: ops) t)
    with (apply_ops now m ops (apply_op now m t op)).
  rewrite IH by tauto.
  destruct op as [ty' sev ti msg|ty']; simpl in *.
  - apply rows_after_other_create. intuition congruence.
  - apply rows_after_other_resolve. intuition congruence.
Qed.

Lemma rows_after_ops now m ty ops : forall t,
  NoDup (map op_type ops) -> In (Resolve ty) ops ->
  filter (same_alert m ty) (apply_ops now m ops t)
  = map (resolve_if_open now) (filter (same_alert m ty) t).
Proof.
  induction ops as [|op ops IH]; intros t Hnd Hin; [contradiction|].
  simpl in Hnd. inversion Hnd as [|x xs Hnot Hnd']; subst.
  change (apply_ops now m (op :: ops) t) with (apply_ops now m ops (apply_op now m t op)).
  destruct Hin as [->|Hin].
  - simpl in *. rewrite rows_after_other_ops by assumption. apply rows_after_resolve.
  - rewrite IH by assumption.
    assert (Hne : op_type op <> ty).
    { intro E. apply Hnot. rewrite E. now apply (in_map op_type _ _ Hin). }
    f_equal. destruct op as [ty' sev ti msg|ty']; simpl in *.
    + now apply rows_after_other_create.
    + now apply rows_after_other_resolve.
Qed.

Lemma compliant_reached (data : SystemData) (ty : AlertType) :
  category_compliant data ty = true ->
  resolve_reached data ty = true /\ condition_present data ty = false.
Proof.
  unfold category_compliant, category, condition_present, resolve_reached.
  destruct ty; cbn [forallb];
    destruct (disk_not_encrypted (diskEncryption data)), (updates_pending (osUpdates data)),
      (antivirus_not_installed (antivirus data)), (antivirus_not_enabled (antivirus data)),
      (definitions_outdated (antivirus data)), (sleep_too_long (sleepSettings data));
    cbn [negb andb]; intro H; try discriminate H; split; reflexivity.
Qed.

(** C7.  Resolution on the transition to compliance.  When a snapshot is
    compliant in the category of an alert type (it presents none of the
    conditions of the category: for the three antivirus types, it is
    installed and enabled with current definitions), its analysis resolves
    every open row of the machine and type, with [resolved_at] the
    current instant, leaves the rows of the machine and type that were
    resolved as they are, and leaves no row of them open; in particular
    the open alert that the analysis of an earlier snapshot with the
    condition has left is resolved.  The same holds wherever the analysis
    reaches the resolution of the type, which for disk encryption,
    updates, sleep and missing antivirus is wherever their condition is
    absent.  [resolveAlertByType] answers the number of rows it changed,
    and changes nothing where no row of the machine and type is open. *)
Theorem resolved_on_compliance (now : Z) (data : SystemData) (t : Alerts) (ty : AlertType) :
  (category_compliant data ty = true ->
     condition_present data ty = false /\
     filter (same_alert (machineId data) ty) (after (analyzeSystemData (database now) data) t)
     = map (fun r => if is_resolved r then r else resolve_row now r)
           (filter (same_alert (machineId data) ty) t) /\
     open_alerts (machineId data) ty (after (analyzeSystemData (database now) data) t) = []) /\
  (forall (earlier : Z) (previous : SystemData),
     machineId previous = machineId data ->
     condition_present previous ty = true ->
     category_compliant data ty = true ->
     let before := after (analyzeSystemData (database earlier) previous) t in
     let t' := after (analyzeSystemData (database now) data) before in
     open_alerts (machineId data) ty before <> [] /\
     open_alerts (machineId data) ty t' = [] /\
     (forall r, In r (open_alerts (machineId data) ty before) ->
                In (resolve_row now r) t' /\
                is_resolved (resolve_row now r) = true /\
                resolved_at (resolve_row now r) = Some now)) /\
  (resolve_reached data ty = true ->
     filter (same_alert (machineId data) ty) (after (analyzeSystemData (database now) data) t)
     = map (fun r => if is_resolved r then r else resolve_row now r)
           (filter (same_alert (machineId data) ty) t)) /\
  (In ty [disk_encryption; os_updates; antivirus_missing; sleep_timeout] ->
     resolve_reached data ty = negb (condition_present data ty)) /\
  (forall m,
     resolveAlertByType (database now) m ty t
     = (Normal (length (open_alerts m ty t)), resolve_rows now m ty t)) /\
  (forall m,
     open_alerts m ty t = [] ->
     resolveAlertByType (database now) m ty t = (Normal 0%nat, t)).
Proof.
  assert (Hrows : forall u, resolve_reached data ty = true ->
            filter (same_alert (machineId data) ty)
              (after (analyzeSystemData (database now) data) u)
            = map (fun r => if is_resolved r then r else resolve_row now r)
                  (filter (same_alert (machineId data) ty) u)).
  { intros u Hreach. unfold after. rewrite analyzeSystemData_database. simpl.
    apply rows_after_ops; [apply ops_of_NoDup|now apply reached_resolves]. }
  assert (Hnone : forall u, resolve_reached data ty = true ->
            open_alerts (machineId data) ty (after (analyzeSystemData (database now) data) u)
            = []).
  { intros u Hreach. unfold after. rewrite analyzeSystemData_database. cbn [snd].
    pose proof (@all_settled now (machineId data) (ops_of data) u (ops_of_NoDup data)) as Hall.
    rewrite Forall_forall in Hall. exact (Hall _ (reached_resolves data ty Hreach)). }
  split; [|split; [|split; [|split; [|split]]]].
  - intro Hc. destruct (compliant_reached data ty Hc) as [Hreach Habsent].
    split; [exact Habsent|]. split; [now apply Hrows|now apply Hnone].
  - intros earlier previous Hsame Hcond Hc. cbv zeta.
    destruct (compliant_reached data ty Hc) as [Hreach _].
    set (before := after (analyzeSystemData (database earlier) previous) t).
    split; [|split].
    + unfold before, after. rewrite analyzeSystemData_database. cbn [snd]. rewrite <- Hsame.
      destruct (@condition_creates _ previous ty Hcond) as (sev & ti & msg & Hin).
      pose proof (@all_settled earlier (machineId previous) (ops_of previous) t
                    (ops_of_NoDup previous)) as Hall.
      rewrite Forall_forall in Hall. exact (Hall _ Hin).
    + now apply Hnone.
    + intros r Hin. split; [|split; reflexivity].
      unfold open_alerts in Hin. apply filter_In in Hin. destruct Hin as [Hin Hopen].
      unfold is_open in Hopen. apply andb_true_iff in Hopen. destruct Hopen as [Hsame' Hres].
      apply negb_true_iff in Hres.
      assert (Hmapped : In (resolve_row now r)
                (map (fun r => if is_resolved r then r else resolve_row now r)
                   (filter (same_alert (machineId data) ty) before))).
      { apply in_map_iff. exists r. rewrite Hres. split; [reflexivity|].
        apply filter_In. now split. }
      rewrite <- (Hrows before Hreach) in Hmapped.
      apply filter_In in Hmapped. exact (proj1 Hmapped).
  - now apply Hrows.
  - simpl. intros [<-|[<-|[<-|[<-|[]]]]]; reflexivity.
  - intro m. apply resolveAlertByType_database.
  - intros m Hopen. rewrite resolveAlertByType_database, Hopen.
    now rewrite resolve_nothing.
Qed.

End Rules.

Lemma antivirus_ordered_evaluation_witness :
  at_most_one_open [] /\
  length (open_alerts "m1" antivirus_outdated
            (after (checkAntivirusAlert (database 1) "m1" outdated) [])) = 1%nat /\
  open_alerts "m1" antivirus_missing
    (after (checkAntivirusAlert (database 1) "m1" outdated) []) = [] /\
  open_alerts "m1" antivirus_disabled
    (after (checkAntivirusAlert (database 1) "m1" outdated) []) = [].
Proof.
  split; [exact empty_at_most_one_open|].
  destruct (@antivirus_ordered_evaluation Integers.numbers 1 "m1" outdated [])
    as (_ & _ & _ & Hone).
  exact (Hone empty_at_most_one_open eq_refl eq_refl eq_refl).
Defined.


(** The scenario of section 8: the alert of the unencrypted disk is
    resolved once the machine reports an encrypted disk. *)
Lemma resolved_on_compliance_witness :
  machineId scenario = machineId MoreExamples.compliant /\
  condition_present scenario disk_encryption = true /\
  category_compliant MoreExamples.compliant disk_encryption = true /\
  open_alerts "m1" disk_encryption (after (analyzeSystemData (database 1) scenario) []) <> [] /\
  open_alerts "m1" disk_encryption
    (after (analyzeSystemData (database 2) MoreExamples.compliant)
       (after (analyzeSystemData (database 1) scenario) [])) = [].
Proof.
  split; [reflexivity|]. split; [reflexivity|]. split; [reflexivity|].
  destruct (@resolved_on_compliance Integers.numbers 2 MoreExamples.compliant []
              disk_encryption) as (_ & Htransition & _).
  destruct (Htransition 1%Z scenario eq_refl eq_refl eq_refl) as (Hopen & Hnone & _).
  split; [exact Hopen|exact Hnone].
Defined.

(** ** Risk score *)

Lemma insert_by_created_at_perm r sorted :
  Permutation (insert_by_created_at r sorted) (r :: sorted).
Proof.
  induction sorted as [|r' rest IH]; simpl; [reflexivity|].
  destruct (created_at r' <=? created_at r)%Z; [reflexivity|].
  rewrite IH. apply perm_swap.
Qed.

Lemma sort_newest_first_perm t : Permutation (sort_newest_first t) t.
Proof.
  induction t as [|r t IH]; simpl; [reflexivity|].
  rewrite insert_by_created_at_perm. now constructor.
Qed.

Lemma weight_sum_cons a alerts :
  weight_sum (a :: alerts) = (severityWeights (severity a) + weight_sum alerts)%Z.
Proof. reflexivity. Qed.

Lemma sum_weights_from alerts : forall acc,
  fold_left (fun riskScore alert => (riskScore + severityWeights (severity alert))%Z) alerts acc
  = (acc + weight_sum alerts)%Z.
Proof.
  induction alerts as [|a alerts IH]; intro acc; [simpl; lia|].
  rewrite weight_sum_cons. simpl fold_left. rewrite IH. lia.
Qed.

Lemma sum_weights_weight_sum alerts : sum_weights alerts = weight_sum alerts.
Proof. unfold sum_weights. now rewrite sum_weights_from. Qed.

Lemma weight_sum_perm a b : Permutation a b -> weight_sum a = weight_sum b.
Proof. induction 1; rewrite ?weight_sum_cons; lia. Qed.

Lemma weight_sum_nonneg alerts : (0 <= weight_sum alerts)%Z.
Proof.
  induction alerts as [|a alerts IH]; [simpl; lia|].
  rewrite weight_sum_cons. destruct (severity a); simpl severityWeights; lia.
Qed.

(** The open rows of a machine, counted by alert type. *)
Lemma machine_open_by_type m t :
  length (machine_open m t)
  = (length (open_alerts m disk_encryption t) + length (open_alerts m os_updates t)
     + length (open_alerts m antivirus_missing t) + length (open_alerts m antivirus_disabled t)
     + length (open_alerts m antivirus_outdated t) + length (open_alerts m sleep_timeout t))%nat.
Proof.
  unfold machine_open, open_alerts, is_open, same_alert.
  induction t as [|r t IH]; simpl; [reflexivity|].
  destruct (machine_id r =? m), (is_resolved r), (alert_type r); simpl; lia.
Qed.

Lemma machine_open_bounded m t :
  at_most_one_open t -> (length (machine_open m t) <= 6)%nat.
Proof.
  intro Hinv. rewrite machine_open_by_type.
  pose proof (Hinv m disk_encryption). pose proof (Hinv m os_updates).
  pose proof (Hinv m antivirus_missing). pose proof (Hinv m antivirus_disabled).
  pose proof (Hinv m antivirus_outdated). pose proof (Hinv m sleep_timeout). lia.
Qed.

Lemma getAlerts_open m t :
  m <> "" -> (length (machine_open m t) <= 100)%nat ->
  exists alerts,
    Database_getAlerts m false t = (Normal alerts, t) /\ Permutation alerts (machine_open m t).
Proof.
  intros Hm Hlen. unfold Database_getAlerts.
  apply String.eqb_neq in Hm. rewrite Hm.
  assert (Heq : filter (fun r => Bool.eqb (is_resolved r) false && (machine_id r =? m)) t
                = machine_open m t).
  { unfold machine_open. apply filter_ext. intro r.
    destruct (is_resolved r), (machine_id r =? m); reflexivity. }
  rewrite Heq. eexists. split; [reflexivity|].
  rewrite firstn_all2.
  - apply sort_newest_first_perm.
  - now rewrite (Permutation_length (sort_newest_first_perm _)).
Qed.

Lemma scaled_raw (raw : Z) : (inject_Z raw / maxPossibleScore * 100 == inject_Z (2 * raw))%Q.
Proof.
  unfold maxPossibleScore, Qeq, Qdiv, Qmult, Qinv, inject_Z. simpl. destruct raw; lia.
Qed.

Lemma normalize_closed (raw : Z) : (normalize raw == inject_Z (Z.min 100 (2 * raw)))%Q.
Proof.
  unfold normalize. rewrite scaled_raw.
  destruct (Z.le_ge_cases 100 (2 * raw)) as [H|H].
  - rewrite Z.min_l by assumption. apply Q.min_l.
    change 100%Q with (inject_Z 100). now rewrite <- Zle_Qle.
  - rewrite Z.min_r by assumption. apply Q.min_r.
    change 100%Q with (inject_Z 100). now rewrite <- Zle_Qle.
Qed.

Lemma Math_round_integer (k : Z) : Math_round (inject_Z k) = k.
Proof.
  unfold Math_round.
  assert (H : (inject_Z k + (1 # 2) == (2 * k + 1) # 2)%Q).
  { unfold Qeq, Qplus, inject_Z. simpl. destruct k; lia. }
  rewrite H. unfold Qfloor.
  symmetry. apply Z.div_unique with (r := 1%Z); lia.
Qed.

Lemma Qle_bool_integers (a b : Z) : Qle_bool (inject_Z a) (inject_Z b) = (a <=? b)%Z.
Proof.
  destruct (a <=? b)%Z eqn:E.
  - apply Qle_bool_iff. rewrite <- Zle_Qle. now apply Z.leb_le.
  - destruct (Qle_bool (inject_Z a) (inject_Z b)) eqn:F; [|reflexivity].
    apply Qle_bool_iff in F. rewrite <- Zle_Qle in F. apply Z.leb_le in F. congruence.
Qed.

Lemma risk_of_closed alerts :
  let raw := weight_sum alerts in
  let normalized := Z.min 100 (2 * raw) in
  risk_of alerts
  = {| score := normalized;
       level := if (80 <=? normalized)%Z then critical
                else if (60 <=? normalized)%Z then high
                else if (30 <=? normalized)%Z then medium
                else low;
       alertCount := length alerts;
       rawScore := raw |}.
Proof.
  cbv zeta. unfold risk_of. rewrite sum_weights_weight_sum.
  pose proof (normalize_closed (weight_sum alerts)) as Hn.
  assert (Hle : forall k, Qle_bool (inject_Z k) (normalize (weight_sum alerts))
                          = (k <=? Z.min 100 (2 * weight_sum alerts))%Z).
  { intro k. rewrite <- Qle_bool_integers.
    destruct (Qle_bool (inject_Z k) (normalize (weight_sum alerts))) eqn:E.
    - symmetry. apply Qle_bool_iff. rewrite <- Hn. now apply Qle_bool_iff.
    - destruct (Qle_bool (inject_Z k) (inject_Z (Z.min 100 (2 * weight_sum alerts)))) eqn:F;
        [|reflexivity].
      apply Qle_bool_iff in F. rewrite <- Hn in F. apply Qle_bool_iff in F. congruence. }
  change 80%Q with (inject_Z 80). change 60%Q with (inject_Z 60). change 30%Q with (inject_Z 30).
  rewrite !Hle. f_equal.
  unfold Math_round. rewrite Hn. apply Math_round_integer.
Qed.

(** C5.  The weights are 10, 7, 4 and 1.  [getMachineRiskScore] answers,
    for the open alerts [getAlerts] returns: [rawScore] the sum of their
    weights, [alertCount] their number, [score] the rounding of
    [min(100, rawScore / 50 * 100)], which is [min(100, 2 * rawScore)] and
    never exceeds 100, and [level] critical from a normalized score of 80,
    high from 60, medium from 30 and low below.  For a machine with a name
    that has at most 100 open alerts (with at most one open alert for every
    type it has at most six) the alerts returned are all the open alerts of
    the machine.  A machine whose only open alert has high severity gets
    score 14, level low, count 1 and raw score 7. *)
Theorem risk_score_definition (now : Z) (m : string) (t : Alerts) :
  (severityWeights critical = 10 /\ severityWeights high = 7 /\
   severityWeights medium = 4 /\ severityWeights low = 1)%Z /\
  (at_most_one_open t -> (length (machine_open m t) <= 6)%nat) /\
  exists alerts r,
    Database_getAlerts m false t = (Normal alerts, t) /\
    getMachineRiskScore (database now) m t = (Normal r, t) /\
    rawScore r = weight_sum alerts /\
    alertCount r = length alerts /\
    score r = Math_round (Qmin 100 (inject_Z (rawScore r) / 50 * 100))%Q /\
    score r = Z.min 100 (2 * rawScore r) /\
    (0 <= score r <= 100)%Z /\
    level r = (let normalized := Z.min 100 (2 * rawScore r) in
               if (80 <=? normalized)%Z then critical
               else if (60 <=? normalized)%Z then high
               else if (30 <=? normalized)%Z then medium
               else low) /\
    (m <> "" -> (length (machine_open m t) <= 100)%nat ->
       Permutation alerts (machine_open m t) /\
       rawScore r = weight_sum (machine_open m t) /\
       alertCount r = length (machine_open m t)) /\
    (m <> "" -> forall a, machine_open m t = [a] -> severity a = high ->
       r = {| score := 14; level := low; alertCount := 1; rawScore := 7 |}).
Proof.
  split; [repeat split|]. split; [apply machine_open_bounded|].
  destruct (Database_getAlerts m false t) as [answer t'] eqn:Hget.
  assert (Hanswer : exists alerts, answer = Normal alerts /\ t' = t).
  { unfold Database_getAlerts in Hget. injection Hget as <- <-. eauto. }
  destruct Hanswer as (alerts & -> & ->).
  exists alerts, (risk_of alerts).
  split; [reflexivity|]. split.
  { change (getMachineRiskScore (database now) m t)
      with (match Database_getAlerts m false t with
            | (Normal found, t') => ret (risk_of found) t'
            | (Throw e, t') => (Throw e, t')
            end).
    now rewrite Hget. }
  pose proof (weight_sum_nonneg alerts) as Hpos.
  rewrite risk_of_closed. cbv zeta. cbn [score level alertCount rawScore].
  set (raw := weight_sum alerts) in *.
  assert (Hwhole : m <> "" -> (length (machine_open m t) <= 100)%nat ->
                   Permutation alerts (machine_open m t)).
  { intros Hm Hlen. destruct (getAlerts_open t Hm Hlen) as (alerts' & Hget' & Hperm).
    rewrite Hget in Hget'. now injection Hget' as ->. }
  split; [reflexivity|]. split; [reflexivity|]. split.
  { change (Qmin 100 (inject_Z raw / 50 * 100))%Q with (normalize raw).
    unfold Math_round. rewrite normalize_closed. symmetry. apply Math_round_integer. }
  split; [reflexivity|]. split; [lia|]. split; [reflexivity|]. split.
  - intros Hm Hlen. pose proof (Hwhole Hm Hlen) as Hperm.
    split; [exact Hperm|]. split.
    + subst raw. now apply weight_sum_perm.
    + now apply Permutation_length.
  - intros Hm a Ha Hsev.
    assert (Hperm : Permutation alerts [a]).
    { rewrite <- Ha. apply Hwhole; [assumption|]. rewrite Ha. simpl. lia. }
    apply Permutation_sym, Permutation_length_1_inv in Hperm.
    subst raw. rewrite Hperm. unfold weight_sum. simpl. now rewrite Hsev.
Qed.

Lemma risk_score_definition_witness :
  "m1" <> "" /\ machine_open "m1" one_high_alert = one_high_alert /\
  getMachineRiskScore (database 2) "m1" one_high_alert
  = (Normal {| score := 14; level := low; alertCount := 1; rawScore := 7 |}, one_high_alert).
Proof.
  assert (Hm : "m1" <> "") by discriminate.
  split; [exact Hm|]. split; [reflexivity|].
  destruct (@risk_score_definition 2 "m1" one_high_alert)
    as (_ & _ & alerts & r & _ & Hrun & _ & _ & _ & _ & _ & _ & _ & Hone).
  rewrite Hrun. do 2 f_equal.
  now apply (Hone Hm (new_row 1 "m1" disk_encryption high "Disk Encryption Disabled"
     "Machine m1 does not have disk encryption enabled. This poses a significant security risk.")).
Defined.

(** ** Retention sweep *)

Lemma expired_spec cutoffDate r :
  expired cutoffDate r = true
  <-> is_resolved r = true /\
      exists resolvedAt,
        resolved_at r = Some resolvedAt /\
        String.ltb (Timestamps.CURRENT_TIMESTAMP resolvedAt) cutoffDate = true.
Proof.
  unfold expired. rewrite andb_true_iff. split.
  - intros [Hr Hat]. split; [assumption|].
    destruct (resolved_at r) as [resolvedAt|]; [|discriminate].
    exists resolvedAt. now split.
  - intros [Hr (resolvedAt & -> & Hlt)]. now split.
Qed.

Lemma compare_after_prefix (d x y : string) :
  String.compare (d ++ x) (d ++ y) = String.compare x y.
Proof.
  induction d as [|c d IH]; [reflexivity|].
  cbn [append String.compare]. unfold Ascii.compare. now rewrite N.compare_refl.
Qed.

(** On one date the stored text goes before the ISO text, whatever the
    times: after the date the one has a space where the other has a T. *)
Lemma stored_text_before_iso (resolvedAt cutoff : Z) :
  Timestamps.date_text resolvedAt = Timestamps.date_text cutoff ->
  String.ltb (Timestamps.CURRENT_TIMESTAMP resolvedAt) (Timestamps.toISOString cutoff) = true.
Proof.
  intro Hdate. unfold Timestamps.CURRENT_TIMESTAMP, Timestamps.toISOString, String.ltb.
  rewrite Hdate, compare_after_prefix. reflexivity.
Qed.

Lemma same_day_same_date (a b : Z) :
  (a / Timestamps.msPerDay = b / Timestamps.msPerDay)%Z ->
  Timestamps.date_text a = Timestamps.date_text b.
Proof. intro H. unfold Timestamps.date_text. now rewrite H. Qed.

Lemma filter_length_split {A} (p : A -> bool) (l : list A) :
  (length (filter p l) + length (filter (fun x => negb (p x)) l) = length l)%nat.
Proof.
  induction l as [|x l IH]; [reflexivity|].
  cbn [filter]. destruct (p x); cbn [negb length]; lia.
Qed.

(** C10.  [cleanupOldResolvedAlerts(daysToKeep)] at the instant [today]
    binds the ISO text of the cutoff, [daysToKeep] days before [today],
    to [resolved_at < ?], and the column holds the texts that
    [CURRENT_TIMESTAMP] stored.  For a cutoff and resolutions in the years
    0000 to 9999: it deletes the resolved rows whose stored text goes
    before the ISO text of the cutoff in the order of texts, answers
    their number, and keeps every other row as it is and in its place;
    the open rows are the same before and after.  The two texts differ
    in format behind the date, so every resolved row whose resolution
    falls on the day of the cutoff is deleted, also when it was resolved
    after the cutoff.  The default of [daysToKeep] is 30. *)
Theorem retention_sweep_by_text (now today daysToKeep : Z) (t : Alerts) :
  let cutoff := (today - daysToKeep * 24 * 60 * 60 * 1000)%Z in
  let deleted r :=
    is_resolved r = true /\
    exists resolvedAt,
      resolved_at r = Some resolvedAt /\
      String.ltb (Timestamps.CURRENT_TIMESTAMP resolvedAt) (Timestamps.toISOString cutoff)
      = true in
  let swept := after (cleanupOldResolvedAlerts (database now) today daysToKeep) t in
  Timestamps.four_digit_year cutoff ->
  (forall r resolvedAt,
      In r t -> resolved_at r = Some resolvedAt -> Timestamps.four_digit_year resolvedAt) ->
  (exists keep : AlertRecord -> bool,
      (forall r, keep r = false <-> deleted r) /\
      swept = filter keep t /\
      completion (cleanupOldResolvedAlerts (database now) today daysToKeep) t
      = Normal (length t - length swept)%nat) /\
  (forall r, In r swept <-> In r t /\ ~ deleted r) /\
  (forall r, In r t -> is_resolved r = false -> In r swept) /\
  filter (fun r => negb (is_resolved r)) swept = filter (fun r => negb (is_resolved r)) t /\
  (forall r resolvedAt,
      In r t -> is_resolved r = true -> resolved_at r = Some resolvedAt ->
      (resolvedAt / Timestamps.msPerDay = cutoff / Timestamps.msPerDay)%Z ->
      deleted r /\ ~ In r swept) /\
  default_daysToKeep = 30%Z.
Proof.
  cbv zeta. intros _ _.
  set (cutoff := (today - daysToKeep * 24 * 60 * 60 * 1000)%Z).
  set (cutoffDate := Timestamps.toISOString cutoff).
  change (after (cleanupOldResolvedAlerts (database now) today daysToKeep) t)
    with (filter (fun r => negb (expired cutoffDate r)) t).
  change (completion (cleanupOldResolvedAlerts (database now) today daysToKeep) t)
    with (Normal (A := nat) (length (filter (expired cutoffDate) t))).
  assert (Hkeep : forall r, negb (expired cutoffDate r) = false
                            <-> is_resolved r = true /\
                                exists resolvedAt,
                                  resolved_at r = Some resolvedAt /\
                                  String.ltb (Timestamps.CURRENT_TIMESTAMP resolvedAt)
                                    cutoffDate = true).
  { intro r. rewrite negb_false_iff. apply expired_spec. }
  split; [|split; [|split; [|split; [|split]]]].
  - exists (fun r => negb (expired cutoffDate r)). split; [exact Hkeep|].
    split; [reflexivity|].
    f_equal. pose proof (filter_length_split (expired cutoffDate) t). lia.
  - intro r. rewrite filter_In. split.
    + intros [Hin Hk]. split; [assumption|]. intro Hold. apply Hkeep in Hold. congruence.
    + intros [Hin Hnot]. split; [assumption|].
      destruct (negb (expired cutoffDate r)) eqn:E; [reflexivity|].
      apply Hkeep in E. contradiction.
  - intros r Hin Hopen. apply filter_In. split; [assumption|].
    unfold expired. now rewrite Hopen.
  - induction t as [|r t IH]; [reflexivity|].
    cbn [filter]. unfold expired at 1. destruct (is_resolved r) eqn:R.
    + cbn [andb negb]. destruct (negb _); cbn [filter]; rewrite ?R; exact IH.
    + cbn [andb negb filter]. rewrite R. cbn [negb]. now rewrite IH.
  - intros r resolvedAt _ Hres Hat Hday.
    assert (Hdel : is_resolved r = true /\
                   exists resolvedAt0,
                     resolved_at r = Some resolvedAt0 /\
                     String.ltb (Timestamps.CURRENT_TIMESTAMP resolvedAt0) cutoffDate = true).
    { split; [assumption|]. exists resolvedAt. split; [assumption|].
      apply stored_text_before_iso, same_day_same_date, Hday. }
    split; [exact Hdel|].
    rewrite filter_In. intros [_ Hk]. apply Hkeep in Hdel. congruence.
  - reflexivity.
Qed.

(** The sweep of 2026-01-31 12:00:00 with the default of 30 days deletes
    an alert resolved on 2026-01-01 at 12:01:00, one minute after the
    cutoff. *)
Lemma retention_sweep_by_text_witness :
  Timestamps.four_digit_year (sweep_instant - default_daysToKeep * 24 * 60 * 60 * 1000)%Z /\
  resolved_at resolved_after_cutoff
  = Some (sweep_instant - default_daysToKeep * 24 * 60 * 60 * 1000 + 60000)%Z /\
  ~ In resolved_after_cutoff
      (after (cleanupOldResolvedAlerts (database 0) sweep_instant default_daysToKeep)
         [resolved_after_cutoff]) /\
  cleanupOldResolvedAlerts (database 0) sweep_instant default_daysToKeep
    [resolved_after_cutoff]
  = (Normal 1%nat, []).
Proof.
  assert (Hcutoff : Timestamps.four_digit_year
                      (sweep_instant - default_daysToKeep * 24 * 60 * 60 * 1000)%Z)
    by (vm_compute; split; [discriminate|reflexivity]).
  assert (Hrows : forall r resolvedAt,
            In r [resolved_after_cutoff] -> resolved_at r = Some resolvedAt ->
            Timestamps.four_digit_year resolvedAt).
  { intros r resolvedAt [<-|[]] [= <-]. vm_compute. split; [discriminate|reflexivity]. }
  split; [exact Hcutoff|]. split; [reflexivity|]. split; [|reflexivity].
  destruct (@retention_sweep_by_text 0 sweep_instant default_daysToKeep
              [resolved_after_cutoff] Hcutoff Hrows) as (_ & _ & _ & _ & Hday & _).
  exact (proj2 (Hday resolved_after_cutoff 1767268860000%Z (or_introl eq_refl) eq_refl
                  eq_refl eq_refl)).
Defined.

End Claims.

(* ================================================================== *)
(** * The change gate *)
(* ================================================================== *)

Module GateClaims.
Import JS Vocabulary Examples SystemMonitor StringifyFacts.

Lemma heartbeat_due (elapsed : Z) :
  Qle_bool 24%Q (inject_Z elapsed / inject_Z (1000 * 60 * 60))%Q
  = (24 * 60 * 60 * 1000 <=? elapsed)%Z.
Proof.
  unfold Qle_bool, Qdiv, Qmult, Qinv, inject_Z. simpl Qnum. simpl Qden.
  replace (elapsed * 1 * 1)%Z with elapsed by lia. reflexivity.
Qed.

Section Gate.
Context {NUM : Numbers} {PRINT : NumberPrinting NUM}.

Lemma texts_differ (a b : json) :
  negb (stringify a =? stringify b) = true <-> a <> b.
Proof.
  rewrite negb_true_iff, String.eqb_neq. split.
  - intros H E. apply H. now rewrite E.
  - intros H E. apply H. now apply stringify_injective.
Qed.

Lemma hasStateChanged_spec (last current : SystemState) :
  hasStateChanged (Some last) current = true
  <-> diskEncryption last <> diskEncryption current
      \/ osUpdates last <> osUpdates current
      \/ antivirus last <> antivirus current
      \/ sleepSettings last <> sleepSettings current.
Proof.
  unfold hasStateChanged, keys. cbn [existsb].
  rewrite !orb_true_iff, !texts_differ. intuition discriminate.
Qed.

(** C2.  The cycle transmits exactly when [shouldSend] holds, and
    [shouldSend] holds exactly when there is no previous transmitted state,
    or one of the four payloads (disk encryption, updates, antivirus, sleep
    settings) of the current state is not the same JSON value as in the
    previous one, or at least 24 hours separate [now] from the timestamp of
    the previous state.  No other field of the states takes part.  When
    the four payloads are the same values and fewer than 24 hours have
    passed, nothing is transmitted and the previous state is kept. *)
Theorem change_gate_rule (lastState : option SystemState) (current : SystemState) (now : Z) :
  (shouldSend lastState current now = true
   <-> lastState = None
       \/ exists previous,
            lastState = Some previous /\
            (diskEncryption previous <> diskEncryption current
             \/ osUpdates previous <> osUpdates current
             \/ antivirus previous <> antivirus current
             \/ sleepSettings previous <> sleepSettings current
             \/ (24 * 60 * 60 * 1000 <= now - timestamp previous)%Z)) /\
  (forall sent, snd (runCheck lastState current now sent) = shouldSend lastState current now) /\
  (forall previous sent,
      lastState = Some previous ->
      diskEncryption previous = diskEncryption current ->
      osUpdates previous = osUpdates current ->
      antivirus previous = antivirus current ->
      sleepSettings previous = sleepSettings current ->
      (now - timestamp previous < 24 * 60 * 60 * 1000)%Z ->
      runCheck lastState current now sent = (lastState, false)).
Proof.
  assert (Hrule : shouldSend lastState current now = true
            <-> lastState = None
                \/ exists previous,
                     lastState = Some previous /\
                     (diskEncryption previous <> diskEncryption current
                      \/ osUpdates previous <> osUpdates current
                      \/ antivirus previous <> antivirus current
                      \/ sleepSettings previous <> sleepSettings current
                      \/ (24 * 60 * 60 * 1000 <= now - timestamp previous)%Z)).
  { destruct lastState as [previous|].
    - unfold shouldSend. cbn [orb]. rewrite orb_true_iff, hasStateChanged_spec.
      unfold shouldSendHeartbeat. rewrite heartbeat_due, Z.leb_le. split.
      + intro H. right. exists previous. split; [reflexivity|]. tauto.
      + intros [H|(p & [= <-] & H)]; [discriminate|]. tauto.
    - split; [now left|reflexivity]. }
  split; [exact Hrule|]. split.
  - intro sent. unfold runCheck.
    destruct (shouldSend lastState current now), sent; reflexivity.
  - intros previous sent -> Hd Hu Ha Hs Hlt. unfold runCheck.
    destruct (shouldSend (Some previous) current now) eqn:E; [|reflexivity].
    destruct (proj1 Hrule eq_refl) as [F|(p & [= <-] & F)]; [discriminate|].
    exfalso. intuition lia.
Qed.

End Gate.


Lemma change_gate_rule_witness :
  NumberPrinting Integers.numbers /\
  runCheck (Some (state_at 0 (JObj [("enabled", JBool true)])))
           (state_at 1000 (JObj [("enabled", JBool true)])) 1000 true
  = (Some (state_at 0 (JObj [("enabled", JBool true)])), false).
Proof.
  split; [exact IntegerPrinting.integers_print|].
  destruct (@change_gate_rule Integers.numbers IntegerPrinting.integers_print
              (Some (state_at 0 (JObj [("enabled", JBool true)])))
              (state_at 1000 (JObj [("enabled", JBool true)])) 1000)
    as (_ & _ & Hskip).
  apply Hskip with (previous := state_at 0 (JObj [("enabled", JBool true)]));
    reflexivity.
Defined.

End GateClaims.

(* ================================================================== *)
(** * The probe and the engine *)
(* ================================================================== *)

Module ProbeClaims.
Import JS AlertService Vocabulary Examples TableFacts OpFacts SystemChecks Claims.


Section Probe.
Context {NUM : Numbers} {RE : RegExps}.
Variable host : Host.

Lemma checkDiskEncryption_shape :
  exists members, checkDiskEncryption host = JObj members /\ lookup "encrypted" members = None.
Proof.
  unfold checkDiskEncryption, safeRun, checkMacOSEncryption, checkWindowsEncryption,
    checkLinuxEncryption, andThen, runCommand, JSON_roundtrip.
  probe_cases; eexists; split; reflexivity.
Qed.

Lemma checkOSUpdates_shape :
  exists members, checkOSUpdates host = JObj members /\ lookup "upToDate" members = None.
Proof.
  unfold checkOSUpdates, safeRun, checkMacOSUpdates, checkWindowsUpdates,
    checkLinuxUpdates, andThen, orElse, runCommand, JSON_roundtrip.
  probe_cases; eexists; split; reflexivity.
Qed.

Lemma checkAntivirus_shape :
  exists members, checkAntivirus host = JObj members /\ lookup "enabled" members = None.
Proof.
  unfold checkAntivirus, safeRun, checkMacOSAntivirus, checkWindowsAntivirus,
    checkLinuxAntivirus, antivirusChecks, firstDetected, andThen, runCommand, JSON_roundtrip.
  probe_cases; eexists; split; reflexivity.
Qed.

Lemma checkSleepSettings_shape :
  exists members, checkSleepSettings host = JObj members /\ lookup "sleepTimeout" members = None.
Proof.
  unfold checkSleepSettings, safeRun, checkMacOSSleep, checkWindowsSleep,
    checkLinuxSleep, andThen, orElse, runCommand, JSON_roundtrip.
  probe_cases; eexists; split; reflexivity.
Qed.


(** C4.  For the state [getSystemState] assembles on any host, with any
    results of the commands: the four payloads are objects without the
    fields the engine reads ([encrypted], [upToDate], [enabled],
    [sleepTimeout]).  So the analysis of the state as the server receives
    it takes the alert path for disk encryption and for updates, the alert
    path for disabled antivirus whenever the payload says [installed], and
    the resolution path for the sleep timeout: afterwards the machine has
    an open [disk_encryption] alert and an open [os_updates] alert, an open
    [antivirus_disabled] alert when the antivirus is installed, no open
    [sleep_timeout] alert, and the [sleep_timeout] rows of the machine are
    those it had, resolved. *)
Theorem probe_fields_never_match (m : string) (os : SystemMonitor.Os)
    (clock now : Z) (t : Alerts) :
  let state := SystemMonitor.getSystemState m host os clock in
  let data := SystemMonitor.received state in
  let t' := after (analyzeSystemData (database now) data) t in
  (get (SystemMonitor.diskEncryption state) "encrypted" = None /\
   get (SystemMonitor.osUpdates state) "upToDate" = None /\
   get (SystemMonitor.antivirus state) "enabled" = None /\
   get (SystemMonitor.sleepSettings state) "sleepTimeout" = None) /\
  (condition_present data disk_encryption = true /\
   condition_present data os_updates = true /\
   (truthy (get (SystemMonitor.antivirus state) "installed") = true ->
    condition_present data antivirus_disabled = true) /\
   condition_present data sleep_timeout = false /\
   resolve_reached data sleep_timeout = true) /\
  (open_alerts m disk_encryption t' <> [] /\
   open_alerts m os_updates t' <> [] /\
   (truthy (get (SystemMonitor.antivirus state) "installed") = true ->
    open_alerts m antivirus_disabled t' <> []) /\
   open_alerts m sleep_timeout t' = [] /\
   filter (same_alert m sleep_timeout) t'
   = map (fun r => if is_resolved r then r else resolve_row now r)
         (filter (same_alert m sleep_timeout) t)).
Proof.
  cbv zeta.
  destruct checkDiskEncryption_shape as (disk & Hdisk & Hencrypted).
  destruct checkOSUpdates_shape as (updates & Hupdates & HupToDate).
  destruct checkAntivirus_shape as (virus & Hvirus & Henabled).
  destruct checkSleepSettings_shape as (sleep & Hsleep & Htimeout).
  set (state := SystemMonitor.getSystemState m host os clock).
  set (data := SystemMonitor.received state).
  assert (Hfields : get (SystemMonitor.diskEncryption state) "encrypted" = None /\
                    get (SystemMonitor.osUpdates state) "upToDate" = None /\
                    get (SystemMonitor.antivirus state) "enabled" = None /\
                    get (SystemMonitor.sleepSettings state) "sleepTimeout" = None).
  { unfold state. cbn [SystemMonitor.getSystemState SystemMonitor.diskEncryption
      SystemMonitor.osUpdates SystemMonitor.antivirus SystemMonitor.sleepSettings].
    rewrite Hdisk, Hupdates, Hvirus, Hsleep. cbn [get]. auto. }
  assert (Hcond : condition_present data disk_encryption = true /\
                  condition_present data os_updates = true /\
                  (truthy (get (SystemMonitor.antivirus state) "installed") = true ->
                   condition_present data antivirus_disabled = true) /\
                  condition_present data sleep_timeout = false /\
                  resolve_reached data sleep_timeout = true).
  { unfold data, state, condition_present, resolve_reached.
    cbn [SystemMonitor.received SystemMonitor.getSystemState SystemMonitor.diskEncryption
      SystemMonitor.osUpdates SystemMonitor.antivirus SystemMonitor.sleepSettings
      diskEncryption osUpdates antivirus sleepSettings].
    rewrite Hdisk, Hupdates, Hvirus, Hsleep.
    unfold disk_not_encrypted, updates_pending, antivirus_not_installed,
      antivirus_not_enabled, sleep_too_long.
    cbn [get_opt get truthy negb orb].
    rewrite Hencrypted, HupToDate, Henabled, Htimeout. cbn [truthy negb gt orb andb].
    repeat split. intros ->. reflexivity. }
  destruct Hcond as (Hc1 & Hc2 & Hc3 & Hc4 & Hc5).
  split; [exact Hfields|]. split; [repeat split; assumption|].
  assert (Hopen : forall ty, condition_present data ty = true ->
             open_alerts m ty (after (analyzeSystemData (database now) data) t) <> []).
  { intros ty Hty. unfold after. rewrite analyzeSystemData_database. cbn [snd].
    destruct (@condition_creates _ data ty Hty) as (sev & ti & msg & Hin).
    pose proof (@all_settled now (machineId data) (ops_of data) t (ops_of_NoDup data)) as Hall.
    rewrite Forall_forall in Hall. exact (Hall _ Hin). }
  assert (Hrows : filter (same_alert m sleep_timeout)
                    (after (analyzeSystemData (database now) data) t)
                  = map (resolve_if_open now) (filter (same_alert m sleep_timeout) t)).
  { unfold after. rewrite analyzeSystemData_database. cbn [snd].
    apply (@rows_after_ops now (machineId data) sleep_timeout (ops_of data) t
             (ops_of_NoDup data)).
    now apply reached_resolves. }
  repeat split.
  - now apply Hopen.
  - now apply Hopen.
  - intro Hinstalled. apply Hopen. now apply Hc3.
  - unfold after. rewrite analyzeSystemData_database. cbn [snd].
    pose proof (@all_settled now (machineId data) (ops_of data) t (ops_of_NoDup data)) as Hall.
    rewrite Forall_forall in Hall.
    exact (Hall _ (reached_resolves data sleep_timeout Hc5)).
  - exact Hrows.
Qed.

End Probe.


Lemma probe_fields_never_match_witness :
  truthy (get (@checkAntivirus Integers.numbers compliant_mac) "installed") = true /\
  length (open_alerts "m1" antivirus_disabled
            (after (analyzeSystemData (database 2)
                      (SystemMonitor.received
                         (@SystemMonitor.getSystemState Integers.numbers Integers.regexps
                            "m1" compliant_mac mac_os 1)))
               [])) = 1%nat.
Proof.
  split; [reflexivity|].
  destruct (@probe_fields_never_match Integers.numbers Integers.regexps compliant_mac "m1"
              mac_os 1 2 [])
    as (_ & _ & _ & _ & Hvirus & _).
  specialize (Hvirus eq_refl).
  destruct (open_alerts _ _ _) as [|r [|r' rest]] eqn:E in Hvirus |- *;
    [congruence|reflexivity|vm_compute in E; discriminate E].
Defined.

End ProbeClaims.

(* ================================================================== *)
(** * Facts about strings *)
(* ================================================================== *)

Module TextFacts.

Lemma append_length (a b : string) :
  String.length (a ++ b) = (String.length a + String.length b)%nat.
Proof. induction a as [|c a IH]; simpl; [reflexivity|now rewrite IH]. Qed.

Lemma append_cancel_r (s : string) : forall a b, a ++ s = b ++ s -> a = b.
Proof.
  induction a as [|c a IH]; intros [|d b] H; simpl in H.
  - reflexivity.
  - apply (f_equal String.length) in H. simpl in H. rewrite append_length in H. lia.
  - apply (f_equal String.length) in H. simpl in H. rewrite append_length in H. lia.
  - injection H as -> H. f_equal. now apply IH.
Qed.

Lemma substring_whole (s : string) : String.substring 0 (String.length s) s = s.
Proof. induction s as [|c s IH]; [reflexivity|]. simpl. now rewrite IH. Qed.

Lemma prefix_append (p r : string) : String.prefix p (p ++ r) = true.
Proof.
  induction p as [|c p IH]; simpl; [now destruct r|].
  destruct (ascii_dec c c); [exact IH|contradiction].
Qed.

Lemma substring_skip (p r : string) (n : nat) :
  String.substring (String.length p) n (p ++ r) = String.substring 0 n r.
Proof. induction p as [|c p IH]; simpl; [reflexivity|exact IH]. Qed.

(** What follows a prefix. *)
Lemma after_prefix (p r : string) :
  String.substring (String.length p) (String.length (p ++ r) - String.length p) (p ++ r) = r.
Proof.
  rewrite substring_skip, append_length.
  replace (String.length p + String.length r - String.length p)%nat
    with (String.length r) by lia.
  apply substring_whole.
Qed.

End TextFacts.

(* ================================================================== *)
(** * Further properties of the alert engine *)
(* ================================================================== *)

Module EngineExtras.
Import JS AlertService Vocabulary MoreVocabulary Examples MoreExamples TableFacts OpFacts Claims.

(** ** Other machines *)

Lemma of_machine_after_op now m m' t op :
  m' <> m -> of_machine m' (apply_op now m t op) = of_machine m' t.
Proof.
  intro Hne. apply String.eqb_neq in Hne.
  destruct op as [ty sev ti msg|ty]; simpl.
  - unfold create_if_absent. destruct (open_alerts m ty t); [|reflexivity].
    unfold of_machine. rewrite filter_app. simpl.
    rewrite String.eqb_sym, Hne. apply app_nil_r.
  - unfold of_machine, resolve_rows. induction t as [|r t IH]; [reflexivity|].
    cbn [map filter]. destruct (is_open m ty r) eqn:O.
    + unfold is_open in O. apply andb_true_iff in O. destruct O as [S _].
      apply same_alert_spec in S. destruct S as [S _].
      cbn [resolve_row machine_id]. rewrite S, String.eqb_sym, Hne. exact IH.
    + destruct (machine_id r =? m'); now rewrite IH.
Qed.

Lemma of_machine_after_ops now m m' ops : forall t,
  m' <> m -> of_machine m' (apply_ops now m ops t) = of_machine m' t.
Proof.
  induction ops as [|op ops IH]; intros t Hne; [reflexivity|].
  change (apply_ops now m (op :: ops) t) with (apply_ops now m ops (apply_op now m t op)).
  rewrite IH by assumption. now apply of_machine_after_op.
Qed.

(** ** Rows are kept *)

Lemma kept_refl now m t : Forall2 (kept_or_resolved now m) t t.
Proof. induction t; constructor; [now left|assumption]. Qed.

Lemma kept_after_resolve now m ty t t' :
  Forall2 (kept_or_resolved now m) t t' ->
  Forall2 (kept_or_resolved now m) t (resolve_rows now m ty t').
Proof.
  induction 1 as [|r r' t t' Hr _ IH]; [constructor|].
  cbn [resolve_rows map]. constructor; [|exact IH].
  destruct (is_open m ty r') eqn:O; [|exact Hr].
  unfold is_open in O. apply andb_true_iff in O. destruct O as [S R].
  apply same_alert_spec in S. destruct S as [S _]. apply negb_true_iff in R.
  destruct Hr as [->|(_ & _ & ->)].
  - right. auto.
  - discriminate R.
Qed.

Lemma shape_after_ops now m ops : forall t t' added,
  Forall2 (kept_or_resolved now m) t t' ->
  Forall (fun r => machine_id r = m /\ created_at r = now) added ->
  exists t'' added',
    apply_ops now m ops (t' ++ added)%list = (t'' ++ added')%list /\
    Forall2 (kept_or_resolved now m) t t'' /\
    Forall (fun r => machine_id r = m /\ created_at r = now) added' /\
    (length added' <= length added + list_sum (map creates ops))%nat.
Proof.
  induction ops as [|op ops IH]; intros t t' added Hkept Hadded.
  - exists t', added. simpl. repeat split; auto. lia.
  - change (apply_ops now m (op :: ops) (t' ++ added)%list)
      with (apply_ops now m ops (apply_op now m (t' ++ added)%list op)).
    destruct op as [ty sev ti msg|ty]; cbn [apply_op].
    + unfold create_if_absent. destruct (open_alerts m ty (t' ++ added)%list).
      * rewrite <- app_assoc.
        destruct (IH t t' (added ++ [new_row now m ty sev ti msg])%list Hkept)
          as (t'' & added' & Heq & Hk & Ha & Hlen).
        { apply Forall_app. split; [assumption|]. constructor; [|constructor]. auto. }
        exists t'', added'. repeat split; auto.
        rewrite length_app in Hlen. simpl in *. lia.
      * destruct (IH t t' added Hkept Hadded) as (t'' & added' & Heq & Hk & Ha & Hlen).
        exists t'', added'. repeat split; auto. simpl. lia.
    + unfold resolve_rows. rewrite map_app. fold (resolve_rows now m ty t').
      destruct (IH t (resolve_rows now m ty t')
                  (map (fun r => if is_open m ty r then resolve_row now r else r) added))
        as (t'' & added' & Heq & Hk & Ha & Hlen).
      { now apply kept_after_resolve. }
      { rewrite Forall_forall in *. intros r Hin. apply in_map_iff in Hin.
        destruct Hin as (r0 & <- & Hin). specialize (Hadded _ Hin).
        destruct (is_open m ty r0); [|assumption]. exact Hadded. }
      exists t'', added'. repeat split; auto.
      rewrite length_map in Hlen. simpl. lia.
Qed.

Section Engine.
Context {NUM : Numbers}.

Lemma creates_of (data : SystemData) : (list_sum (map creates (ops_of data)) <= 4)%nat.
Proof.
  unfold ops_of, disk_ops, updates_ops, antivirus_ops, sleep_ops.
  destruct (disk_not_encrypted (diskEncryption data)), (updates_pending (osUpdates data)),
    (antivirus_not_installed (antivirus data)), (antivirus_not_enabled (antivirus data)),
    (definitions_outdated (antivirus data)), (sleep_too_long (sleepSettings data));
    simpl; lia.
Qed.

(** X1.  An analysis leaves the rows of every other machine as they are. *)
Theorem analysis_scoped_to_machine (now : Z) (data : SystemData) (t : Alerts) (other : string) :
  other <> machineId data ->
  of_machine other (after (analyzeSystemData (database now) data) t) = of_machine other t.
Proof.
  intro Hne. unfold after. rewrite analyzeSystemData_database. cbn [snd].
  now apply of_machine_after_ops.
Qed.

(** X2.  An analysis never deletes, reorders or reopens a row: the table
    after it is the table before it, where some open rows of the machine
    are resolved at the instant of the analysis and every other row is as
    it was, followed by at most four new rows, all of the machine and
    created at that instant. *)
Theorem analysis_keeps_rows (now : Z) (data : SystemData) (t : Alerts) :
  exists kept added,
    after (analyzeSystemData (database now) data) t = (kept ++ added)%list /\
    Forall2 (kept_or_resolved now (machineId data)) t kept /\
    Forall (fun r => machine_id r = machineId data /\ created_at r = now) added /\
    (length added <= 4)%nat.
Proof.
  unfold after. rewrite analyzeSystemData_database. cbn [snd].
  destruct (@shape_after_ops now (machineId data) (ops_of data) t t []
              (kept_refl now (machineId data) t) (Forall_nil _))
    as (kept & added & Heq & Hk & Ha & Hlen).
  rewrite app_nil_r in Heq. exists kept, added. repeat split; auto.
  pose proof (creates_of data). simpl in Hlen. lia.
Qed.

(** ** An open alert is not refreshed *)

Lemma rows_after_ops_create now m ty sev ti msg ops : forall t,
  NoDup (map op_type ops) -> In (Create ty sev ti msg) ops ->
  open_alerts m ty t <> [] ->
  filter (same_alert m ty) (apply_ops now m ops t) = filter (same_alert m ty) t.
Proof.
  induction ops as [|op ops IH]; intros t Hnd Hin Hopen; [contradiction|].
  simpl in Hnd. inversion Hnd as [|x xs Hnot Hnd']; subst.
  change (apply_ops now m (op :: ops) t) with (apply_ops now m ops (apply_op now m t op)).
  destruct Hin as [->|Hin].
  - simpl in *. rewrite rows_after_other_ops by assumption.
    now rewrite create_nothing.
  - assert (Hne : op_type op <> ty).
    { intro E. apply Hnot. rewrite E.
      now apply (in_map op_type _ _ Hin). }
    rewrite IH; try assumption.
    + destruct op as [ty' sev' ti' msg'|ty']; simpl in *.
      * now apply rows_after_other_create.
      * now apply rows_after_other_resolve.
    + now rewrite open_after_other_op.
Qed.

(** X3.  When the condition of an alert type is present and the machine
    already has an open alert of that type, the analysis leaves the rows of
    that machine and type as they are: severity, title, message and
    creation instant of the open alert are not brought up to date. *)
Theorem open_alert_not_refreshed (now : Z) (data : SystemData) (t : Alerts) (ty : AlertType) :
  condition_present data ty = true ->
  open_alerts (machineId data) ty t <> [] ->
  filter (same_alert (machineId data) ty) (after (analyzeSystemData (database now) data) t)
  = filter (same_alert (machineId data) ty) t.
Proof.
  intros Hcond Hopen. unfold after. rewrite analyzeSystemData_database. cbn [snd].
  destruct (@condition_creates _ data ty Hcond) as (sev & ti & msg & Hin).
  exact (@rows_after_ops_create now (machineId data) ty sev ti msg (ops_of data) t
           (ops_of_NoDup data) Hin Hopen).
Qed.

(** ** A compliant snapshot *)

Lemma compliant_reaches_all (data : SystemData) :
  (forall ty, condition_present data ty = false) ->
  forall ty, resolve_reached data ty = true.
Proof.
  intros Hall ty.
  pose proof (Hall disk_encryption) as H1. pose proof (Hall os_updates) as H2.
  pose proof (Hall antivirus_missing) as H3. pose proof (Hall antivirus_disabled) as H4.
  pose proof (Hall antivirus_outdated) as H5. pose proof (Hall sleep_timeout) as H6.
  unfold condition_present in *. unfold resolve_reached.
  destruct ty;
    destruct (disk_not_encrypted (diskEncryption data)), (updates_pending (osUpdates data)),
      (antivirus_not_installed (antivirus data)), (antivirus_not_enabled (antivirus data)),
      (definitions_outdated (antivirus data)), (sleep_too_long (sleepSettings data));
    simpl in *; congruence.
Qed.

(** X4.  After the analysis of a snapshot that presents no condition, the
    machine has no open alert, and its risk score is 0 with level low. *)
Theorem compliant_snapshot_clears_machine (now later : Z) (data : SystemData) (t : Alerts) :
  (forall ty, condition_present data ty = false) ->
  let t' := after (analyzeSystemData (database now) data) t in
  machine_open (machineId data) t' = [] /\
  (machineId data <> "" ->
   getMachineRiskScore (database later) (machineId data) t'
   = (Normal {| score := 0; level := low; alertCount := 0; rawScore := 0 |}, t')).
Proof.
  intros Hall. cbv zeta.
  set (t' := after (analyzeSystemData (database now) data) t).
  assert (Hnone : forall ty, open_alerts (machineId data) ty t' = []).
  { intro ty. unfold t', after. rewrite analyzeSystemData_database. cbn [snd].
    pose proof (@all_settled now (machineId data) (ops_of data) t (ops_of_NoDup data)) as Hs.
    rewrite Forall_forall in Hs.
    exact (Hs _ (reached_resolves data ty (compliant_reaches_all data Hall ty))). }
  assert (Hopen : machine_open (machineId data) t' = []).
  { apply length_zero_iff_nil. rewrite machine_open_by_type, !Hnone. reflexivity. }
  split; [exact Hopen|]. intro Hm.
  destruct (@getAlerts_open (machineId data) t' Hm) as (alerts & Hget & Hperm).
  { rewrite Hopen. simpl. lia. }
  rewrite Hopen in Hperm. apply Permutation_sym, Permutation_nil in Hperm. subst alerts.
  change (getMachineRiskScore (database later) (machineId data) t')
    with (match Database_getAlerts (machineId data) false t' with
          | (Normal found, t'') => ret (risk_of found) t''
          | (Throw e, t'') => (Throw e, t'')
          end).
  rewrite Hget. reflexivity.
Qed.

End Engine.

Lemma analysis_scoped_to_machine_witness :
  "m2" <> machineId scenario /\
  of_machine "m2" (after (analyzeSystemData (database 2) scenario)
                     [new_row 1 "m2" sleep_timeout low "Sleep Timeout Too Long" "text"])
  = [new_row 1 "m2" sleep_timeout low "Sleep Timeout Too Long" "text"].
Proof.
  assert (H : "m2" <> machineId scenario) by discriminate.
  split; [exact H|].
  exact (@analysis_scoped_to_machine Integers.numbers 2 scenario
           [new_row 1 "m2" sleep_timeout low "Sleep Timeout Too Long" "text"] "m2" H).
Defined.

Lemma open_alert_not_refreshed_witness :
  condition_present far_behind os_updates = true /\
  open_alerts "m1" os_updates [pending_alert] <> [] /\
  filter (same_alert "m1" os_updates)
    (after (analyzeSystemData (database 2) far_behind) [pending_alert])
  = [pending_alert].
Proof.
  assert (H1 : condition_present far_behind os_updates = true) by reflexivity.
  assert (H2 : open_alerts (machineId far_behind) os_updates [pending_alert] <> [])
    by discriminate.
  split; [exact H1|]. split; [exact H2|].
  exact (@open_alert_not_refreshed Integers.numbers 2 far_behind [pending_alert]
           os_updates H1 H2).
Defined.

Lemma compliant_snapshot_clears_machine_witness :
  (forall ty, condition_present compliant ty = false) /\
  machine_open "m1" (after (analyzeSystemData (database 2) compliant) one_high_alert) = [].
Proof.
  assert (H : forall ty, condition_present compliant ty = false) by (intros []; reflexivity).
  split; [exact H|].
  exact (proj1 (@compliant_snapshot_clears_machine Integers.numbers 2 3 compliant
                  one_high_alert H)).
Defined.

End EngineExtras.

(* ================================================================== *)
(** * Severities, the risk score and the summary *)
(* ================================================================== *)

Module RiskExtras.
Import JS AlertService AlertSummary Vocabulary MoreVocabulary Examples MoreExamples
  TableFacts OpFacts Claims.

(** ** The severities the rules give *)

Lemma engine_row_resolved now r : engine_row r -> engine_row (resolve_row now r).
Proof. exact (fun H => H). Qed.

Lemma engine_rows_after_op now m t op :
  match op with
  | Create ty sev _ _ => (severityWeights sev <= severityWeights (highest_severity ty))%Z
  | Resolve _ => True
  end ->
  Forall engine_row t -> Forall engine_row (apply_op now m t op).
Proof.
  intros Hop Ht. destruct op as [ty sev ti msg|ty]; simpl.
  - unfold create_if_absent. destruct (open_alerts m ty t); [|assumption].
    apply Forall_app. split; [assumption|]. constructor; [exact Hop|constructor].
  - unfold resolve_rows. rewrite Forall_forall in *. intros r Hin.
    apply in_map_iff in Hin. destruct Hin as (r0 & <- & Hin).
    destruct (is_open m ty r0); [apply engine_row_resolved|]; now apply Ht.
Qed.

Lemma engine_rows_after_ops now m ops : forall t,
  Forall (fun op => match op with
                    | Create ty sev _ _ =>
                        (severityWeights sev <= severityWeights (highest_severity ty))%Z
                    | Resolve _ => True
                    end) ops ->
  Forall engine_row t -> Forall engine_row (apply_ops now m ops t).
Proof.
  induction ops as [|op ops IH]; intros t Hops Ht; [assumption|].
  inversion Hops as [|? ? Hop Hrest]; subst.
  change (apply_ops now m (op :: ops) t) with (apply_ops now m ops (apply_op now m t op)).
  apply IH; [assumption|]. now apply engine_rows_after_op.
Qed.

Lemma weight_sum_app a b : weight_sum (a ++ b)%list = (weight_sum a + weight_sum b)%Z.
Proof.
  induction a as [|x a IH]; [reflexivity|].
  change ((x :: a) ++ b)%list with (x :: (a ++ b))%list.
  rewrite !weight_sum_cons, IH. lia.
Qed.

(** The weights of the open rows of a machine, by alert type. *)
Lemma machine_open_weight_by_type m t :
  weight_sum (machine_open m t)
  = (weight_sum (open_alerts m disk_encryption t) + weight_sum (open_alerts m os_updates t)
     + weight_sum (open_alerts m antivirus_missing t)
     + weight_sum (open_alerts m antivirus_disabled t)
     + weight_sum (open_alerts m antivirus_outdated t)
     + weight_sum (open_alerts m sleep_timeout t))%Z.
Proof.
  unfold machine_open, open_alerts, is_open, same_alert.
  induction t as [|r t IH]; [reflexivity|].
  cbn [filter].
  destruct (machine_id r =? m), (is_resolved r), (alert_type r);
    cbn [andb negb AlertType_eqb]; rewrite ?weight_sum_cons; lia.
Qed.

Lemma open_weight_bounded m ty t :
  at_most_one_open t -> Forall engine_row t ->
  (weight_sum (open_alerts m ty t) <= severityWeights (highest_severity ty))%Z.
Proof.
  intros Hone Hrows. specialize (Hone m ty).
  assert (Hall : Forall (fun r => engine_row r /\ alert_type r = ty) (open_alerts m ty t)).
  { rewrite Forall_forall in *. intros r Hin. unfold open_alerts in Hin.
    apply filter_In in Hin. destruct Hin as [Hin Ho]. split; [now apply Hrows|].
    unfold is_open in Ho. apply andb_true_iff in Ho. destruct Ho as [S _].
    now apply same_alert_spec in S. }
  destruct (open_alerts m ty t) as [|r [|r' rest]].
  - destruct ty; simpl; lia.
  - inversion Hall as [|? ? [Hr Hty] _]; subst. unfold engine_row in Hr.
    rewrite weight_sum_cons. simpl weight_sum. lia.
  - simpl in Hone. lia.
Qed.

Section Scores.
Context {NUM : Numbers}.

Lemma ops_of_weights (data : SystemData) :
  Forall (fun op => match op with
                    | Create ty sev _ _ =>
                        (severityWeights sev <= severityWeights (highest_severity ty))%Z
                    | Resolve _ => True
                    end) (ops_of data).
Proof.
  unfold ops_of, disk_ops, updates_ops, antivirus_ops, sleep_ops.
  destruct (disk_not_encrypted (diskEncryption data)), (updates_pending (osUpdates data)),
    (antivirus_not_installed (antivirus data)), (antivirus_not_enabled (antivirus data)),
    (definitions_outdated (antivirus data)), (sleep_too_long (sleepSettings data)),
    (gt (get_opt (osUpdates data) "daysBehind") 30);
    repeat constructor; simpl; lia.
Qed.

(** X5.  On a table that analyses alone have filled (at most one open
    alert for every machine and type, no row heavier than the rules make
    rows of its type) an analysis leaves such a table, and the risk score
    of a machine is never critical: the raw score is at most 30 and the
    score at most 60. *)
Theorem engine_alerts_never_critical_risk (now later : Z) (data : SystemData)
    (m : string) (t : Alerts) :
  engine_table t ->
  engine_table (after (analyzeSystemData (database now) data) t) /\
  (m <> "" ->
   exists r, getMachineRiskScore (database later) m t = (Normal r, t) /\
             (rawScore r <= 30)%Z /\ (score r <= 60)%Z /\ level r <> critical).
Proof.
  intros [Hone Hrows]. split.
  - unfold after. rewrite analyzeSystemData_database. cbn [snd]. split.
    + now apply at_most_one_after_ops.
    + apply engine_rows_after_ops; [apply ops_of_weights|assumption].
  - intro Hm.
    destruct (@getAlerts_open m t Hm) as (alerts & Hget & Hperm).
    { pose proof (machine_open_bounded m Hone). lia. }
    exists (risk_of alerts). split.
    { change (getMachineRiskScore (database later) m t)
        with (match Database_getAlerts m false t with
              | (Normal found, t') => ret (risk_of found) t'
              | (Throw e, t') => (Throw e, t')
              end).
      now rewrite Hget. }
    assert (Hraw : (weight_sum alerts <= 30)%Z).
    { rewrite (weight_sum_perm Hperm), machine_open_weight_by_type.
      pose proof (@open_weight_bounded m disk_encryption t Hone Hrows).
      pose proof (@open_weight_bounded m os_updates t Hone Hrows).
      pose proof (@open_weight_bounded m antivirus_missing t Hone Hrows).
      pose proof (@open_weight_bounded m antivirus_disabled t Hone Hrows).
      pose proof (@open_weight_bounded m antivirus_outdated t Hone Hrows).
      pose proof (@open_weight_bounded m sleep_timeout t Hone Hrows).
      simpl severityWeights in *. lia. }
    rewrite risk_of_closed. cbv zeta. cbn [score level alertCount rawScore].
    split; [exact Hraw|]. split; [lia|].
    destruct (80 <=? Z.min 100 (2 * weight_sum alerts))%Z eqn:E.
    + apply Z.leb_le in E. lia.
    + destruct (60 <=? _)%Z; [discriminate|]. destruct (30 <=? _)%Z; discriminate.
Qed.

(** X6.  Whatever the table, the answer of [getMachineRiskScore] counts at
    most 100 alerts, its raw score lies between the count and ten times
    the count, and the level is decided by the raw score alone: critical
    from 40, high from 30, medium from 15 and low below. *)
Theorem risk_score_bounds (now : Z) (m : string) (t : Alerts) :
  exists r,
    getMachineRiskScore (database now) m t = (Normal r, t) /\
    (alertCount r <= 100)%nat /\
    (Z.of_nat (alertCount r) <= rawScore r <= 10 * Z.of_nat (alertCount r))%Z /\
    (level r = critical <-> 40 <= rawScore r)%Z /\
    (level r = high <-> 30 <= rawScore r < 40)%Z /\
    (level r = medium <-> 15 <= rawScore r < 30)%Z /\
    (level r = low <-> rawScore r < 15)%Z.
Proof.
  set (alerts := firstn 100 (sort_newest_first (selected m false t))).
  exists (risk_of alerts). split; [reflexivity|].
  rewrite risk_of_closed. cbv zeta. cbn [score level alertCount rawScore].
  assert (Hw : (Z.of_nat (length alerts) <= weight_sum alerts
                <= 10 * Z.of_nat (length alerts))%Z).
  { clear. induction alerts as [|a alerts IH]; [simpl; lia|].
    rewrite weight_sum_cons. cbn [length]. rewrite Nat2Z.inj_succ.
    destruct (severity a); simpl severityWeights; lia. }
  split; [apply firstn_le_length|]. split; [exact Hw|].
  set (raw := weight_sum alerts) in *.
  destruct (80 <=? Z.min 100 (2 * raw))%Z eqn:E1;
    [|destruct (60 <=? Z.min 100 (2 * raw))%Z eqn:E2;
      [|destruct (30 <=? Z.min 100 (2 * raw))%Z eqn:E3]];
    rewrite ?Z.leb_le, ?Z.leb_gt in *;
    repeat split; intros; try discriminate; try reflexivity; lia.
Qed.

(** X7.  One more alert never lowers the risk: the raw score grows by the
    weight of the alert, and neither the score nor the level goes down. *)
Theorem risk_grows_with_alerts (a : AlertRecord) (alerts : Alerts) :
  rawScore (risk_of (a :: alerts))
  = (rawScore (risk_of alerts) + severityWeights (severity a))%Z /\
  (score (risk_of alerts) <= score (risk_of (a :: alerts)))%Z /\
  (severityWeights (level (risk_of alerts))
   <= severityWeights (level (risk_of (a :: alerts))))%Z.
Proof.
  rewrite !risk_of_closed. cbv zeta. cbn [score level alertCount rawScore].
  rewrite weight_sum_cons.
  assert (Ha : (1 <= severityWeights (severity a))%Z)
    by (destruct (severity a); simpl; lia).
  set (w := severityWeights (severity a)) in *.
  set (raw := weight_sum alerts).
  split; [lia|]. split; [lia|].
  destruct (80 <=? Z.min 100 (2 * raw))%Z eqn:E1,
           (80 <=? Z.min 100 (2 * (w + raw)))%Z eqn:F1,
           (60 <=? Z.min 100 (2 * raw))%Z eqn:E2,
           (60 <=? Z.min 100 (2 * (w + raw)))%Z eqn:F2,
           (30 <=? Z.min 100 (2 * raw))%Z eqn:E3,
           (30 <=? Z.min 100 (2 * (w + raw)))%Z eqn:F3;
    rewrite ?Z.leb_le, ?Z.leb_gt in *; simpl severityWeights; lia.
Qed.

End Scores.

Lemma engine_alerts_never_critical_risk_witness :
  engine_table one_high_alert /\
  engine_table (after (analyzeSystemData (database 2) unpatched) one_high_alert).
Proof.
  assert (H : engine_table one_high_alert).
  { split.
    - intros m ty. unfold one_high_alert, open_alerts. cbn [filter].
      destruct (is_open m ty _); simpl; lia.
    - repeat constructor. unfold engine_row. simpl. lia. }
  split; [exact H|].
  exact (proj1 (@engine_alerts_never_critical_risk Integers.numbers 2 3 unpatched "m1"
                  one_high_alert H)).
Defined.

(** ** The summary *)

Lemma sum_case_some condition (rows : Alerts) :
  rows <> [] -> sum_case condition rows = Some (length (filter condition rows)).
Proof. destruct rows; [congruence|reflexivity]. Qed.

Lemma severities_partition (rows : Alerts) :
  (length (filter (fun r => Severity_eqb (severity r) critical) rows)
   + length (filter (fun r => Severity_eqb (severity r) high) rows)
   + length (filter (fun r => Severity_eqb (severity r) medium) rows)
   + length (filter (fun r => Severity_eqb (severity r) low) rows)
   = length rows)%nat.
Proof.
  induction rows as [|r rows IH]; [reflexivity|].
  cbn [filter]. destruct (severity r); cbn [Severity_eqb length]; lia.
Qed.

(** X8.  [getAlertSummary] leaves the table as it is.  With no open alert
    it answers a total of 0 and null, not 0, for the five sums; with open
    alerts the four severity counts are numbers that add up to the total
    and the count of the last 24 hours is a number at most the total.  On
    the object server.js hands over it rejects with a TypeError. *)
Theorem alert_summary_counts (handle now : Z) (t : Alerts) :
  exists s,
    getAlertSummary (database handle) now t = (Normal s, t) /\
    total_alerts s = length (filter (fun r => negb (is_resolved r)) t) /\
    (total_alerts s = 0%nat ->
     with_critical s = None /\ with_high s = None /\ with_medium s = None /\
     with_low s = None /\ last_24h s = None) /\
    (total_alerts s <> 0%nat ->
     exists c h m l d,
       with_critical s = Some c /\ with_high s = Some h /\ with_medium s = Some m /\
       with_low s = Some l /\ last_24h s = Some d /\
       (c + h + m + l = total_alerts s)%nat /\ (d <= total_alerts s)%nat) /\
    exists e, getAlertSummary models now t = (Throw (TypeError e), t).
Proof.
  exists (summary_row now t). split; [reflexivity|].
  unfold summary_row. cbv zeta.
  cbn [total_alerts with_critical with_high with_medium with_low last_24h].
  set (rows := filter (fun r => negb (is_resolved r)) t).
  split; [reflexivity|]. split; [|split].
  - intro H. apply length_zero_iff_nil in H. rewrite H. repeat split.
  - intro H. assert (Hne : rows <> []) by (intro E; now rewrite E in H).
    rewrite !(sum_case_some _ Hne). do 5 eexists. repeat split.
    + apply severities_partition.
    + apply filter_length_le.
  - eexists. reflexivity.
Qed.

End RiskExtras.

(* ================================================================== *)
(** * Database.getAlerts *)
(* ================================================================== *)

Module GetAlertsExtras.
Import JS AlertService Vocabulary MoreVocabulary Examples TableFacts OpFacts Claims.

Lemma insert_by_created_at_sorted r : forall sorted,
  StronglySorted newer_first sorted ->
  StronglySorted newer_first (insert_by_created_at r sorted).
Proof.
  induction sorted as [|r' rest IH]; intro Hs.
  - repeat constructor.
  - inversion Hs as [|? ? Hrest Hall]; subst. cbn [insert_by_created_at].
    destruct (created_at r' <=? created_at r)%Z eqn:E.
    + apply Z.leb_le in E. constructor; [assumption|].
      constructor; [exact E|].
      rewrite Forall_forall in *. intros x Hx. specialize (Hall x Hx).
      unfold newer_first in *. lia.
    + apply Z.leb_gt in E. constructor; [now apply IH|].
      apply (Permutation_Forall (Permutation_sym (insert_by_created_at_perm r rest))).
      constructor; [unfold newer_first; lia|assumption].
Qed.

Lemma sort_newest_first_sorted t : StronglySorted newer_first (sort_newest_first t).
Proof.
  induction t as [|r t IH]; [constructor|].
  cbn [sort_newest_first fold_right]. now apply insert_by_created_at_sorted.
Qed.

(** X9.  [getAlerts] leaves the table as it is and answers the newest 100
    of the rows it selects (those with the asked [is_resolved] and, when a
    machine is named, of that machine), newest first: the answer followed
    by the rows it drops is a rearrangement of the selected rows in
    descending order of [created_at]. *)
Theorem getAlerts_newest_first (machineId : string) (resolved : bool) (t : Alerts) :
  exists answer dropped,
    Database_getAlerts machineId resolved t = (Normal answer, t) /\
    Permutation (answer ++ dropped)%list (selected machineId resolved t) /\
    StronglySorted newer_first (answer ++ dropped)%list /\
    length answer = Nat.min 100 (length (selected machineId resolved t)) /\
    (forall a d, In a answer -> In d dropped -> (created_at d <= created_at a)%Z).
Proof.
  set (sorted := sort_newest_first (selected machineId resolved t)).
  exists (firstn 100 sorted), (skipn 100 sorted).
  assert (Hsorted : StronglySorted newer_first sorted) by apply sort_newest_first_sorted.
  split; [reflexivity|]. rewrite firstn_skipn.
  split; [apply sort_newest_first_perm|]. split; [exact Hsorted|]. split.
  - rewrite length_firstn. unfold sorted.
    now rewrite (Permutation_length (sort_newest_first_perm _)).
  - rewrite <- (firstn_skipn 100 sorted) in Hsorted.
    generalize dependent (skipn 100 sorted). generalize (firstn 100 sorted).
    intros kept. induction kept as [|k kept IH]; intros dropped Hs a d Ha Hd; [contradiction|].
    change ((k :: kept) ++ dropped)%list with (k :: (kept ++ dropped))%list in Hs.
    inversion Hs as [|? ? Hrest Hall]; subst. destruct Ha as [->|Ha].
    + rewrite Forall_forall in Hall. apply (Hall d). apply in_or_app. now right.
    + now apply (IH dropped Hrest).
Qed.

End GetAlertsExtras.

(* ================================================================== *)
(** * The cycles of the monitor *)
(* ================================================================== *)

Module MonitorExtras.
Import JS Vocabulary MoreVocabulary Examples SystemMonitor GateClaims TextFacts.

Section Cycles.
Context {NUM : Numbers}.

Lemma hasStateChanged_payloads (last current current' : SystemState) :
  payloads current' = payloads current ->
  hasStateChanged (Some last) current' = hasStateChanged (Some last) current.
Proof.
  unfold payloads. intros [= Hd Hu Ha Hs].
  unfold hasStateChanged, keys. cbn [existsb]. now rewrite Hd, Hu, Ha, Hs.
Qed.

Lemma hasStateChanged_same (current current' : SystemState) :
  payloads current' = payloads current ->
  hasStateChanged (Some current) current' = false.
Proof.
  unfold payloads. intros [= Hd Hu Ha Hs].
  unfold hasStateChanged, keys. cbn [existsb].
  now rewrite Hd, Hu, Ha, Hs, !String.eqb_refl.
Qed.

Lemma shouldSendHeartbeat_spec (last : SystemState) (now : Z) :
  shouldSendHeartbeat (Some last) now = (timestamp last + 24 * 60 * 60 * 1000 <=? now)%Z.
Proof.
  unfold shouldSendHeartbeat. rewrite heartbeat_due.
  destruct (24 * 60 * 60 * 1000 <=? now - timestamp last)%Z eqn:E;
    symmetry; rewrite ?Z.leb_le, ?Z.leb_gt in *; lia.
Qed.

(** X10.  A transmission that fails is tried again: the cycle keeps the
    previous state, and the next cycle transmits as long as the four
    payloads are those of the failed one and the clock has not gone back,
    whatever else has changed in the state. *)
Theorem failed_transmission_retried (lastState : option SystemState)
    (current current' : SystemState) (now now' : Z) (sent : bool) :
  shouldSend lastState current now = true ->
  payloads current' = payloads current ->
  (now <= now')%Z ->
  runCheck lastState current now false = (lastState, true) /\
  snd (runCheck (fst (runCheck lastState current now false)) current' now' sent) = true.
Proof.
  intros Hsend Hsame Hclock.
  assert (Hfirst : runCheck lastState current now false = (lastState, true)).
  { unfold runCheck. now rewrite Hsend. }
  split; [exact Hfirst|]. rewrite Hfirst. cbn [fst].
  assert (Hagain : shouldSend lastState current' now' = true).
  { destruct lastState as [last|]; [|reflexivity].
    unfold shouldSend in *. cbn [orb] in *.
    rewrite (hasStateChanged_payloads last Hsame).
    apply orb_true_iff in Hsend. apply orb_true_iff.
    destruct Hsend as [Hchanged|Hbeat]; [now left|right].
    rewrite shouldSendHeartbeat_spec in *. apply Z.leb_le in Hbeat. apply Z.leb_le. lia. }
  unfold runCheck. rewrite Hagain. now destruct sent.
Qed.

(** X11.  After a transmission that succeeds the state sent becomes the
    previous state, and a later cycle whose four payloads are the same
    transmits exactly when 24 hours have passed since the instant the
    state sent was assembled. *)
Theorem heartbeat_after_transmission (lastState : option SystemState)
    (current current' : SystemState) (now now' : Z) (sent : bool) :
  shouldSend lastState current now = true ->
  payloads current' = payloads current ->
  runCheck lastState current now true = (Some current, true) /\
  (snd (runCheck (fst (runCheck lastState current now true)) current' now' sent) = true
   <-> (timestamp current + 24 * 60 * 60 * 1000 <= now')%Z).
Proof.
  intros Hsend Hsame.
  assert (Hfirst : runCheck lastState current now true = (Some current, true)).
  { unfold runCheck. now rewrite Hsend. }
  split; [exact Hfirst|]. rewrite Hfirst. cbn [fst].
  assert (Hnext : shouldSend (Some current) current' now'
                  = (timestamp current + 24 * 60 * 60 * 1000 <=? now')%Z).
  { unfold shouldSend. cbn [orb].
    now rewrite (hasStateChanged_same Hsame), shouldSendHeartbeat_spec. }
  unfold runCheck. rewrite Hnext.
  destruct (timestamp current + 24 * 60 * 60 * 1000 <=? now')%Z eqn:E;
    rewrite ?Z.leb_le, ?Z.leb_gt in E.
  - split; [intros _; exact E|intros _; now destruct sent].
  - split; [discriminate|lia].
Qed.

End Cycles.

Lemma failed_transmission_retried_witness :
  shouldSend None (state_at 0 JNull) 0 = true /\
  payloads (state_at 5 (@JNull Integers.numbers)) = payloads (state_at 0 JNull) /\
  (0 <= 5)%Z /\
  snd (runCheck (fst (runCheck None (state_at 0 JNull) 0 false))
         (state_at 5 JNull) 5 true) = true.
Proof.
  assert (H : (0 <= 5)%Z) by lia.
  split; [reflexivity|]. split; [reflexivity|]. split; [exact H|].
  exact (proj2 (@failed_transmission_retried Integers.numbers None (state_at 0 JNull)
                  (state_at 5 JNull) 0 5 true eq_refl eq_refl H)).
Defined.

Lemma heartbeat_after_transmission_witness :
  shouldSend None (state_at 0 JNull) 0 = true /\
  payloads (state_at 5 (@JNull Integers.numbers)) = payloads (state_at 0 JNull) /\
  runCheck None (state_at 0 JNull) 0 true = (Some (state_at 0 JNull), true).
Proof.
  split; [reflexivity|]. split; [reflexivity|].
  exact (proj1 (@heartbeat_after_transmission Integers.numbers None (state_at 0 JNull)
                  (state_at 5 JNull) 0 5 true eq_refl eq_refl)).
Defined.

(** ** The schedule *)

Import Cron.

Lemma pattern_of_hours (h h' : Z) :
  "0 */" ++ Integers.int_toString h ++ " * * *"
  = "0 */" ++ Integers.int_toString h' ++ " * * *" -> h = h'.
Proof.
  intro H. simpl in H. injection H as H.
  now apply append_cancel_r, IntegerPrinting.int_toString_injective in H.
Qed.

Lemma pattern_of_minutes (m m' : Z) :
  "*/" ++ Integers.int_toString m ++ " * * * *"
  = "*/" ++ Integers.int_toString m' ++ " * * * *" -> m = m'.
Proof.
  intro H. simpl in H. injection H as H.
  now apply append_cancel_r, IntegerPrinting.int_toString_injective in H.
Qed.

(** X12.  For whole numbers of minutes that a double holds exactly,
    [getCronPattern] keeps the minutes below an hour and only the whole
    hours from an hour on: two intervals get the same schedule exactly
    when both are the same number of minutes below 60, or both are at
    least 60 and hold the same number of whole hours. *)
Theorem cron_pattern_whole_hours (minutes minutes' : Z) :
  (Z.abs minutes < 2 ^ 53)%Z -> (Z.abs minutes' < 2 ^ 53)%Z ->
  (getCronPattern minutes = getCronPattern minutes'
   <-> (minutes < 60 /\ minutes' = minutes)
       \/ (60 <= minutes /\ 60 <= minutes' /\ minutes / 60 = minutes' / 60))%Z.
Proof.
  intros _ _. unfold getCronPattern.
  destruct (60 <=? minutes)%Z eqn:E, (60 <=? minutes')%Z eqn:E';
    rewrite ?Z.leb_le, ?Z.leb_gt in *; cbv zeta; split.
  - intro H. right. apply pattern_of_hours in H. lia.
  - intros [[? ?]|(_ & _ & ->)]; [lia|reflexivity].
  - intro H. discriminate H.
  - intros [[? ?]|(? & ? & ?)]; lia.
  - intro H. discriminate H.
  - intros [[? ?]|(? & ? & ?)]; lia.
  - intro H. left. apply pattern_of_minutes in H. lia.
  - intros [[_ ->]|(? & ? & ?)]; [reflexivity|lia].
Qed.

(** 90 minutes are scheduled as 60. *)
Lemma cron_pattern_whole_hours_witness :
  (Z.abs 90 < 2 ^ 53)%Z /\ (Z.abs 60 < 2 ^ 53)%Z /\
  getCronPattern 90 = getCronPattern 60.
Proof.
  assert (H90 : (Z.abs 90 < 2 ^ 53)%Z) by reflexivity.
  assert (H60 : (Z.abs 60 < 2 ^ 53)%Z) by reflexivity.
  split; [exact H90|]. split; [exact H60|].
  apply (proj2 (@cron_pattern_whole_hours 90 60 H90 H60)).
  right. repeat split; discriminate.
Defined.

End MonitorExtras.

(* ================================================================== *)
(** * The probes *)
(* ================================================================== *)

Module ProbeExtras.
Import JS AlertService Vocabulary MoreVocabulary Examples MoreExamples TableFacts OpFacts SystemChecks.

Section Probes.
Context {NUM : Numbers} {RE : RegExps}.
Variable host : Host.

Lemma firstDetected_found (checks : list (string * string)) :
  exists members,
    firstDetected host checks = Ok members /\
    lookup "error" (match JSON_roundtrip members with JObj m => m | _ => [] end) = None /\
    get (JSON_roundtrip members) "installed"
    = Some (JBool (existsb (fun check => is_ok (exec host (fst check))) checks)) /\
    get (JSON_roundtrip members) "running"
    = Some (JBool (existsb (fun check => is_ok (exec host (fst check))) checks)) /\
    get (JSON_roundtrip members) "name"
    = option_map (fun check => JStr (snd check))
        (find (fun check => is_ok (exec host (fst check))) checks).
Proof.
  induction checks as [|[command name] checks IH].
  - eexists. repeat split.
  - cbn [firstDetected existsb find fst snd]. unfold runCommand.
    destruct (exec host command) as [out|msg]; cbn [is_ok orb].
    + eexists. repeat split.
    + exact IH.
Qed.

(** X13.  On Linux [checkAntivirus] never answers an error: it reports
    [installed], and with it [running], exactly when one of the five
    detection commands succeeds, under the name of the first that does. *)
Theorem linux_antivirus_detection :
  os_platform host = "linux" ->
  get (checkAntivirus host) "error" = None /\
  get (checkAntivirus host) "installed"
  = Some (JBool (existsb (fun check => is_ok (exec host (fst check))) antivirusChecks)) /\
  get (checkAntivirus host) "running" = get (checkAntivirus host) "installed" /\
  get (checkAntivirus host) "name"
  = option_map (fun check => JStr (snd check))
      (find (fun check => is_ok (exec host (fst check))) antivirusChecks).
Proof.
  intro Hlinux. unfold checkAntivirus. rewrite Hlinux. cbn [String.eqb Ascii.eqb Bool.eqb].
  unfold checkLinuxAntivirus.
  destruct (firstDetected_found antivirusChecks) as (members & -> & He & Hi & Hr & Hn).
  cbn [safeRun]. rewrite Hr, Hi, Hn. repeat split. exact He.
Qed.

(** X14.  On Linux [checkOSUpdates] asks apt, then yum, then zypper, and
    reports the first whose command succeeds; the messages of the failed
    ones are dropped.  When all three fail it answers the error marker
    with the message 'No supported package manager found'. *)
Theorem linux_updates_fallback :
  os_platform host = "linux" ->
  get (checkOSUpdates host) "packageManager"
  = (if is_ok (exec host apt_command) then Some (JStr "apt")
     else if is_ok (exec host yum_command) then Some (JStr "yum")
     else if is_ok (exec host zypper_command) then Some (JStr "zypper")
     else None) /\
  (is_ok (exec host apt_command) || is_ok (exec host yum_command)
   || is_ok (exec host zypper_command) = false
   <-> checkOSUpdates host
       = JObj [("error", JBool true);
               ("message", JStr "No supported package manager found")]).
Proof.
  intro Hlinux. unfold checkOSUpdates. rewrite Hlinux. cbn [String.eqb Ascii.eqb Bool.eqb].
  unfold checkLinuxUpdates, andThen, orElse, runCommand.
  fold apt_command. fold yum_command. fold zypper_command.
  destruct (exec host apt_command) as [out1|m1]; cbn [is_ok orb];
    [split; [reflexivity|split; discriminate]|].
  destruct (exec host yum_command) as [out2|m2]; cbn [is_ok orb];
    [split; [reflexivity|split; discriminate]|].
  destruct (exec host zypper_command) as [out3|m3]; cbn [is_ok orb];
    [split; [reflexivity|split; discriminate]|].
  split; [reflexivity|]. split; reflexivity.
Qed.

(** X15.  [checkSleepSettings] answers the error marker only on macOS,
    and there exactly when the [pmset] command fails.  On Windows it
    reports not compliant with no sleep time whatever [powercfg] prints. *)
Theorem sleep_probe_errors :
  (get (checkSleepSettings host) "error" <> None
   <-> os_platform host = "darwin" /\ is_ok (exec host pmset_command) = false) /\
  (os_platform host = "win32" ->
   get (checkSleepSettings host) "compliant" = Some (JBool false) /\
   get (checkSleepSettings host) "sleepTime" = Some JNull).
Proof.
  unfold checkSleepSettings.
  destruct (os_platform host =? "darwin") eqn:Ed.
  - apply String.eqb_eq in Ed. rewrite Ed. split; [|discriminate].
    unfold checkMacOSSleep, andThen, runCommand. fold pmset_command.
    destruct (exec host pmset_command) as [out|msg]; cbn [is_ok safeRun].
    + destruct (scan_pmset (split newline out)) as [sleepTime displaySleep].
      cbn [JSON_roundtrip map get lookup fst snd String.eqb Ascii.eqb Bool.eqb].
      split; [intro H; now contradiction H|intros [_ H]; discriminate H].
    + cbn [get lookup String.eqb Ascii.eqb Bool.eqb]. split; [auto|discriminate].
  - apply String.eqb_neq in Ed.
    destruct (os_platform host =? "win32") eqn:Ew.
    + unfold checkWindowsSleep, andThen, orElse, runCommand.
      destruct (exec host "powercfg /query SCHEME_CURRENT SUB_SLEEP");
        cbn [safeRun JSON_roundtrip map get lookup fst snd String.eqb Ascii.eqb Bool.eqb];
        (split; [split; [intro H; now contradiction H|intros [H _]; contradiction]
                |intros _; split; reflexivity]).
    + apply String.eqb_neq in Ew.
      split; [|intro H; contradiction].
      destruct (os_platform host =? "linux").
      * unfold checkLinuxSleep, andThen, orElse, runCommand.
        destruct (exec host "gsettings get org.gnome.desktop.session idle-delay");
          cbn [safeRun JSON_roundtrip map get lookup fst snd String.eqb Ascii.eqb Bool.eqb];
          (split; [intro H; now contradiction H|intros [H _]; contradiction]).
      * cbn [safeRun JSON_roundtrip map get lookup fst snd String.eqb Ascii.eqb Bool.eqb].
        split; [intro H; now contradiction H|intros [H _]; contradiction].
Qed.

(** X16.  On a platform the probe does not know, the four payloads are
    fixed and no command is consulted; the payload of the antivirus says
    not installed, so the analysis of the state, as the server receives
    it, leaves the machine with open alerts for disk encryption, updates
    and missing antivirus and with no open sleep alert. *)
Theorem unsupported_platform_alerts (m : string) (os : SystemMonitor.Os) (clock now : Z)
    (t : Alerts) :
  supported (os_platform host) = false ->
  let state := SystemMonitor.getSystemState m host os clock in
  let t' := after (analyzeSystemData (database now) (SystemMonitor.received state)) t in
  (SystemMonitor.diskEncryption state
   = JObj [("enabled", JBool false); ("status", JStr "Platform not supported")] /\
   SystemMonitor.osUpdates state
   = JObj [("updatesAvailable", JBool false); ("status", JStr "Platform not supported")] /\
   SystemMonitor.antivirus state
   = JObj [("installed", JBool false); ("running", JBool false);
           ("status", JStr "Platform not supported")] /\
   SystemMonitor.sleepSettings state
   = JObj [("sleepTime", JNull); ("compliant", JBool false);
           ("status", JStr "Platform not supported")]) /\
  open_alerts m disk_encryption t' <> [] /\
  open_alerts m os_updates t' <> [] /\
  open_alerts m antivirus_missing t' <> [] /\
  open_alerts m sleep_timeout t' = [].
Proof.
  intro Hnot. unfold supported in Hnot. apply orb_false_iff in Hnot.
  destruct Hnot as [Hnot Hl]. apply orb_false_iff in Hnot. destruct Hnot as [Hd Hw].
  cbv zeta.
  assert (Hpay :
    checkDiskEncryption host
    = JObj [("enabled", JBool false); ("status", JStr "Platform not supported")] /\
    checkOSUpdates host
    = JObj [("updatesAvailable", JBool false); ("status", JStr "Platform not supported")] /\
    checkAntivirus host
    = JObj [("installed", JBool false); ("running", JBool false);
            ("status", JStr "Platform not supported")] /\
    checkSleepSettings host
    = JObj [("sleepTime", JNull); ("compliant", JBool false);
            ("status", JStr "Platform not supported")]).
  { unfold checkDiskEncryption, checkOSUpdates, checkAntivirus, checkSleepSettings.
    rewrite Hd, Hw, Hl. repeat split. }
  destruct Hpay as (Hdisk & Hupd & Hav & Hsleep).
  set (state := SystemMonitor.getSystemState m host os clock).
  set (data := SystemMonitor.received state).
  assert (Hstate : SystemMonitor.diskEncryption state = checkDiskEncryption host /\
                   SystemMonitor.osUpdates state = checkOSUpdates host /\
                   SystemMonitor.antivirus state = checkAntivirus host /\
                   SystemMonitor.sleepSettings state = checkSleepSettings host)
    by (repeat split).
  destruct Hstate as (S1 & S2 & S3 & S4).
  split; [rewrite S1, S2, S3, S4; repeat split; assumption|].
  assert (Hcond : condition_present data disk_encryption = true /\
                  condition_present data os_updates = true /\
                  condition_present data antivirus_missing = true /\
                  resolve_reached data sleep_timeout = true).
  { unfold data, condition_present, resolve_reached.
    cbn [SystemMonitor.received diskEncryption osUpdates antivirus sleepSettings].
    rewrite S1, S2, S3, S4, Hdisk, Hupd, Hav, Hsleep. repeat split. }
  destruct Hcond as (C1 & C2 & C3 & C4).
  assert (Hall : Forall (settled m (after (analyzeSystemData (database now) data) t))
                   (ops_of data)).
  { unfold after. rewrite analyzeSystemData_database. cbn [snd].
    exact (@all_settled now (machineId data) (ops_of data) t (ops_of_NoDup data)). }
  rewrite Forall_forall in Hall.
  assert (Hopen : forall ty, condition_present data ty = true ->
             open_alerts m ty (after (analyzeSystemData (database now) data) t) <> []).
  { intros ty Hty. destruct (@condition_creates _ data ty Hty) as (sev & ti & msg & Hin).
    exact (Hall _ Hin). }
  repeat split; try (now apply Hopen).
  exact (Hall _ (reached_resolves data sleep_timeout C4)).
Qed.

End Probes.

(** A Linux host with rkhunter alone, and a host of another platform. *)
Lemma linux_antivirus_detection_witness :
  get (@checkAntivirus Integers.numbers rkhunter_host) "name" = Some (JStr "RKHunter").
Proof.
  exact (proj2 (proj2 (proj2 (@linux_antivirus_detection Integers.numbers rkhunter_host
                                eq_refl)))).
Defined.

Lemma linux_updates_fallback_witness :
  get (@checkOSUpdates Integers.numbers rkhunter_host) "packageManager" = None.
Proof.
  exact (proj1 (@linux_updates_fallback Integers.numbers rkhunter_host eq_refl)).
Defined.

Lemma unsupported_platform_alerts_witness :
  supported (os_platform freebsd_host) = false /\
  open_alerts "m1" antivirus_missing
    (after (analyzeSystemData (database 2)
              (SystemMonitor.received
                 (@SystemMonitor.getSystemState Integers.numbers Integers.regexps
                    "m1" freebsd_host mac_os 1)))
       []) <> [].
Proof.
  split; [reflexivity|].
  exact (proj1 (proj2 (proj2 (proj2
           (@unsupported_platform_alerts Integers.numbers Integers.regexps freebsd_host
              "m1" mac_os 1 2 [] eq_refl))))).
Defined.

End ProbeExtras.

(* ================================================================== *)
(** * The dashboard and the configuration *)
(* ================================================================== *)

Module DashboardExtras.
Import JS JSCompare AlertService Vocabulary MoreVocabulary Examples MoreExamples.

Section Views.
Context {NUM : Numbers} {CMP : Comparisons NUM}.

Lemma get_opt_falsy (v : value) (k : string) : truthy v = false -> get_opt v k = None.
Proof. destruct v as [[]|]; simpl; congruence. Qed.

Lemma get_opt_or_default (v : value) (k : string) :
  get_opt (Dashboard.or_default v) k = get_opt v k.
Proof. destruct v as [[]|]; reflexivity. Qed.

Lemma falsy_or_missing (v : value) (k : string) :
  negb (truthy v) || negb (truthy (get_opt v k)) = negb (truthy (get_opt v k)).
Proof.
  destruct (truthy v) eqn:E; [reflexivity|]. now rewrite (get_opt_falsy _ k E).
Qed.

(** X17.  The issues the dashboard lists for the report stored from a
    snapshot and the conditions the alert engine finds in that snapshot:
    they agree on disk encryption and on updates; 'Antivirus inactive'
    stands for a missing or a disabled antivirus and says nothing of
    outdated definitions; and the engine finds the sleep condition
    when the dashboard lists it or when the snapshot has no sleep settings,
    which the dashboard does not list. *)
Theorem dashboard_issues_and_engine (data : SystemData) :
  let issues := Dashboard.issues_of (Dashboard.stored data) in
  (In "Disk not encrypted" issues <-> condition_present data disk_encryption = true) /\
  (In "OS updates pending" issues <-> condition_present data os_updates = true) /\
  (In "Antivirus inactive" issues
   <-> condition_present data antivirus_missing = true
       \/ condition_present data antivirus_disabled = true) /\
  (condition_present data sleep_timeout = true
   <-> In "Sleep timeout too long" issues \/ truthy (sleepSettings data) = false).
Proof.
  cbv zeta. unfold Dashboard.issues_of, Dashboard.stored, condition_present.
  cbn [Dashboard.diskEncryption Dashboard.osUpdates Dashboard.antivirus
       Dashboard.sleepSettings].
  unfold disk_not_encrypted, updates_pending, antivirus_not_installed,
    antivirus_not_enabled, sleep_too_long.
  rewrite !get_opt_or_default, !falsy_or_missing.
  assert (Hsleep : truthy (sleepSettings data) = false ->
                   gt (get_opt (sleepSettings data) "sleepTimeout") 10 = false).
  { intro H. now rewrite (get_opt_falsy _ _ H). }
  destruct (truthy (get_opt (diskEncryption data) "encrypted")),
           (truthy (get_opt (osUpdates data) "upToDate")),
           (truthy (get_opt (antivirus data) "installed")),
           (truthy (get_opt (antivirus data) "enabled")),
           (gt (get_opt (sleepSettings data) "sleepTimeout") 10),
           (truthy (sleepSettings data));
    cbn [negb orb andb app In];
    (repeat split; intros;
     repeat match goal with
            | H : _ \/ _ |- _ => destruct H
            | H : False |- _ => destruct H
            end;
     try discriminate; try reflexivity; try (specialize (Hsleep eq_refl); discriminate);
     auto 6).
Qed.

(** X18.  The counters of the overview split the reports: in each of the
    four categories the two counters add up to the number of reports. *)
Theorem health_counters_partition (healthReports : list Dashboard.Report) :
  let healthStats := Dashboard.healthStats_of healthReports in
  (Dashboard.encrypted healthStats + Dashboard.unencrypted healthStats
   = length healthReports)%nat /\
  (Dashboard.upToDate healthStats + Dashboard.outdated healthStats
   = length healthReports)%nat /\
  (Dashboard.antivirusActive healthStats + Dashboard.antivirusInactive healthStats
   = length healthReports)%nat /\
  (Dashboard.sleepCompliant healthStats + Dashboard.sleepNonCompliant healthStats
   = length healthReports)%nat.
Proof.
  cbv zeta. unfold Dashboard.healthStats_of.
  assert (H : forall reports acc,
    let s := fold_left Dashboard.count_report reports acc in
    (Dashboard.encrypted s + Dashboard.unencrypted s
     = Dashboard.encrypted acc + Dashboard.unencrypted acc + length reports)%nat /\
    (Dashboard.upToDate s + Dashboard.outdated s
     = Dashboard.upToDate acc + Dashboard.outdated acc + length reports)%nat /\
    (Dashboard.antivirusActive s + Dashboard.antivirusInactive s
     = Dashboard.antivirusActive acc + Dashboard.antivirusInactive acc + length reports)%nat /\
    (Dashboard.sleepCompliant s + Dashboard.sleepNonCompliant s
     = Dashboard.sleepCompliant acc + Dashboard.sleepNonCompliant acc + length reports)%nat).
  { induction reports as [|r reports IH]; intro acc; cbv zeta.
    - cbn [fold_left length]. lia.
    - cbn [fold_left length]. specialize (IH (Dashboard.count_report acc r)).
      cbv zeta in IH. destruct IH as (I1 & I2 & I3 & I4).
      rewrite I1, I2, I3, I4. unfold Dashboard.count_report.
      cbn [Dashboard.encrypted Dashboard.unencrypted Dashboard.upToDate Dashboard.outdated
           Dashboard.antivirusActive Dashboard.antivirusInactive
           Dashboard.sleepCompliant Dashboard.sleepNonCompliant].
      destruct (truthy (get_opt (Dashboard.diskEncryption r) "encrypted")),
               (truthy (get_opt (Dashboard.osUpdates r) "upToDate")),
               (truthy (get_opt (Dashboard.antivirus r) "installed")
                && truthy (get_opt (Dashboard.antivirus r) "enabled")),
               (le (get_opt (Dashboard.sleepSettings r) "sleepTimeout") 10);
        lia. }
  specialize (H healthReports Dashboard.no_stats). cbv zeta in H.
  cbn [Dashboard.no_stats Dashboard.encrypted Dashboard.unencrypted Dashboard.upToDate
       Dashboard.outdated Dashboard.antivirusActive Dashboard.antivirusInactive
       Dashboard.sleepCompliant Dashboard.sleepNonCompliant] in H.
  exact H.
Qed.

Section OfTheProbe.
Context {RE : RegExps}.

(** X19.  The report stored from a state of the client looks critical on
    the dashboard whatever the host: its issues are disk encryption,
    updates and antivirus, never the sleep timeout, and the overview
    counts it as unencrypted, outdated, antivirus inactive and sleep not
    compliant. *)
Theorem probe_reports_look_critical (host : SystemChecks.Host) (m : string)
    (os : SystemMonitor.Os) (clock : Z) (healthStats : Dashboard.HealthStats) :
  let report :=
    Dashboard.stored (SystemMonitor.received (SystemMonitor.getSystemState m host os clock)) in
  Dashboard.health (Some report)
  = ("critical", ["Disk not encrypted"; "OS updates pending"; "Antivirus inactive"]) /\
  Dashboard.count_report healthStats report
  = {| Dashboard.encrypted := Dashboard.encrypted healthStats;
       Dashboard.unencrypted := S (Dashboard.unencrypted healthStats);
       Dashboard.upToDate := Dashboard.upToDate healthStats;
       Dashboard.outdated := S (Dashboard.outdated healthStats);
       Dashboard.antivirusActive := Dashboard.antivirusActive healthStats;
       Dashboard.antivirusInactive := S (Dashboard.antivirusInactive healthStats);
       Dashboard.sleepCompliant := Dashboard.sleepCompliant healthStats;
       Dashboard.sleepNonCompliant := S (Dashboard.sleepNonCompliant healthStats) |}.
Proof.
  cbv zeta.
  destruct (ProbeClaims.checkDiskEncryption_shape host) as (disk & Hdisk & Hencrypted).
  destruct (ProbeClaims.checkOSUpdates_shape host) as (updates & Hupdates & HupToDate).
  destruct (ProbeClaims.checkAntivirus_shape host) as (virus & Hvirus & Henabled).
  destruct (ProbeClaims.checkSleepSettings_shape host) as (sleep & Hsleep & Htimeout).
  unfold Dashboard.health, Dashboard.issues_of, Dashboard.count_report, Dashboard.stored.
  cbn [SystemMonitor.received SystemMonitor.getSystemState SystemMonitor.diskEncryption
       SystemMonitor.osUpdates SystemMonitor.antivirus SystemMonitor.sleepSettings
       diskEncryption osUpdates antivirus sleepSettings Dashboard.or_default
       Dashboard.diskEncryption Dashboard.osUpdates Dashboard.antivirus
       Dashboard.sleepSettings].
  rewrite Hdisk, Hupdates, Hvirus, Hsleep. cbn [get_opt get].
  rewrite Hencrypted, HupToDate, Henabled, Htimeout.
  cbn [truthy negb gt le orb andb].
  rewrite !andb_false_r, !orb_true_r. split; reflexivity.
Qed.

End OfTheProbe.

(** ** validateConfig *)

(** X20.  [validateConfig] finds no error exactly when [apiUrl] and
    [apiKey] are non-empty strings and [checkInterval] is neither below 5
    nor above 1440; the interval may be missing: a configuration with the
    two strings alone is accepted. *)
Theorem validateConfig_accepts (config : json) :
  (ConfigManager.validateConfig config = []
   <-> (exists url, get config "apiUrl" = Some (JStr url) /\ url <> "") /\
       (exists key, get config "apiKey" = Some (JStr key) /\ key <> "") /\
       lt (get config "checkInterval") 5 = false /\
       gt (get config "checkInterval") 1440 = false) /\
  (get config "checkInterval" = None ->
   lt (get config "checkInterval") 5 = false /\ gt (get config "checkInterval") 1440 = false).
Proof.
  split; [|intros ->; split; reflexivity].
  unfold ConfigManager.validateConfig. cbv zeta.
  assert (Hstr : forall v : value,
            negb (truthy v) || negb (is_string v) = false
            <-> exists s, v = Some (JStr s) /\ s <> "").
  { intro v. destruct v as [[| | |s| |]|]; cbn [truthy is_string negb orb];
      try (split; [discriminate|intros (s' & [=] & _)]).
    - destruct b; split; try discriminate; intros (s' & [=] & _).
    - destruct (number_nonzero n); split; try discriminate; intros (s' & [=] & _).
    - destruct (s =? "") eqn:E; cbn [negb orb].
      + apply String.eqb_eq in E. split; [discriminate|]. intros (s' & [= <-] & Hne).
        contradiction.
      + apply String.eqb_neq in E. split; [eauto|reflexivity]. }
  destruct (negb (truthy (get config "apiUrl")) || negb (is_string (get config "apiUrl")))
    eqn:Eurl;
  destruct (negb (truthy (get config "apiKey")) || negb (is_string (get config "apiKey")))
    eqn:Ekey;
  destruct (lt (get config "checkInterval") 5) eqn:Elt;
  destruct (gt (get config "checkInterval") 1440) eqn:Egt;
  cbn [orb app];
  try (split; [discriminate|]; intros (Hu & Hk & Hl & Hg);
       try discriminate;
       try (apply Hstr in Hu; congruence); try (apply Hstr in Hk; congruence)).
  split; [|reflexivity]. intros _.
  apply Hstr in Eurl. apply Hstr in Ekey. auto.
Qed.

End Views.

End DashboardExtras.

(* ================================================================== *)
(** * The API key middleware *)
(* ================================================================== *)

Module AuthExtras.
Import Auth TextFacts.

Lemma replace_unfold (pattern replacement s : string) :
  replace pattern replacement s
  = if String.prefix pattern s then
      replacement ++ String.substring (String.length pattern)
                       (String.length s - String.length pattern) s
    else
      match s with
      | EmptyString => EmptyString
      | String c rest => String c (replace pattern replacement rest)
      end.
Proof. destruct s; reflexivity. Qed.

Lemma replace_prefix (pattern replacement rest : string) :
  replace pattern replacement (pattern ++ rest) = replacement ++ rest.
Proof. now rewrite replace_unfold, prefix_append, after_prefix. Qed.

Lemma replace_bearer (key : string) : replace "Bearer " "" ("Bearer " ++ key) = key.
Proof. exact (replace_prefix "Bearer " "" key). Qed.

(** X21.  A key sent as [Authorization: Bearer <key>] is read back as
    [<key>], and a non-empty [X-API-Key] header goes before it. *)
Theorem bearer_key_read_back (headers : Headers) (key : string) :
  authorization headers = Some ("Bearer " ++ key) ->
  presented_key headers
  = match x_api_key headers with
    | Some direct => if direct =? "" then Some key else Some direct
    | None => Some key
    end.
Proof.
  intro H. unfold presented_key. rewrite H. cbn [option_map]. rewrite replace_bearer.
  reflexivity.
Qed.

Lemma bearer_key_read_back_witness :
  presented_key {| x_api_key := None; authorization := Some "Bearer secret" |}
  = Some "secret".
Proof.
  exact (@bearer_key_read_back {| x_api_key := None; authorization := Some "Bearer secret" |}
           "secret" eq_refl).
Defined.

Section Wired.
Variable API_KEY : option string.
Variable hashSync : string -> string.
Variable find_active : string -> Completion (option KeyRecord).
Variable JSON_parse : string -> Completion (list string).

(** X22.  With the object server.js hands to [authenticateKey], which has
    no [db], the only key that passes is the one of the environment, with
    the permissions read and write: every other request is answered 401
    'API key required' when it presents no key and 500 'Authentication
    failed' when it presents one, whatever the key table would hold, and
    no route that asks for read or write answers 403. *)
Theorem wired_authentication_env_key_only (now : Z) (headers : Headers) :
  let outcome := authenticateKey models API_KEY hashSync find_active JSON_parse now headers in
  (forall apiKey,
      outcome = Next apiKey
      <-> (exists key, presented_key headers = Some key /\ key <> "" /\ API_KEY = Some key)
          /\ apiKey = {| key_id := None; key_name := "default";
                         permissions := ["read"; "write"] |}) /\
  (forall status error message,
      outcome = Respond status error message ->
      (status = 401%nat /\ error = "API key required"
       /\ (presented_key headers = None \/ presented_key headers = Some ""))
      \/ (status = 500%nat /\ error = "Authentication failed")) /\
  (forall permission status error message,
      guarded models API_KEY hashSync find_active JSON_parse permission now headers
      = Respond status error message ->
      status = 403%nat -> permission <> "read" /\ permission <> "write").
Proof.
  cbv zeta. unfold guarded, authenticateKey, get_key.
  change (property models "db") with (@None Member).
  destruct (presented_key headers) as [key|] eqn:Hkey.
  - destruct (key =? "") eqn:Eempty.
    + apply String.eqb_eq in Eempty. subst key.
      split; [|split].
      * intro apiKey. split; [discriminate|]. intros [(k & [= <-] & Hne & _) _]. congruence.
      * intros status error message [= <- <- _]. left. auto.
      * intros permission status error message [= <- _ _]. discriminate.
    + apply String.eqb_neq in Eempty.
      destruct API_KEY as [env|]; [destruct (key =? env) eqn:Eenv|].
      * apply String.eqb_eq in Eenv. subst env. split; [|split].
        -- intro apiKey. split.
           ++ intros [= <-]. split; [|reflexivity]. exists key. auto.
           ++ intros [_ ->]. reflexivity.
        -- discriminate.
        -- intros permission status error message. unfold requirePermission.
           cbn [permissions existsb].
           destruct (permission =? "read") eqn:Er; [discriminate|].
           destruct (permission =? "write") eqn:Ew; [discriminate|].
           apply String.eqb_neq in Er, Ew. auto.
      * apply String.eqb_neq in Eenv. split; [|split].
        -- intro apiKey. split; [discriminate|].
           intros [(k & [= <-] & _ & [= <-]) _]. congruence.
        -- intros status error message [= <- <- _]. right. auto.
        -- intros permission status error message [= <- _ _]. discriminate.
      * split; [|split].
        -- intro apiKey. split; [discriminate|]. intros [(k & _ & _ & [=]) _].
        -- intros status error message [= <- <- _]. right. auto.
        -- intros permission status error message [= <- _ _]. discriminate.
  - split; [|split].
    + intro apiKey. split; [discriminate|]. intros [(k & [=] & _) _].
    + intros status error message [= <- <- _]. left. auto.
    + intros permission status error message [= <- _ _]. discriminate.
Qed.

End Wired.

End AuthExtras.

(* ================================================================== *)
(** * The error middleware *)
(* ================================================================== *)

Module ErrorHandlerExtras.
Import ErrorHandler.

(** X23.  [errorHandler] never answers 200: it keeps a status another
    middleware has set and answers 500 when none was set; after
    [notFound] the answer is 404 with the address in the message; and the
    stack is sent in development only. *)
Theorem errors_never_answer_ok (NODE_ENV : option string) (message stack_ : string)
    (res_statusCode : nat) (originalUrl : string) :
  statusCode (errorHandler NODE_ENV message stack_ res_statusCode) <> 200%nat /\
  (res_statusCode <> 200%nat ->
   statusCode (errorHandler NODE_ENV message stack_ res_statusCode) = res_statusCode) /\
  statusCode (errorHandler NODE_ENV message stack_ 200) = 500%nat /\
  (let '(status, text) := notFound originalUrl in
   statusCode (errorHandler NODE_ENV text stack_ status) = 404%nat /\
   error (errorHandler NODE_ENV text stack_ status) = "Not found - " ++ originalUrl) /\
  (stack (errorHandler NODE_ENV message stack_ res_statusCode) <> None
   <-> NODE_ENV = Some "development").
Proof.
  unfold errorHandler, notFound. cbn [statusCode error stack].
  destruct (res_statusCode =? 200)%nat eqn:E; cbn [negb].
  - apply Nat.eqb_eq in E. repeat split; try discriminate; try congruence.
    + destruct NODE_ENV as [env|]; [|congruence].
      destruct (env =? "development") eqn:D; [|congruence].
      apply String.eqb_eq in D. now subst.
    + now intros ->.
  - apply Nat.eqb_neq in E. repeat split; try assumption; try discriminate.
    + destruct NODE_ENV as [env|]; [|congruence].
      destruct (env =? "development") eqn:D; [|congruence].
      apply String.eqb_eq in D. now subst.
    + now intros ->.
Qed.

End ErrorHandlerExtras.

Module FirstReport.
Import JS AlertService Vocabulary MoreVocabulary Examples MoreExamples TableFacts OpFacts
  SystemChecks Claims.

Section Report.
Context {NUM : Numbers} {RE : RegExps}.
Variable host : Host.

Lemma checkOSUpdates_fields :
  exists members,
    checkOSUpdates host = JObj members /\
    lookup "upToDate" members = None /\ lookup "daysBehind" members = None.
Proof.
  unfold checkOSUpdates, safeRun, checkMacOSUpdates, checkWindowsUpdates,
    checkLinuxUpdates, andThen, orElse, runCommand, JSON_roundtrip.
  probe_cases; eexists; repeat split; reflexivity.
Qed.

Lemma same_alert_new_row now m ty ty' sev ti msg :
  same_alert m ty (new_row now m ty' sev ti msg) = AlertType_eqb ty' ty.
Proof. unfold same_alert. cbn [new_row machine_id alert_type]. now rewrite String.eqb_refl. Qed.

Lemma is_open_new_row_type now m ty ty' sev ti msg :
  is_open m ty (new_row now m ty' sev ti msg) = AlertType_eqb ty' ty.
Proof.
  unfold is_open. rewrite same_alert_new_row. cbn [new_row is_resolved negb].
  apply andb_true_r.
Qed.

(** X24.  The first report of a client rates its machine medium, whatever
    the state of the host: on an empty table the analysis of a state the
    client assembles leaves three open alerts (disk encryption, updates,
    and the antivirus as disabled when the probe says installed, as
    missing otherwise), and the risk score of the machine is 30 of raw 15
    in the first case and 36 of raw 18 in the second. *)
Theorem first_report_rates_medium (m : string) (os : SystemMonitor.Os)
    (clock now later : Z) :
  m <> "" ->
  let state := SystemMonitor.getSystemState m host os clock in
  let t' := after (analyzeSystemData (database now) (SystemMonitor.received state)) [] in
  let installed := truthy (get (SystemMonitor.antivirus state) "installed") in
  map alert_type t'
  = [disk_encryption; os_updates;
     if installed then antivirus_disabled else antivirus_missing] /\
  getMachineRiskScore (database later) m t'
  = (Normal {| score := if installed then 30 else 36;
               level := medium;
               alertCount := 3;
               rawScore := if installed then 15 else 18 |}, t').
Proof.
  intro Hm. cbv zeta.
  destruct (ProbeClaims.checkDiskEncryption_shape host) as (disk & Hdisk & Henc).
  destruct checkOSUpdates_fields as (upd & Hupd & Hup & Hdays).
  destruct (ProbeClaims.checkAntivirus_shape host) as (av & Hav & Hen).
  destruct (ProbeClaims.checkSleepSettings_shape host) as (sl & Hsl & Hto).
  unfold after. rewrite analyzeSystemData_database. cbn [snd].
  unfold ops_of, disk_ops, updates_ops, antivirus_ops, sleep_ops.
  cbn [SystemMonitor.received SystemMonitor.getSystemState SystemMonitor.diskEncryption
       SystemMonitor.osUpdates SystemMonitor.antivirus SystemMonitor.sleepSettings
       SystemMonitor.machineId machineId diskEncryption osUpdates antivirus sleepSettings].
  rewrite Hdisk, Hupd, Hav, Hsl.
  unfold disk_not_encrypted, updates_pending, antivirus_not_installed,
    antivirus_not_enabled, sleep_too_long.
  cbn [get_opt get truthy negb orb].
  rewrite Henc, Hup, Hdays, Hen, Hto. cbn [truthy negb gt orb andb].
  assert (Hscore : forall tbl : Alerts,
            machine_open m tbl = tbl -> (length tbl <= 100)%nat ->
            getMachineRiskScore (database later) m tbl
            = (Normal {| score := Z.min 100 (2 * weight_sum tbl);
                         level := if (80 <=? Z.min 100 (2 * weight_sum tbl))%Z then critical
                                  else if (60 <=? Z.min 100 (2 * weight_sum tbl))%Z then high
                                  else if (30 <=? Z.min 100 (2 * weight_sum tbl))%Z then medium
                                  else low;
                         alertCount := length tbl;
                         rawScore := weight_sum tbl |}, tbl)).
  { intros tbl Hopen Hlen.
    destruct (@getAlerts_open m tbl Hm) as (alerts & Hget & Hperm).
    { now rewrite Hopen. }
    change (getMachineRiskScore (database later) m tbl)
      with (match Database_getAlerts m false tbl with
            | (Normal found, t'') => ret (risk_of found) t''
            | (Throw e, t'') => (Throw e, t'')
            end).
    rewrite Hget. unfold ret. rewrite risk_of_closed. cbv zeta.
    rewrite (weight_sum_perm Hperm), (Permutation_length Hperm), Hopen. reflexivity. }
  destruct (truthy (lookup "installed" av)); cbn [negb app];
    unfold apply_ops; cbn [fold_left apply_op];
    unfold create_if_absent, resolve_rows, open_alerts;
    cbn [filter app map];
    repeat (rewrite ?is_open_new_row_type; cbn [AlertType_eqb filter app map]);
    (split; [reflexivity|]);
    (rewrite Hscore;
     [reflexivity
     |unfold machine_open; cbn [filter new_row machine_id is_resolved];
      rewrite !String.eqb_refl; reflexivity
     |cbn [length]; lia]).
Qed.

End Report.

Lemma first_report_rates_medium_witness :
  "m1" <> "" /\
  completion
    (getMachineRiskScore (database 3) "m1")
    (after (analyzeSystemData (database 2)
              (SystemMonitor.received
                 (@SystemMonitor.getSystemState Integers.numbers Integers.regexps
                    "m1" compliant_mac mac_os 1)))
       [])
  = Normal {| score := 30; level := medium; alertCount := 3; rawScore := 15 |}.
Proof.
  assert (H : "m1" <> "") by discriminate.
  split; [exact H|].
  unfold completion.
  rewrite (proj2 (@first_report_rates_medium Integers.numbers Integers.regexps compliant_mac
                    "m1" mac_os 1 2 3 H)).
  reflexivity.
Defined.

End FirstReport.

(* ================================================================== *)
(** * The sleep lines of pmset *)
(* ================================================================== *)

Module PmsetExtras.
Import JS Vocabulary MoreVocabulary Examples MoreExamples SystemChecks Integers TextFacts.
















End PmsetExtras.

(* ================================================================== *)
(** * The login of the dashboard *)
(* ================================================================== *)

Module LoginExtras.
Import Login.

Section Rule.
Variable compareSync : string -> string -> bool.

(** X26.  POST /auth/login issues a token exactly in two cases: the user
    is stored and the password matches its hash, whatever the environment
    says; or no such user is stored and name and password are those of
    the environment, where a variable that is unset or empty stands for
    'admin' and 'admin123'.  So with nothing stored and nothing set,
    admin with admin123 is let in.  The token always carries the role
    admin with the permissions read, write and admin. *)
Theorem login_rule (env : Env) (admin : option string) (username password : string) :
  let granted :=
    Token {| payload_username := username; role := "admin";
             permissions := ["read"; "write"; "admin"] |} in
  (login compareSync env admin username password = granted
   \/ login compareSync env admin username password = InvalidCredentials) /\
  (login compareSync env admin username password = granted
   <-> match admin with
       | Some passwordHash => compareSync password passwordHash = true
       | None => username = env_or (ADMIN_USERNAME env) "admin"
                 /\ password = env_or (ADMIN_PASSWORD env) "admin123"
       end) /\
  (login compareSync {| ADMIN_USERNAME := None; ADMIN_PASSWORD := None |} None
     "admin" "admin123"
   = Token {| payload_username := "admin"; role := "admin";
              permissions := ["read"; "write"; "admin"] |}) /\
  (ADMIN_PASSWORD env = Some "" ->
   login compareSync env None (env_or (ADMIN_USERNAME env) "admin") "admin123"
   = Token {| payload_username := env_or (ADMIN_USERNAME env) "admin"; role := "admin";
              permissions := ["read"; "write"; "admin"] |}).
Proof.
  cbv zeta. unfold login. split; [|split; [|split]].
  - destruct admin as [h|]; cbn [andb negb].
    + destruct (compareSync password h); cbn [negb]; auto.
    + destruct (username =? _); cbn [negb]; [|auto].
      destruct (password =? _); cbn [negb]; auto.
  - destruct admin as [h|]; cbn [andb negb].
    + destruct (compareSync password h); cbn [negb]; split; congruence.
    + destruct (username =? env_or (ADMIN_USERNAME env) "admin") eqn:U; cbn [negb].
      * apply String.eqb_eq in U.
        destruct (password =? env_or (ADMIN_PASSWORD env) "admin123") eqn:P; cbn [negb].
        -- apply String.eqb_eq in P. split; auto.
        -- apply String.eqb_neq in P. split; [discriminate|]. intros [_ H]. contradiction.
      * apply String.eqb_neq in U. split; [discriminate|]. intros [H _]. contradiction.
  - reflexivity.
  - intros ->. cbn [andb env_or String.eqb]. rewrite String.eqb_refl. reflexivity.
Qed.

End Rule.

End LoginExtras.

(* ================================================================== *)
(** * The order of the rules *)
(* ================================================================== *)

Module OrderExtras.
Import JS AlertService Vocabulary MoreVocabulary Examples TableFacts OpFacts Claims.

Lemma open_rows_of_slice m ty t :
  open_alerts m ty t = filter (fun r => negb (is_resolved r)) (filter (same_alert m ty) t).
Proof.
  unfold open_alerts, is_open. induction t as [|r t IH]; [reflexivity|].
  cbn [filter]. destruct (same_alert m ty r); cbn [andb filter]; [|exact IH].
  destruct (negb (is_resolved r)); now rewrite IH.
Qed.

Lemma existsb_filter_nil {A} (p : A -> bool) (l : list A) :
  existsb p l = match filter p l with [] => false | _ :: _ => true end.
Proof.
  induction l as [|x l IH]; [reflexivity|]. cbn [existsb filter].
  destruct (p x); [reflexivity|exact IH].
Qed.

Lemma rows_after_own_op now m t op :
  filter (same_alert m (op_type op)) (apply_op now m t op)
  = rows_after_op now m op (filter (same_alert m (op_type op)) t).
Proof.
  destruct op as [ty sev ti msg|ty]; cbn [op_type apply_op rows_after_op].
  - unfold create_if_absent. rewrite existsb_filter_nil, <- open_rows_of_slice.
    destruct (open_alerts m ty t); [|reflexivity].
    rewrite filter_app. cbn [filter]. unfold same_alert at 2.
    cbn [new_row machine_id alert_type].
    now rewrite String.eqb_refl, AlertType_eqb_refl.
  - apply rows_after_resolve.
Qed.

Lemma rows_after_own_ops now m op ops : forall t,
  NoDup (map op_type ops) -> In op ops ->
  filter (same_alert m (op_type op)) (apply_ops now m ops t)
  = rows_after_op now m op (filter (same_alert m (op_type op)) t).
Proof.
  induction ops as [|op' ops IH]; intros t Hnd Hin; [contradiction|].
  simpl in Hnd. inversion Hnd as [|x xs Hnot Hnd']; subst.
  change (apply_ops now m (op' :: ops) t) with (apply_ops now m ops (apply_op now m t op')).
  destruct Hin as [->|Hin].
  - rewrite rows_after_other_ops by assumption. apply rows_after_own_op.
  - rewrite IH by assumption.
    assert (Hne : op_type op' <> op_type op).
    { intro E. apply Hnot. rewrite E. now apply in_map. }
    f_equal. destruct op' as [ty' sev ti msg|ty']; cbn [op_type apply_op] in *.
    + now apply rows_after_other_create.
    + now apply rows_after_other_resolve.
Qed.

Lemma AlertType_dec (a b : AlertType) : {a = b} + {a <> b}.
Proof. decide equality. Qed.

Lemma rows_after_permuted now m ty (ops ops' : list Op) (t : Alerts) :
  NoDup (map op_type ops) -> Permutation ops' ops ->
  filter (same_alert m ty) (apply_ops now m ops' t)
  = filter (same_alert m ty) (apply_ops now m ops t).
Proof.
  intros Hnd Hperm.
  assert (Hnd' : NoDup (map op_type ops')).
  { apply (Permutation_NoDup (l := map op_type ops)); [|assumption].
    apply Permutation_map. now apply Permutation_sym. }
  destruct (in_dec AlertType_dec ty (map op_type ops)) as [Hin|Hnot].
  - apply in_map_iff in Hin. destruct Hin as (op & <- & Hin).
    rewrite (@rows_after_own_ops now m op ops t Hnd Hin).
    apply rows_after_own_ops; [assumption|].
    now apply (Permutation_in op (Permutation_sym Hperm)).
  - rewrite (@rows_after_other_ops now m ty ops t Hnot).
    apply rows_after_other_ops. intro Hin. apply Hnot.
    apply (Permutation_in ty (Permutation_map op_type Hperm) Hin).
Qed.

Section Order.
Context {NUM : Numbers}.

(** X27.  The order of the rules does not matter to the alerts: run in
    any order, the operations of an analysis leave, for every alert type,
    the same rows of the machine as [analyzeSystemData] does. *)
Theorem rules_order_insensitive (now : Z) (data : SystemData) (t : Alerts)
    (ops : list Op) (ty : AlertType) :
  Permutation ops (ops_of data) ->
  filter (same_alert (machineId data) ty) (apply_ops now (machineId data) ops t)
  = filter (same_alert (machineId data) ty)
      (after (analyzeSystemData (database now) data) t).
Proof.
  intro Hperm. unfold after. rewrite analyzeSystemData_database. cbn [snd].
  apply rows_after_permuted; [apply ops_of_NoDup|assumption].
Qed.

End Order.

Lemma rules_order_insensitive_witness :
  Permutation (rev (ops_of scenario)) (ops_of scenario) /\
  filter (same_alert "m1" disk_encryption)
    (apply_ops 2 "m1" (rev (ops_of scenario)) [])
  = filter (same_alert "m1" disk_encryption)
      (after (analyzeSystemData (database 2) scenario) []).
Proof.
  assert (H : Permutation (rev (ops_of scenario)) (ops_of scenario))
    by apply Permutation_sym, Permutation_rev.
  split; [exact H|].
  exact (@rules_order_insensitive Integers.numbers 2 scenario [] (rev (ops_of scenario))
           disk_encryption H).
Defined.

End OrderExtras.

(* ================================================================== *)
(** * Alerts the analysis does not reach *)
(* ================================================================== *)

Module UnreachedExtras.
Import JS AlertService Vocabulary MoreVocabulary Examples TableFacts OpFacts Claims.

Section Unreached.
Context {NUM : Numbers}.

Lemma unreached_has_no_op (data : SystemData) (ty : AlertType) :
  condition_present data ty = false -> resolve_reached data ty = false ->
  (ty = antivirus_disabled \/ ty = antivirus_outdated) /\
  ~ In ty (map op_type (ops_of data)).
Proof.
  unfold condition_present, resolve_reached, ops_of, disk_ops, updates_ops, antivirus_ops,
    sleep_ops.
  destruct ty;
    destruct (disk_not_encrypted (diskEncryption data)), (updates_pending (osUpdates data)),
      (antivirus_not_installed (antivirus data)), (antivirus_not_enabled (antivirus data)),
      (definitions_outdated (antivirus data)), (sleep_too_long (sleepSettings data));
    cbn [negb andb]; intros H1 H2; try discriminate H1; try discriminate H2;
    (split; [auto|]); cbn [app map op_type In]; intuition discriminate.
Qed.

(** X28.  Where a snapshot neither presents the condition of an alert type
    nor brings the analysis to its resolution, the rows of the machine and
    type stay as they are.  That happens for the alerts of a disabled
    antivirus and of outdated definitions only: an antivirus that is not
    installed leaves both untouched, and an antivirus that is installed
    and not enabled leaves the alert of outdated definitions untouched. *)
Theorem unreached_alerts_stay (now : Z) (data : SystemData) (t : Alerts) (ty : AlertType) :
  (condition_present data ty = false -> resolve_reached data ty = false ->
   (ty = antivirus_disabled \/ ty = antivirus_outdated) /\
   filter (same_alert (machineId data) ty) (after (analyzeSystemData (database now) data) t)
   = filter (same_alert (machineId data) ty) t) /\
  (antivirus_not_installed (antivirus data) = true ->
   condition_present data antivirus_disabled = false /\
   resolve_reached data antivirus_disabled = false /\
   condition_present data antivirus_outdated = false /\
   resolve_reached data antivirus_outdated = false) /\
  (antivirus_not_installed (antivirus data) = false ->
   antivirus_not_enabled (antivirus data) = true ->
   condition_present data antivirus_outdated = false /\
   resolve_reached data antivirus_outdated = false).
Proof.
  split; [|split].
  - intros Habsent Hunreached.
    destruct (unreached_has_no_op data ty Habsent Hunreached) as [Hty Hnot].
    split; [exact Hty|].
    unfold after. rewrite analyzeSystemData_database. cbn [snd].
    now apply rows_after_other_ops.
  - intro H. unfold condition_present, resolve_reached. rewrite H. repeat split.
  - intros H1 H2. unfold condition_present, resolve_reached. rewrite H1, H2. repeat split.
Qed.

End Unreached.

Lemma unreached_alerts_stay_witness :
  condition_present uninstalled antivirus_disabled = false /\
  resolve_reached uninstalled antivirus_disabled = false /\
  filter (same_alert "m1" antivirus_disabled)
    (after (analyzeSystemData (database 2) uninstalled) [disabled_alert])
  = [disabled_alert].
Proof.
  split; [reflexivity|]. split; [reflexivity|].
  exact (proj2 (proj1 (@unreached_alerts_stay Integers.numbers 2 uninstalled [disabled_alert]
                         antivirus_disabled) eq_refl eq_refl)).
Defined.

End UnreachedExtras.
